(** * GitHub Issues Analyzer: fetch, filter, aggregate, report

    A shallow embedding of [src/issue-analyzer/github-issues-analyzer.py]
    (class [GitHubIssueAnalyzer]) and the properties of its pipeline:
    [get_closed_issues] (paginated fetch with client-side filtering and
    early termination), [analyze_issues] (the statistics loop) and the
    row / document builders of [_export_csv_report] and
    [_export_json_report].

    Python library calls the program makes ([datetime.strptime],
    [datetime.strftime], float division and [round]) are parameters of the
    sections below; module [PyRef] gives executable reference versions:
    a strict parser and formatter, and the binary64 arithmetic of Python's
    [float]. *)

From Stdlib Require Import QArith Qround Qabs Qpower Qminmax Lqa Ascii.
From stdpp Require Import sorting numbers strings list fin_maps gmap.

Local Open Scope Z_scope.

(** ** Python's naive [datetime] and [timedelta] *)

Record datetime := {
  year : Z; month : Z; day : Z;
  hour : Z; minute : Z; second : Z; microsecond : Z
}.

(** [datetime._cmp]: the seven fields compared as a tuple. *)
Definition datetime_cmp (a b : datetime) : comparison :=
  match year a ?= year b with
  | Eq =>
    match month a ?= month b with
    | Eq =>
      match day a ?= day b with
      | Eq =>
        match hour a ?= hour b with
        | Eq =>
          match minute a ?= minute b with
          | Eq =>
            match second a ?= second b with
            | Eq => microsecond a ?= microsecond b
            | c => c
            end
          | c => c
          end
        | c => c
        end
      | c => c
      end
    | c => c
    end
  | c => c
  end.

(** [a < b], [a <= b] and [a >= b] on datetimes. *)
Definition datetime_lt (a b : datetime) : bool :=
  match datetime_cmp a b with Lt => true | _ => false end.
Definition datetime_le (a b : datetime) : bool :=
  match datetime_cmp a b with Gt => false | _ => true end.
Definition datetime_ge (a b : datetime) : bool :=
  match datetime_cmp a b with Lt => false | _ => true end.

Definition _is_leap (y : Z) : bool :=
  (y mod 4 =? 0) && (negb (y mod 100 =? 0) || (y mod 400 =? 0)).

Definition _days_before_year (y : Z) : Z :=
  let y := y - 1 in y * 365 + y / 4 - y / 100 + y / 400.

Definition _DAYS_BEFORE_MONTH (m : Z) : Z :=
  match m with
  | 1 => 0 | 2 => 31 | 3 => 59 | 4 => 90 | 5 => 120 | 6 => 151
  | 7 => 181 | 8 => 212 | 9 => 243 | 10 => 273 | 11 => 304 | 12 => 334
  | _ => 0
  end.

Definition _days_before_month (y m : Z) : Z :=
  _DAYS_BEFORE_MONTH m + (if (2 <? m) && _is_leap y then 1 else 0).

Definition _ymd2ord (y m d : Z) : Z :=
  _days_before_year y + _days_before_month y m + d.

Definition toordinal (a : datetime) : Z := _ymd2ord (year a) (month a) (day a).

(** A [timedelta] in normal form: [0 <= seconds < 86400],
    [0 <= microseconds < 1000000], [days] of either sign. *)
Record timedelta := { days : Z; seconds : Z; microseconds : Z }.

(** [timedelta(days, seconds, microseconds)] on integers: the carry goes
    upwards with floor division ([divmod]). *)
Definition mk_timedelta (d s us : Z) : timedelta :=
  let s := s + us / 1000000 in
  {| days := d + s / 86400;
     seconds := s mod 86400;
     microseconds := us mod 1000000 |}.

(** [datetime.__sub__] on two naive datetimes. *)
Definition datetime_sub (a b : datetime) : timedelta :=
  let secs1 := second a + minute a * 60 + hour a * 3600 in
  let secs2 := second b + minute b * 60 + hour b * 3600 in
  mk_timedelta (toordinal a - toordinal b) (secs1 - secs2)
               (microsecond a - microsecond b).

(** Microseconds elapsed since the start of ordinal day 0; used only in
    statements, as the time line on which differences are measured. *)
Definition timestamp_us (a : datetime) : Z :=
  (toordinal a * 86400 + (second a + minute a * 60 + hour a * 3600)) * 1000000
  + microsecond a.

(** ** Raw records and responses of the listing endpoint *)

Module Issue.
(** One element of the JSON array the endpoint returns, with the keys the
    program reads. [closed_at = None] stands for an absent key or a JSON
    null ([issue.get('closed_at')] is [None] in both cases);
    [has_closed_at] tells the two apart where the program subscripts the
    record ([issue['closed_at']] raises [KeyError] for an absent key): it
    says whether the key is present, and is read only when [closed_at] is
    [None]. [labels] and [assignees] hold the [name] / [login] members,
    the empty list when the key is absent; [login] is
    [issue['user']['login']]; [pull_request] says whether that key is
    present. *)
Record t := {
  number : Z;
  title : string;
  login : string;
  assignees : list string;
  labels : list string;
  created_at : string;
  closed_at : option string;
  has_closed_at : bool;
  html_url : string;
  state : string;
  pull_request : bool
}.
End Issue.

Record response := {
  status_code : Z;
  text : string;
  json : list Issue.t
}.

Inductive exn :=
| ValueError (data : string)
| TypeError
| KeyError (key : string).

(** The wire format both functions parse with. *)
Definition wire_format : string := "%Y-%m-%dT%H:%M:%SZ".

(** Truth value of [issue.get('closed_at')]: [None] and [''] are false. *)
Definition truthy (c : option string) : option string :=
  match c with
  | Some "" => None
  | c => c
  end.

(** ** [get_closed_issues] *)

Record fetch_state := {
  issues : list Issue.t;   (* accumulated accepted records *)
  page : nat;              (* next page number to request *)
  requests : list nat      (* page numbers requested so far, oldest first *)
}.

(** How one iteration of the loop ends: with the next iteration, with
    [break], or with an exception. *)
Inductive control :=
| Continue (st : fetch_state)
| Break (st : fetch_state)
| Throw (e : exn) (log : list nat).

(** How a run ends: [return issues], an exception that leaves the
    function, or still in the loop when the fuel is used up. *)
Inductive outcome :=
| Returned (st : fetch_state)
| Raised (e : exn) (log : list nat)
| Running (st : fetch_state).

(** The page numbers requested by the time of an outcome. *)
Definition requested (o : outcome) : list nat :=
  match o with
  | Returned st => requests st
  | Raised _ log => log
  | Running st => requests st
  end.

(** How one page ends an iteration, whatever has been accumulated. *)
Inductive verdict :=
| More              (* go on with the next page *)
| Fail              (* status other than 200 *)
| Empty             (* no records *)
| Old               (* early termination *)
| Error (e : exn).  (* a timestamp did not parse *)

Section Fetch.
(** [strptime s fmt]: [None] when Python raises [ValueError]. *)
Variable strptime : string → string → option datetime.
(** The remote service: the response to the request for a page. Every
    other request parameter is the same in all iterations, and no page
    number is requested twice, so a function of the page number covers
    every behaviour of the service. *)
Variable server : nat → response.
Variable since_date : datetime.
Variable until_date : option datetime.

(** The [for issue in page_issues] loop (lines 94-108), threading the
    accumulated [issues] list. *)
Fixpoint scan_page (page_issues : list Issue.t) (acc : list Issue.t)
  : exn + list Issue.t :=
  match page_issues with
  | [] => inr acc
  | issue :: rest =>
    if Issue.pull_request issue then scan_page rest acc
    else
      match truthy (Issue.closed_at issue) with
      | None => scan_page rest acc
      | Some closed_at =>
        match strptime closed_at wire_format with
        | None => inl (ValueError closed_at)
        | Some closed_date =>
          if datetime_ge closed_date since_date then
            if match until_date with
               | None => true
               | Some u => datetime_le closed_date u
               end
            then scan_page rest (acc ++ [issue])
            else scan_page rest acc
          else scan_page rest acc
        end
      end
  end.

(** The early-termination test after a page (lines 113-118). [inl] is a
    parse error, [inr true] is [break]. *)
Definition older_than_since (page_issues : list Issue.t) : exn + bool :=
  match last page_issues with
  | None => inr false
  | Some l =>
    match truthy (Issue.closed_at l) with
    | None => inr false
    | Some last_closed =>
      match strptime last_closed wire_format with
      | None => inl (ValueError last_closed)
      | Some last_date => inr (datetime_lt last_date since_date)
      end
    end
  end.

(** One iteration of [while True] (lines 64-118). The request for the
    page is the first thing it does; the [print] calls are left out. *)
Definition loop_body (st : fetch_state) : control :=
  let log := requests st ++ [page st] in
  let response := server (page st) in
  if negb (status_code response =? 200) then
    Break {| issues := issues st; page := page st; requests := log |}
  else
    let page_issues := json response in
    match page_issues with
    | [] => Break {| issues := issues st; page := page st; requests := log |}
    | _ =>
      match scan_page page_issues (issues st) with
      | inl e => Throw e log
      | inr acc =>
        let st := {| issues := acc; page := S (page st); requests := log |} in
        match older_than_since page_issues with
        | inl e => Throw e log
        | inr true => Break st
        | inr false => Continue st
        end
      end
    end.

Fixpoint while_true (fuel : nat) (st : fetch_state) : outcome :=
  match fuel with
  | O => Running st
  | S fuel =>
    match loop_body st with
    | Continue st' => while_true fuel st'
    | Break st' => Returned st'
    | Throw e log => Raised e log
    end
  end.

Definition initial : fetch_state :=
  {| issues := []; page := 1%nat; requests := [] |}.

(** [get_closed_issues since_date until_date]: the outcome after at most
    [fuel] iterations; the value returned is [issues] of the final
    state. *)
Definition get_closed_issues (fuel : nat) : outcome :=
  while_true fuel initial.

(** *** Specification-side vocabulary for the fetch loop *)

(** The filter of section 4.1 step 2 as a predicate on one record: no
    pull-request marker, a closing timestamp that is present and parses,
    and [since <= closed_at <= until]. *)
Definition accepts (issue : Issue.t) : bool :=
  negb (Issue.pull_request issue) &&
  match truthy (Issue.closed_at issue) with
  | None => false
  | Some s =>
    match strptime s wire_format with
    | None => false
    | Some d =>
      datetime_ge d since_date &&
      match until_date with
      | None => true
      | Some u => datetime_le d u
      end
    end
  end.

(** The records of page [p] that pass the filter, in page order. *)
Definition accepted (p : nat) : list Issue.t :=
  List.filter accepts (json (server p)).

(** A record at which the scan of a page raises: it is not a pull
    request and its closing timestamp is a non-empty string that does
    not parse. *)
Definition malformed (issue : Issue.t) : bool :=
  negb (Issue.pull_request issue) &&
  match truthy (Issue.closed_at issue) with
  | None => false
  | Some s =>
    match strptime s wire_format with
    | None => true
    | Some _ => false
    end
  end.

(** The state after [j] further pages that all went on to the next. *)
Definition advance (st : fetch_state) (j : nat) : fetch_state :=
  {| issues := issues st ++ flat_map accepted (seq (page st) j);
     page := page st + j;
     requests := requests st ++ seq (page st) j |}.

(** The state in which the loop is left at page [p] by [break]. *)
Definition stop_at (st : fetch_state) (v : verdict) : fetch_state :=
  match v with
  | Old => {| issues := issues st ++ accepted (page st);
              page := S (page st);
              requests := requests st ++ [page st] |}
  | _ => {| issues := issues st; page := page st;
            requests := requests st ++ [page st] |}
  end.

Definition classify (p : nat) : verdict :=
  if negb (status_code (server p) =? 200) then Fail
  else
    match json (server p) with
    | [] => Empty
    | l =>
      match scan_page l [] with
      | inl e => Error e
      | inr _ =>
        match older_than_since l with
        | inl e => Error e
        | inr true => Old
        | inr false => More
        end
      end
    end.
End Fetch.

(** ** [analyze_issues] *)

Module Detail.
(** One entry of [analysis['issues_detail']]. *)
Record t := {
  number : Z;
  title : string;
  author : string;
  assignees : list string;
  labels : list string;
  created_at : string;
  closed_at : string;
  days_to_close : Z;
  url : string;
  state : string
}.
End Detail.

(** A Python number that is either an [int] or a [float]. *)
Inductive pynum (F : Type) :=
| PyInt (z : Z)
| PyFloat (f : F).
Arguments PyInt {F} z.
Arguments PyFloat {F} f.

Record analysis (F : Type) := {
  total_count : Z;
  by_label : gmap string Z;
  by_assignee : gmap string Z;
  by_author : gmap string Z;
  by_month : gmap string Z;
  by_week : gmap string Z;
  labels_combinations : gmap (list string) Z;
  avg_days_to_close : pynum F;
  issues_detail : list Detail.t
}.
Arguments total_count {F} a.
Arguments by_label {F} a.
Arguments by_assignee {F} a.
Arguments by_author {F} a.
Arguments by_month {F} a.
Arguments by_week {F} a.
Arguments labels_combinations {F} a.
Arguments avg_days_to_close {F} a.
Arguments issues_detail {F} a.

(** [d[k] += 1] on a [defaultdict(int)] or a [Counter]. *)
Definition incr `{Countable K} (k : K) (d : gmap K Z) : gmap K Z :=
  <[k := default 0 (d !! k) + 1]> d.

(** [d[k]] read without inserting, 0 for a missing key. *)
Definition get `{Countable K} (d : gmap K Z) (k : K) : Z := default 0 (d !! k).

(** [sum(d.values())]. *)
Definition sum_values `{Countable K} (d : gmap K Z) : Z :=
  map_fold (λ _ v acc, v + acc) 0 d.

(** [sorted] on a list of [str]: the order of [str] is the code-point
    order, which on UTF-8 bytes is the byte order of [String.le]. *)
Definition sorted (l : list string) : list string := merge_sort String.le l.

Section Analyze.
Variable strptime : string → string → option datetime.
(** [d.strftime(fmt)]. *)
Variable strftime : datetime → string → string.
(** Python floats, [int / int] and [round(x, ndigits)]. *)
Variable pyfloat : Type.
Variable truediv : Z → Z → pyfloat.
Variable round : pyfloat → Z → pyfloat.

Record loop_state := {
  result : analysis pyfloat;
  total_days : Z
}.

(** Lines 148-149: the two [strptime] calls. [issue['closed_at']] is a
    [KeyError] when the key is absent, and [strptime(None, ...)] a
    [TypeError] when it holds a null. *)
Definition parse_times (issue : Issue.t) : exn + (datetime * datetime) :=
  match strptime (Issue.created_at issue) wire_format with
  | None => inl (ValueError (Issue.created_at issue))
  | Some created_at =>
    match Issue.closed_at issue with
    | None =>
      if Issue.has_closed_at issue then inl TypeError
      else inl (KeyError "closed_at")
    | Some s =>
      match strptime s wire_format with
      | None => inl (ValueError s)
      | Some closed_at => inr (created_at, closed_at)
      end
    end
  end.

(** Lines 150-193 for one issue whose timestamps parsed. *)
Definition tally (st : loop_state) (issue : Issue.t)
    (created_at closed_at : datetime) : loop_state :=
  let a := result st in
  let days_to_close := days (datetime_sub closed_at created_at) in
  let total_days := total_days st + days_to_close in
  let month_key := strftime closed_at "%Y-%m" in
  let week_key := strftime closed_at "%Y-W%U" in
  let by_month := incr month_key (by_month a) in
  let by_week := incr week_key (by_week a) in
  let issue_labels := Issue.labels issue in
  let by_label := foldl (λ d label, incr label d) (by_label a) issue_labels in
  let labels_combinations :=
    match issue_labels with
    | [] => labels_combinations a
    | _ => incr (sorted issue_labels) (labels_combinations a)
    end in
  let assignees := Issue.assignees issue in
  let by_assignee :=
    match assignees with
    | [] => incr "unassigned" (by_assignee a)
    | _ => foldl (λ d assignee, incr assignee d) (by_assignee a) assignees
    end in
  let author := Issue.login issue in
  let by_author := incr author (by_author a) in
  let detail :=
    {| Detail.number := Issue.number issue;
       Detail.title := Issue.title issue;
       Detail.author := author;
       Detail.assignees := assignees;
       Detail.labels := issue_labels;
       Detail.created_at := Issue.created_at issue;
       Detail.closed_at := default "" (Issue.closed_at issue);
       Detail.days_to_close := days_to_close;
       Detail.url := Issue.html_url issue;
       Detail.state := Issue.state issue |} in
  {| result :=
       {| total_count := total_count a;
          by_label := by_label;
          by_assignee := by_assignee;
          by_author := by_author;
          by_month := by_month;
          by_week := by_week;
          labels_combinations := labels_combinations;
          avg_days_to_close := avg_days_to_close a;
          issues_detail := issues_detail a ++ [detail] |};
     total_days := total_days |}.

Definition loop_step (st : loop_state) (issue : Issue.t) : exn + loop_state :=
  match parse_times issue with
  | inl e => inl e
  | inr (created_at, closed_at) => inr (tally st issue created_at closed_at)
  end.

(** The [for issue in issues] loop (lines 146-193). *)
Fixpoint for_issues (l : list Issue.t) (st : loop_state) : exn + loop_state :=
  match l with
  | [] => inr st
  | issue :: l =>
    match loop_step st issue with
    | inl e => inl e
    | inr st => for_issues l st
    end
  end.

(** Lines 132-144: the initial dictionary and [total_days = 0]. *)
Definition analysis0 (l : list Issue.t) : loop_state :=
  {| result :=
       {| total_count := Z.of_nat (length l);
          by_label := ∅; by_assignee := ∅; by_author := ∅;
          by_month := ∅; by_week := ∅;
          labels_combinations := ∅;
          avg_days_to_close := PyInt 0;
          issues_detail := [] |};
     total_days := 0 |}.

(** Lines 195-199. *)
Definition finish (l : list Issue.t) (st : loop_state) : analysis pyfloat :=
  let a := result st in
  if 0 <? Z.of_nat (length l) then
    {| total_count := total_count a;
       by_label := by_label a;
       by_assignee := by_assignee a;
       by_author := by_author a;
       by_month := by_month a;
       by_week := by_week a;
       labels_combinations := labels_combinations a;
       avg_days_to_close :=
         PyFloat (round (truediv (total_days st) (Z.of_nat (length l))) 2);
       issues_detail := issues_detail a |}
  else a.

Definition analyze_issues (l : list Issue.t) : exn + analysis pyfloat :=
  match for_issues l (analysis0 l) with
  | inl e => inl e
  | inr st => inr (finish l st)
  end.

(** *** Specification-side vocabulary for the aggregation *)

(** Both timestamps of the issue parse. *)
Definition parses (issue : Issue.t) : bool :=
  match parse_times issue with
  | inr _ => true
  | inl _ => false
  end.

(** Time from creation to closing, in microseconds. *)
Definition elapsed_us (issue : Issue.t) : Z :=
  match parse_times issue with
  | inr (created_at, closed_at) => timestamp_us closed_at - timestamp_us created_at
  | inl _ => 0
  end.

(** Section 4.2: the whole-day truncation of [closed_at - created_at]. *)
Definition whole_days (issue : Issue.t) : Z :=
  Z.quot (elapsed_us issue) (86400 * 1000000).

(** The whole days of [closed_at - created_at] counted downwards: the
    largest number of days that is not more than the time elapsed. *)
Definition floor_days (issue : Issue.t) : Z :=
  elapsed_us issue / (86400 * 1000000).

(** The period keys of an issue, from its closing timestamp. *)
Definition period_key (fmt : string) (issue : Issue.t) : option string :=
  match parse_times issue with
  | inr (_, closed_at) => Some (strftime closed_at fmt)
  | inl _ => None
  end.

(** What one issue adds to [by_assignee[k]]. *)
Definition assignee_units (issue : Issue.t) (k : string) : Z :=
  match Issue.assignees issue with
  | [] => if decide (k = "unassigned") then 1 else 0
  | l => Z.of_nat (length (List.filter (λ a, bool_decide (a = k)) l))
  end.

(** The summary record of an issue, all but the day count compared. *)
Definition summarises (issue : Issue.t) (d : Detail.t) : Prop :=
  Detail.number d = Issue.number issue ∧
  Detail.title d = Issue.title issue ∧
  Detail.author d = Issue.login issue ∧
  Detail.assignees d = Issue.assignees issue ∧
  Detail.labels d = Issue.labels issue ∧
  Detail.created_at d = Issue.created_at issue ∧
  Some (Detail.closed_at d) = Issue.closed_at issue ∧
  Detail.url d = Issue.html_url issue ∧
  Detail.state d = Issue.state issue.
End Analyze.
Arguments result {pyfloat} l.
Arguments total_days {pyfloat} l.

(** [sum(f(x) for x in l)]. *)
Definition sumZ {A} (f : A → Z) (l : list A) : Z :=
  foldr (λ x acc, f x + acc) 0 l.

(** The issue has labels and [k] is their sorted tuple. *)
Definition combo_of (k : list string) (issue : Issue.t) : bool :=
  match Issue.labels issue with
  | [] => false
  | l => bool_decide (sorted l = k)
  end.

Definition labelled (issue : Issue.t) : bool :=
  match Issue.labels issue with
  | [] => false
  | _ => true
  end.

(** The number of elements of [l] that satisfy [f]. *)
Definition countZ {A} (f : A → bool) (l : list A) : Z :=
  Z.of_nat (length (List.filter f l)).

(** ** [_export_csv_report] and [_export_json_report] *)

(** Python values as the two exporters hand them to [csv] and [json].
    Dictionary keys are strings or, in [labels_combinations], tuples of
    strings. *)
Inductive pykey :=
| KStr (s : string)
| KTuple (t : list string).

#[warnings="-register-all"] Inductive pyvalue (F : Type) :=
| VInt (z : Z)
| VFloat (f : F)
| VStr (s : string)
| VList (l : list (pyvalue F))
| VDict (kvs : list (pykey * pyvalue F)).
Arguments VInt {F} z.
Arguments VFloat {F} f.
Arguments VStr {F} s.
Arguments VList {F} l.
Arguments VDict {F} kvs.

(** The document [json.dump] writes, as a tree. *)
#[warnings="-register-all"] Inductive json_doc (F : Type) :=
| JInt (z : Z)
| JFloat (f : F)
| JStr (s : string)
| JArr (l : list (json_doc F))
| JObj (members : list (string * json_doc F)).
Arguments JInt {F} z.
Arguments JFloat {F} f.
Arguments JStr {F} s.
Arguments JArr {F} l.
Arguments JObj {F} members.

(** [sep.join(l)]. *)
Definition join (sep : string) (l : list string) : string := String.concat sep l.

Definition fieldnames : list string :=
  ["number"; "title"; "author"; "assignees"; "labels";
   "created_at"; "closed_at"; "days_to_close"; "url"; "state"].

(** Lookup in a dictionary given as its items in insertion order. *)
Fixpoint dict_get {V} (k : string) (d : list (string * V)) : option V :=
  match d with
  | [] => None
  | (k', v) :: d => if String.eqb k k' then Some v else dict_get k d
  end.

(** The elements of a list encoded in order, up to the first that
    raises. *)
Definition dump_elements {V J} (dump : V → exn + J) : list V → exn + list J :=
  fix elements l :=
    match l with
    | [] => inr []
    | x :: l =>
      match dump x with
      | inl e => inl e
      | inr j =>
        match elements l with
        | inl e => inl e
        | inr js => inr (j :: js)
        end
      end
    end.

(** The items of a dictionary encoded in order; the key is checked before
    the value is encoded. *)
Definition dump_members {V J} (dump : V → exn + J)
  : list (pykey * V) → exn + list (string * J) :=
  fix members kvs :=
    match kvs with
    | [] => inr []
    | (KTuple _, _) :: _ => inl TypeError
    | (KStr k, x) :: kvs =>
      match dump x with
      | inl e => inl e
      | inr j =>
        match members kvs with
        | inl e => inl e
        | inr js => inr ((k, j) :: js)
        end
      end
    end.

Section Exporters.
Variable F : Type.
Variables owner repo : string.
(** [datetime.now().isoformat()] at the time of the export. *)
Variable generated_at : string.

(** An [issues_detail] entry as the dictionary of lines 182-193. *)
Definition detail_dict (d : Detail.t) : list (string * pyvalue F) :=
  [("number", VInt (Detail.number d));
   ("title", VStr (Detail.title d));
   ("author", VStr (Detail.author d));
   ("assignees", VList (VStr <$> Detail.assignees d));
   ("labels", VList (VStr <$> Detail.labels d));
   ("created_at", VStr (Detail.created_at d));
   ("closed_at", VStr (Detail.closed_at d));
   ("days_to_close", VInt (Detail.days_to_close d));
   ("url", VStr (Detail.url d));
   ("state", VStr (Detail.state d))].

(** Lines 280-282: the copy with both list fields replaced by strings. *)
Definition csv_row (d : Detail.t) : list (string * pyvalue F) :=
  [("number", VInt (Detail.number d));
   ("title", VStr (Detail.title d));
   ("author", VStr (Detail.author d));
   ("assignees", VStr (join "; " (Detail.assignees d)));
   ("labels", VStr (join "; " (Detail.labels d)));
   ("created_at", VStr (Detail.created_at d));
   ("closed_at", VStr (Detail.closed_at d));
   ("days_to_close", VInt (Detail.days_to_close d));
   ("url", VStr (Detail.url d));
   ("state", VStr (Detail.state d))].

(** [DictWriter.writerow]: the values in the order of [fieldnames], the
    empty string for a missing key. Quoting of the cells is the [csv]
    module's and is not part of the model. *)
Definition writerow (row : list (string * pyvalue F)) : list (pyvalue F) :=
  (λ k, default (VStr "") (dict_get k row)) <$> fieldnames.

(** The rows [_export_csv_report] writes: the header, then one row per
    [issues_detail] entry. *)
Definition _export_csv_report (a : analysis F) : list (list (pyvalue F)) :=
  (VStr <$> fieldnames) :: (writerow ∘ csv_row <$> issues_detail a).

(** [dict(d)] of a counter, as items. The order of the items is the
    order of [map_to_list], not the insertion order of Python. *)
Definition dict_items (d : gmap string Z) : list (pykey * pyvalue F) :=
  (λ kv, (KStr kv.1, VInt kv.2)) <$> map_to_list d.
Definition combo_items (d : gmap (list string) Z) : list (pykey * pyvalue F) :=
  (λ kv, (KTuple kv.1, VInt kv.2)) <$> map_to_list d.

Definition num_value (n : pynum F) : pyvalue F :=
  match n with
  | PyInt z => VInt z
  | PyFloat f => VFloat f
  end.

Definition str_keys (d : list (string * pyvalue F)) : list (pykey * pyvalue F) :=
  (λ kv, (KStr kv.1, kv.2)) <$> d.

(** Lines 294-310. *)
Definition report_data (a : analysis F) : pyvalue F :=
  VDict
    [(KStr "metadata",
      VDict [(KStr "repository", VStr (owner +:+ "/" +:+ repo));
             (KStr "generated_at", VStr generated_at);
             (KStr "total_issues", VInt (total_count a));
             (KStr "avg_days_to_close", num_value (avg_days_to_close a))]);
     (KStr "summary",
      VDict [(KStr "by_label", VDict (dict_items (by_label a)));
             (KStr "by_assignee", VDict (dict_items (by_assignee a)));
             (KStr "by_author", VDict (dict_items (by_author a)));
             (KStr "by_month", VDict (dict_items (by_month a)));
             (KStr "by_week", VDict (dict_items (by_week a)));
             (KStr "labels_combinations",
              VDict (combo_items (labels_combinations a)))]);
     (KStr "issues", VList (VDict ∘ str_keys ∘ detail_dict <$> issues_detail a))].

(** [json.dump]: lists and dictionaries are encoded member by member, in
    order; a dictionary key that is a tuple raises [TypeError] (the
    encoder accepts str, int, float, bool and None keys only, and
    [skipkeys] is not set). *)
Fixpoint json_dump (v : pyvalue F) : exn + json_doc F :=
  match v with
  | VInt z => inr (JInt z)
  | VFloat f => inr (JFloat f)
  | VStr s => inr (JStr s)
  | VList l =>
    match dump_elements json_dump l with
    | inl e => inl e
    | inr js => inr (JArr js)
    end
  | VDict kvs =>
    match dump_members json_dump kvs with
    | inl e => inl e
    | inr js => inr (JObj js)
    end
  end.

(** The document [_export_json_report] writes, or the exception raised
    by [json.dump]. *)
Definition _export_json_report (a : analysis F) : exn + json_doc F :=
  json_dump (report_data a).

(** *** Specification-side vocabulary for the exporters *)

(** Section 8: the JSON [issues] entry of a summary record, with the
    [assignees] and [labels] lists as they are. *)
Definition detail_json (d : Detail.t) : json_doc F :=
  JObj [("number", JInt (Detail.number d));
        ("title", JStr (Detail.title d));
        ("author", JStr (Detail.author d));
        ("assignees", JArr (JStr <$> Detail.assignees d));
        ("labels", JArr (JStr <$> Detail.labels d));
        ("created_at", JStr (Detail.created_at d));
        ("closed_at", JStr (Detail.closed_at d));
        ("days_to_close", JInt (Detail.days_to_close d));
        ("url", JStr (Detail.url d));
        ("state", JStr (Detail.state d))].
End Exporters.

(** ** Executable reference versions of the library calls *)

Module PyRef.

Definition digit_value (c : ascii) : option Z :=
  let n := Z.of_N (N_of_ascii c) in
  if (48 <=? n) && (n <=? 57) then Some (n - 48) else None.

(** Exactly [n] decimal digits at the head of [s]. *)
Fixpoint read_digits (n : nat) (s : string) (acc : Z) : option (Z * string) :=
  match n with
  | O => Some (acc, s)
  | S n =>
    match s with
    | String c s =>
      match digit_value c with
      | Some v => read_digits n s (acc * 10 + v)
      | None => None
      end
    | EmptyString => None
    end
  end.

Definition set_field (c : ascii) (v : Z) (d : datetime) : option datetime :=
  let '{| year := y; month := m; day := dd; hour := h; minute := mi;
          second := s; microsecond := us |} := d in
  match c with
  | "Y"%char => Some {| year := v; month := m; day := dd; hour := h;
                        minute := mi; second := s; microsecond := us |}
  | "m"%char => Some {| year := y; month := v; day := dd; hour := h;
                        minute := mi; second := s; microsecond := us |}
  | "d"%char => Some {| year := y; month := m; day := v; hour := h;
                        minute := mi; second := s; microsecond := us |}
  | "H"%char => Some {| year := y; month := m; day := dd; hour := v;
                        minute := mi; second := s; microsecond := us |}
  | "M"%char => Some {| year := y; month := m; day := dd; hour := h;
                        minute := v; second := s; microsecond := us |}
  | "S"%char => Some {| year := y; month := m; day := dd; hour := h;
                        minute := mi; second := v; microsecond := us |}
  | _ => None
  end.

Definition width (c : ascii) : nat :=
  match c with "Y"%char => 4 | _ => 2 end.

(** The format read left to right: a directive takes its zero-padded
    field, any other character must be matched as it is, and nothing may
    remain at the end. *)
Fixpoint strptime_fields (fmt s : string) (d : datetime) : option datetime :=
  match fmt with
  | EmptyString => match s with EmptyString => Some d | _ => None end
  | String "%"%char (String c fmt) =>
    match read_digits (width c) s 0 with
    | Some (v, s) =>
      match set_field c v d with
      | Some d => strptime_fields fmt s d
      | None => None
      end
    | None => None
    end
  | String c fmt =>
    match s with
    | String c' s => if Ascii.eqb c c' then strptime_fields fmt s d else None
    | EmptyString => None
    end
  end.

Definition _days_in_month (y m : Z) : Z :=
  match m with
  | 2 => if _is_leap y then 29 else 28
  | 4 | 6 | 9 | 11 => 30
  | _ => 31
  end.

(** The range checks of the [datetime] constructor. *)
Definition valid_datetime (d : datetime) : bool :=
  (1 <=? year d) && (year d <=? 9999) &&
  (1 <=? month d) && (month d <=? 12) &&
  (1 <=? day d) && (day d <=? _days_in_month (year d) (month d)) &&
  (0 <=? hour d) && (hour d <? 24) &&
  (0 <=? minute d) && (minute d <? 60) &&
  (0 <=? second d) && (second d <? 60) &&
  (0 <=? microsecond d) && (microsecond d <? 1000000).

(** A strict [strptime]: it accepts the zero-padded form that
    [strftime] produces and GitHub sends. CPython's parser accepts more
    (unpadded fields, for one); the theorems below hold for every parser. *)
Definition strptime (s fmt : string) : option datetime :=
  match strptime_fields fmt s
          {| year := 1900; month := 1; day := 1; hour := 0; minute := 0;
             second := 0; microsecond := 0 |} with
  | Some d => if valid_datetime d then Some d else None
  | None => None
  end.

(** [n] decimal digits of [z], least significant last, before [tail]. *)
Fixpoint dec (n : nat) (z : Z) (tail : string) : string :=
  match n with
  | O => tail
  | S n => dec n (z / 10) (String (ascii_of_N (Z.to_N (48 + z mod 10))) tail)
  end.

(** [%U]: week of the year with Sunday as the first day of the week; the
    days before the first Sunday are in week 0. *)
Definition week_of_year (d : datetime) : Z :=
  let yday := toordinal d - _ymd2ord (year d) 1 1 in
  let wday := toordinal d mod 7 in
  (yday + 7 - wday) / 7.

Fixpoint strftime (d : datetime) (fmt : string) : string :=
  match fmt with
  | EmptyString => EmptyString
  | String "%"%char (String c fmt) =>
    match c with
    | "Y"%char => dec 4 (year d) (strftime d fmt)
    | "m"%char => dec 2 (month d) (strftime d fmt)
    | "U"%char => dec 2 (week_of_year d) (strftime d fmt)
    | _ => String "%"%char (String c (strftime d fmt))
    end
  | String c fmt => String c (strftime d fmt)
  end.

(** *** Python's [float]: IEEE 754 binary64, round to nearest, ties to
    even *)

(** The integer nearest to [n / d] for [0 < d], the even one of two that
    are equally near. *)
Definition div_half_even (n d : Z) : Z :=
  let f := n / d in
  match 2 * (n mod d) ?= d with
  | Lt => f
  | Gt => f + 1
  | Eq => if Z.even f then f else f + 1
  end.

(** The integer nearest to a rational. *)
Definition rne (q : Q) : Z := div_half_even (Qnum q) (Zpos (Qden q)).

Definition pow2 (e : Z) : Q := Qpower 2 e.

(** The integer part of the binary logarithm of [0 < q]. *)
Definition ilog2 (q : Q) : Z :=
  let k := Z.log2 (Qnum q) - Z.log2 (Zpos (Qden q)) in
  if Qle_bool (pow2 k) q then k else k - 1.

(** The exponent of the last of the 53 bits of the mantissa at [q]; it
    is not less than -1074, where the subnormal numbers end. *)
Definition ulp_exponent (q : Q) : Z := Z.max (ilog2 q - 52) (-1074).

(** The binary64 number nearest to [0 <= q]. A result of [2^1024] or
    more is outside the format ([OverflowError] for a division of
    integers); the day counts of the program stay far below (lemma
    [mean_in_float_range]). *)
Definition nearest (q : Q) : Q :=
  if Qeq_bool q 0 then 0%Q
  else
    let e := ulp_exponent q in
    Qred (inject_Z (rne (q / pow2 e)) * pow2 e).

(** A finite [float]: the sign bit, which a zero has too, and the
    absolute value as a rational in lowest terms. *)
Record float := { negative : bool; magnitude : Q }.

(** [a / b] on two [int]: the correctly rounded quotient. [b = 0] is a
    [ZeroDivisionError], which the callers exclude before they divide. *)
Definition truediv (a b : Z) : float :=
  {| negative := xorb (a <? 0) (b <? 0);
     magnitude := nearest (Z.abs a # Z.to_pos (Z.abs b)) |}.

(** [round(x, ndigits)]: the decimal number with [ndigits] digits after
    the point that is nearest to the exact value of [x], ties to even,
    converted back to the nearest [float]; the sign is kept. *)
Definition round (x : float) (ndigits : Z) : float :=
  let scale := Qpower 10 ndigits in
  {| negative := negative x;
     magnitude := nearest (inject_Z (rne (magnitude x * scale)) / scale) |}.

(** [x * n] for a [float] and an [int] of less than 54 bits. *)
Definition times (x : float) (n : Z) : float :=
  {| negative := xorb (negative x) (n <? 0);
     magnitude := nearest (magnitude x * inject_Z (Z.abs n)) |}.

End PyRef.


(** ** Sample data for the examples *)

Module Example.

Definition at_ (y m d h mi s : Z) : datetime :=
  {| year := y; month := m; day := d; hour := h; minute := mi; second := s;
     microsecond := 0 |}.

Definition since : datetime := at_ 2024 1 1 0 0 0.
Definition until : option datetime := Some (at_ 2024 1 31 23 59 59).

Definition bug_issue : Issue.t :=
  {| Issue.number := 1; Issue.title := "crash on start"; Issue.login := "carol";
     Issue.assignees := ["alice"; "bob"]; Issue.labels := ["bug"];
     Issue.created_at := "2024-01-02T08:00:00Z";
     Issue.closed_at := Some "2024-01-05T07:00:00Z";
     Issue.has_closed_at := true;
     Issue.html_url := "https://github.com/o/r/issues/1";
     Issue.state := "closed"; Issue.pull_request := false |}.

Definition ui_issue : Issue.t :=
  {| Issue.number := 2; Issue.title := "button misaligned"; Issue.login := "dave";
     Issue.assignees := []; Issue.labels := ["ui"; "bug"];
     Issue.created_at := "2024-01-09T12:00:00Z";
     Issue.closed_at := Some "2024-01-10T11:00:00Z";
     Issue.has_closed_at := true;
     Issue.html_url := "https://github.com/o/r/issues/2";
     Issue.state := "closed"; Issue.pull_request := false |}.

Definition plain_issue : Issue.t :=
  {| Issue.number := 3; Issue.title := "question"; Issue.login := "carol";
     Issue.assignees := ["alice"]; Issue.labels := [];
     Issue.created_at := "2024-01-20T00:00:00Z";
     Issue.closed_at := Some "2024-02-01T00:00:00Z";
     Issue.has_closed_at := true;
     Issue.html_url := "https://github.com/o/r/issues/3";
     Issue.state := "closed"; Issue.pull_request := false |}.

Definition old_issue : Issue.t :=
  {| Issue.number := 4; Issue.title := "stale"; Issue.login := "erin";
     Issue.assignees := []; Issue.labels := [];
     Issue.created_at := "2023-11-01T00:00:00Z";
     Issue.closed_at := Some "2023-12-01T00:00:00Z";
     Issue.has_closed_at := true;
     Issue.html_url := "https://github.com/o/r/issues/4";
     Issue.state := "closed"; Issue.pull_request := false |}.

(** A record that says it is open and yet carries a closing timestamp. *)
Definition open_issue : Issue.t :=
  {| Issue.number := 5; Issue.title := "reopened"; Issue.login := "erin";
     Issue.assignees := []; Issue.labels := [];
     Issue.created_at := "2024-01-02T00:00:00Z";
     Issue.closed_at := Some "2024-01-05T00:00:00Z";
     Issue.has_closed_at := true;
     Issue.html_url := "https://github.com/o/r/issues/5";
     Issue.state := "open"; Issue.pull_request := false |}.

(** A closed record whose closing timestamp is not in the wire format. *)
Definition garbled_issue : Issue.t :=
  {| Issue.number := 6; Issue.title := "garbled"; Issue.login := "erin";
     Issue.assignees := []; Issue.labels := [];
     Issue.created_at := "2024-01-02T00:00:00Z";
     Issue.closed_at := Some "yesterday";
     Issue.has_closed_at := true;
     Issue.html_url := "https://github.com/o/r/issues/6";
     Issue.state := "closed"; Issue.pull_request := false |}.

(** A still-open issue: no closing timestamp. *)
Definition pending_issue : Issue.t :=
  {| Issue.number := 7; Issue.title := "in progress"; Issue.login := "erin";
     Issue.assignees := []; Issue.labels := [];
     Issue.created_at := "2024-01-02T00:00:00Z";
     Issue.closed_at := None;
     Issue.has_closed_at := true;
     Issue.html_url := "https://github.com/o/r/issues/7";
     Issue.state := "open"; Issue.pull_request := false |}.

Definition ok (l : list Issue.t) : response :=
  {| status_code := 200; text := ""; json := l |}.
Definition unavailable : response :=
  {| status_code := 503; text := "Service Unavailable"; json := [] |}.

(** Page 1 holds three closed issues, page 2 ends on an issue closed
    before [since], every later page is empty. *)
Definition server (p : nat) : response :=
  match p with
  | 1%nat => ok [bug_issue; ui_issue; plain_issue]
  | 2%nat => ok [old_issue]
  | _ => ok []
  end.

(** One page with the record that claims to be open, then nothing. *)
Definition server_open (p : nat) : response :=
  match p with
  | 1%nat => ok [open_issue]
  | _ => ok []
  end.

(** One page with the garbled record between two good ones. *)
Definition server_garbled (p : nat) : response :=
  match p with
  | 1%nat => ok [bug_issue; garbled_issue; ui_issue]
  | _ => ok []
  end.

(** A good page, then a failure. *)
Definition server_failing (p : nat) : response :=
  match p with
  | 1%nat => ok [bug_issue; ui_issue]
  | 2%nat => unavailable
  | _ => ok [plain_issue]
  end.

(** A page of old issues that ends on a still-open one. *)
Definition server_pending (p : nat) : response :=
  match p with
  | 1%nat => ok [old_issue; pending_issue]
  | 2%nat => ok [bug_issue]
  | _ => ok []
  end.

End Example.

(** ** [_print_console_report], [generate_report] and [main] *)

(** The analysis keeps its dictionaries as maps, without the insertion
    order of Python. What [d.items()] yields for each dictionary is given
    apart, as a list that enumerates the map. *)
Record dict_order := {
  label_items : list (string * Z);
  assignee_items : list (string * Z);
  author_items : list (string * Z);
  month_items : list (string * Z);
  combination_items : list (list string * Z)
}.

Definition enumerates {F} (o : dict_order) (a : analysis F) : Prop :=
  label_items o ≡ₚ map_to_list (by_label a) ∧
  assignee_items o ≡ₚ map_to_list (by_assignee a) ∧
  author_items o ≡ₚ map_to_list (by_author a) ∧
  month_items o ≡ₚ map_to_list (by_month a) ∧
  combination_items o ≡ₚ map_to_list (labels_combinations a).

(** [sorted(items, key=lambda x: x[1], reverse=True)], which is also
    [Counter.most_common()]: a stable sort, larger counts first, items of
    equal count in the order they had. *)
Fixpoint insert_by_count {K} (x : K * Z) (l : list (K * Z)) : list (K * Z) :=
  match l with
  | [] => [x]
  | y :: l' => if y.2 <? x.2 then x :: l else y :: insert_by_count x l'
  end.

Definition sorted_by_count {K} (l : list (K * Z)) : list (K * Z) :=
  foldl (λ acc x, insert_by_count x acc) [] l.

(** Larger counts first. *)
Definition by_count_desc {K} : relation (K * Z) := λ x y, y.2 ≤ x.2.

(** The order of the tuples [(key, count)]. *)
Definition item_le (x y : string * Z) : bool :=
  match String.compare x.1 y.1 with
  | Lt => true
  | Eq => x.2 <=? y.2
  | Gt => false
  end.

(** [sorted(items)] on such tuples. *)
Fixpoint insert_item (x : string * Z) (l : list (string * Z)) : list (string * Z) :=
  match l with
  | [] => [x]
  | y :: l' => if item_le y x then y :: insert_item x l' else x :: l
  end.

Definition sorted_items (l : list (string * Z)) : list (string * Z) :=
  foldl (λ acc x, insert_item x acc) [] l.

Definition item_order : relation (string * Z) := λ x y, item_le x y = true.

(** Strictly ascending keys. *)
Definition key_lt : relation (string * Z) :=
  λ x y, String.compare x.1 y.1 = Lt.

Definition combo_str (combo : list string) : string :=
  match combo with
  | [] => "no labels"
  | _ => join ", " combo
  end.

(** What went wrong in [generate_report]: an exception of the export, or
    the division by a [total_count] of 0. *)
Inductive failure :=
| Exception (e : exn)
| ZeroDivisionError.

Module Args.
(** The parsed command line of the analyzer. *)
Record t := {
  owner : string;
  repo : string;
  labels : option string;
  days : Z;
  since : option string;
  until : option string;
  format : string;
  token : option string
}.
End Args.

(** [d.replace(hour=23, minute=59, second=59)]. *)
Definition end_of_day (d : datetime) : datetime :=
  {| year := year d; month := month d; day := day d;
     hour := 23; minute := 59; second := 59;
     microsecond := microsecond d |}.

Section Console.
Variable F : Type.
Variable truediv : Z → Z → F.
(** [x * 100] on a float. *)
Variable times : F → Z → F.

(** One printed line [name: count (percentage%)]. *)
Record row := { row_name : string; row_count : Z; row_percentage : F }.

(** [(count / analysis['total_count']) * 100]; [None] is the
    [ZeroDivisionError] of the division. *)
Definition percentage (count total : Z) : option F :=
  if total =? 0 then None else Some (times (truediv count total) 100).

(** The [for name, count in ...] loops of lines 231-233, 238-240, 245-247
    and 258-261. *)
Fixpoint share_rows (total : Z) (items : list (string * Z)) : option (list row) :=
  match items with
  | [] => Some []
  | (name, count) :: rest =>
    match percentage count total with
    | None => None
    | Some p =>
      match share_rows total rest with
      | None => None
      | Some rows =>
        Some ({| row_name := name; row_count := count; row_percentage := p |}
              :: rows)
      end
    end
  end.

(** What the console report shows, section by section; a section without
    rows is one that is not printed. The layout of the lines is not
    modelled. *)
Record console_report := {
  shown_total : Z;
  shown_average : pynum F;
  label_rows : list row;
  assignee_rows : list row;
  author_rows : list row;
  month_rows : list (string * Z);
  combination_rows : list row
}.

(** Lines 216-263. [None] is a [ZeroDivisionError]; what was printed
    before it is lost in the model. *)
Definition _print_console_report (o : dict_order) (a : analysis F)
  : option console_report :=
  let total := total_count a in
  match
    match label_items o with
    | [] => Some []
    | items => share_rows total (sorted_by_count items)
    end
  with
  | None => None
  | Some labels =>
    match
      match assignee_items o with
      | [] => Some []
      | items => share_rows total (take 10 (sorted_by_count items))
      end
    with
    | None => None
    | Some assignees =>
      match
        match author_items o with
        | [] => Some []
        | items => share_rows total (take 10 (sorted_by_count items))
        end
      with
      | None => None
      | Some authors =>
        let months :=
          match month_items o with
          | [] => []
          | items => sorted_items items
          end in
        match
          match combination_items o with
          | [] => Some []
          | items =>
            share_rows total
              ((λ kv, (combo_str kv.1, kv.2))
                 <$> take 10 (sorted_by_count items))
          end
        with
        | None => None
        | Some combos =>
          Some {| shown_total := total;
                  shown_average := avg_days_to_close a;
                  label_rows := labels;
                  assignee_rows := assignees;
                  author_rows := authors;
                  month_rows := months;
                  combination_rows := combos |}
        end
      end
    end
  end.

(** The shape of one section of the report: nothing for an empty
    dictionary, otherwise the rows of the selected items. *)
Definition guarded_rows {A} (total : Z) (select : list A → list (string * Z))
    (items : list A) : option (list row) :=
  match items with
  | [] => Some []
  | _ => share_rows total (select items)
  end.
End Console.
Arguments row_name {F} r.
Arguments row_count {F} r.
Arguments row_percentage {F} r.
Arguments shown_total {F} c.
Arguments shown_average {F} c.
Arguments label_rows {F} c.
Arguments assignee_rows {F} c.
Arguments author_rows {F} c.
Arguments month_rows {F} c.
Arguments combination_rows {F} c.

(** The name and the count of a printed line. *)
Definition row_item {F} (r : row F) : string * Z := (row_name r, row_count r).

(** [shown] are [n] items of largest count among [items], larger counts
    first: what [sorted(...)[:n]] and [most_common(n)] select. *)
Definition top_of {K} (n : nat) (shown items : list (K * Z)) : Prop :=
  ∃ rest,
    shown ++ rest ≡ₚ items ∧
    length shown = (n `min` length items)%nat ∧
    StronglySorted by_count_desc shown ∧
    ∀ x y, x ∈ shown → y ∈ rest → y.2 ≤ x.2.

(** One enumeration of the dictionaries of an analysis. *)
Definition map_order {F} (a : analysis F) : dict_order :=
  {| label_items := map_to_list (by_label a);
     assignee_items := map_to_list (by_assignee a);
     author_items := map_to_list (by_author a);
     month_items := map_to_list (by_month a);
     combination_items := map_to_list (labels_combinations a) |}.

(** What [generate_report] produced. *)
Inductive report_output (F : Type) :=
| ConsoleReport (r : console_report F)
| CsvRows (rows : list (list (pyvalue F)))
| JsonDocument (doc : json_doc F)
| NoReport.
Arguments ConsoleReport {F} r.
Arguments CsvRows {F} rows.
Arguments JsonDocument {F} doc.
Arguments NoReport {F}.

(** How [main] ends. [Fetching] is the fetch loop still running when the
    fuel is used up. *)
Inductive main_outcome (F : Type) :=
| MissingToken
| InvalidSince
| InvalidUntil
| Fetching
| NoIssuesFound
| ErrorCaught (e : failure)
| Reported (a : analysis F) (out : report_output F).
Arguments MissingToken {F}.
Arguments InvalidSince {F}.
Arguments InvalidUntil {F}.
Arguments Fetching {F}.
Arguments NoIssuesFound {F}.
Arguments ErrorCaught {F} e.
Arguments Reported {F} a out.

Section Main.
Variable strptime : string → string → option datetime.
Variable strftime : datetime → string → string.
Variable F : Type.
Variable truediv : Z → Z → F.
Variable round : F → Z → F.
Variable times : F → Z → F.
(** The service, as before; the owner, repository, token and label filter
    of the request are its business. *)
Variable server : nat → response.
(** The environment: [GITHUB_TOKEN], the clock as
    [datetime.now() - timedelta(days=n)] and [datetime.now().isoformat()],
    and the order of the dictionaries of an analysis. *)
Variable GITHUB_TOKEN : option string.
Variable days_ago : Z → datetime.
Variable generated_at : string.
Variable order_of : analysis F → dict_order.

(** Lines 201-214. Writing the files is not modelled, only what is
    written. *)
Definition generate_report (owner repo : string) (a : analysis F)
    (output_format : string) : failure + report_output F :=
  if String.eqb output_format "console" then
    match _print_console_report F truediv times (order_of a) a with
    | Some r => inr (ConsoleReport r)
    | None => inl ZeroDivisionError
    end
  else if String.eqb output_format "csv" then
    inr (CsvRows (_export_csv_report F a))
  else if String.eqb output_format "json" then
    match _export_json_report F owner repo generated_at a with
    | inr doc => inr (JsonDocument doc)
    | inl e => inl (Exception e)
    end
  else inr NoReport.

(** Lines 364-380: the two bounds of the window, or the early return. *)
Definition parse_window (args : Args.t)
  : main_outcome F + (datetime * option datetime) :=
  match
    match truthy (Args.since args) with
    | Some s => strptime s "%Y-%m-%d"
    | None => Some (days_ago (Args.days args))
    end
  with
  | None => inl InvalidSince
  | Some since_date =>
    match truthy (Args.until args) with
    | None => inr (since_date, None)
    | Some u =>
      match strptime u "%Y-%m-%d" with
      | None => inl InvalidUntil
      | Some until_date => inr (since_date, Some (end_of_day until_date))
      end
    end
  end.

(** Lines 356-413, after [parse_args]. *)
Definition main (fuel : nat) (args : Args.t) : main_outcome F :=
  match truthy (match truthy (Args.token args) with
                | Some t => Some t
                | None => GITHUB_TOKEN
                end) with
  | None => MissingToken
  | Some _ =>
    match parse_window args with
    | inl early => early
    | inr (since_date, until_date) =>
      match get_closed_issues strptime server since_date until_date fuel with
      | Running _ => Fetching
      | Raised e _ => ErrorCaught (Exception e)
      | Returned st =>
        match issues st with
        | [] => NoIssuesFound
        | _ =>
          match analyze_issues strptime strftime F truediv round (issues st) with
          | inl e => ErrorCaught (Exception e)
          | inr a =>
            match generate_report (Args.owner args) (Args.repo args) a
                    (Args.format args) with
            | inl e => ErrorCaught e
            | inr out => Reported a out
            end
          end
        end
      end
    end
  end.
End Main.

(** ** The issue creator ([github-issue-creator.py]) *)

Module Creator.

(** The validated configuration, with the keys [create_issue] reads.
    [assignees] and [labels] are the empty list when the key is absent;
    [milestone] is [None] when it is absent or null. *)
Record config := {
  repository_owner : string;
  repository_name : string;
  title_format : string;
  body_template : string;
  assignees : list string;
  labels : list string;
  milestone : option Z
}.

(** The JSON body of the POST request. *)
Record payload := {
  p_title : string;
  p_body : string;
  p_assignees : list string;
  p_labels : list string;
  p_milestone : option Z
}.

(** What one call of [create_issue] did. *)
Inductive creation :=
| TemplateError                                      (* [str.format] raised *)
| Skipped (title : string)                           (* already exists *)
| DryRun (url : string) (p : payload)                (* not sent *)
| Posted (url : string) (p : payload) (status : Z).  (* sent, with the answer *)

(** How the main part of the creator ends. *)
Inductive run_outcome (State : Type) :=
| MissingToken
| Listing                  (* the listing loop is still running *)
| Done (s : State) (events : list creation).
Arguments MissingToken {State}.
Arguments Listing {State}.
Arguments Done {State} s events.

(** [prompt_for_param] (lines 45-52) on the lines that [input] will
    return; the result is the value and the lines not read, [None] when
    the input ends first ([EOFError]). *)
Fixpoint prompt_for_param (validator : option (string → bool))
    (default : option string) (inputs : list string)
  : option (string * list string) :=
  match inputs with
  | [] => None
  | value :: rest =>
    match default with
    | Some d =>
      if String.eqb value "" then Some (d, rest)
      else if match validator with None => true | Some ok => ok value end
           then Some (value, rest)
           else prompt_for_param validator default rest
    | None =>
      if match validator with None => true | Some ok => ok value end
      then Some (value, rest)
      else prompt_for_param validator default rest
    end
  end.

Section Tool.
(** [s.strip()], [s.lower()] and [template.format(item=item)], the last
    with [None] for the exception of a template that does not fit. *)
Variable strip : string → string.
Variable lower : string → string.
Variable format : string → string → option string.
(** The listing of the open issues: the response to the request for a
    page. *)
Variable server : nat → response.
(** The creation endpoint, with a state of its own: the status of the
    answer to a POST, and the state after it. *)
Variable State : Type.
Variable post : State → string → payload → State * Z.
Variable GITHUB_TOKEN : option string.

(** Lines 75-76. *)
Definition add_titles (issues : list Issue.t) (titles : gset string)
  : gset string :=
  foldl (λ acc issue, {[ lower (strip (Issue.title issue)) ]} ∪ acc)
        titles issues.

(** The [while True] of [get_existing_issue_titles] (lines 66-77);
    [None] when the fuel is used up. *)
Fixpoint listing_loop (fuel : nat) (page : nat) (titles : gset string)
  : option (gset string) :=
  match fuel with
  | O => None
  | S fuel =>
    let response := server page in
    if negb (status_code response =? 200) then Some titles
    else
      match json response with
      | [] => Some titles
      | issues => listing_loop fuel (S page) (add_titles issues titles)
      end
  end.

Definition get_existing_issue_titles (fuel : nat) : option (gset string) :=
  listing_loop fuel 1%nat ∅.

Definition issues_url (c : config) : string :=
  "https://api.github.com/repos/" +:+ repository_owner c +:+ "/"
  +:+ repository_name c +:+ "/issues".

(** Truth value of [config.get('milestone')]. *)
Definition milestone_given (m : option Z) : option Z :=
  match m with
  | Some 0 => None
  | m => m
  end.

(** Lines 80-121; the state of the endpoint is threaded through. *)
Definition create_issue (c : config) (item : string)
    (existing_titles : gset string) (dry_run : bool) (s : State) : State * creation :=
  match format (title_format c) item with
  | None => (s, TemplateError)
  | Some issue_title =>
    let title_key := lower issue_title in
    if bool_decide (title_key ∈ existing_titles) then (s, Skipped issue_title)
    else
      match format (body_template c) item with
      | None => (s, TemplateError)
      | Some issue_body =>
        let p := {| p_title := issue_title;
                    p_body := issue_body;
                    p_assignees := assignees c;
                    p_labels := labels c;
                    p_milestone := milestone_given (milestone c) |} in
        let url := issues_url c in
        if dry_run then (s, DryRun url p)
        else
          let '(s', status) := post s url p in
          (s', Posted url p status)
      end
  end.

(** Lines 183-187: one call per line that is not blank; an exception of
    a template ends the loop. *)
Fixpoint create_all (c : config) (existing_titles : gset string)
    (dry_run : bool) (s : State) (lines : list string)
  : State * list creation :=
  match lines with
  | [] => (s, [])
  | line :: lines =>
    let item := strip line in
    if String.eqb item "" then create_all c existing_titles dry_run s lines
    else
      match create_issue c item existing_titles dry_run s with
      | (s', TemplateError) => (s', [TemplateError])
      | (s', event) =>
        let '(s'', events) := create_all c existing_titles dry_run s' lines in
        (s'', event :: events)
      end
  end.

(** Lines 176-187 of [main]: the token, the listing, the loop over the
    lines of the input file. *)
Definition run (fuel : nat) (c : config) (dry_run : bool) (s : State)
    (lines : list string) : run_outcome State :=
  match truthy GITHUB_TOKEN with
  | None => MissingToken
  | Some _ =>
    match get_existing_issue_titles fuel with
    | None => Listing
    | Some existing_titles =>
      let '(s', events) := create_all c existing_titles dry_run s lines in
      Done s' events
    end
  end.

(** *** Specification-side vocabulary for the creator *)

(** The payloads that were sent. *)
Definition posted (events : list creation) : list payload :=
  omap (λ e, match e with Posted _ p _ => Some p | _ => None end) events.

(** The items of the input: the stripped lines that are not blank. *)
Definition items (lines : list string) : list string :=
  List.filter (λ item, negb (String.eqb item "")) (strip <$> lines).

(** The keys under which the titles of page [p] are remembered. *)
Definition page_keys (p : nat) : list string :=
  (λ issue, lower (strip (Issue.title issue))) <$> json (server p).

(** A page of the listing that keeps the loop going. *)
Definition listed (p : nat) : Prop :=
  status_code (server p) = 200 ∧ json (server p) ≠ [].
End Tool.
End Creator.

(** ** More sample data *)

Module Sample.

(** [x * n] on floats. *)
Definition times : PyRef.float → Z → PyRef.float := PyRef.times.

(** An issue whose closing timestamp is one hour before its creation. *)
Definition backdated_issue : Issue.t :=
  {| Issue.number := 8; Issue.title := "backdated"; Issue.login := "erin";
     Issue.assignees := []; Issue.labels := [];
     Issue.created_at := "2024-01-02T08:00:00Z";
     Issue.closed_at := Some "2024-01-02T07:00:00Z";
     Issue.has_closed_at := true;
     Issue.html_url := "https://github.com/o/r/issues/8";
     Issue.state := "closed"; Issue.pull_request := false |}.

(** Eighty issues that took two whole days together. *)
Definition eighty : list Issue.t :=
  Example.bug_issue :: replicate 79 Example.ui_issue.

(** A service whose every page holds one issue closed inside the
    window. *)
Definition server_endless (p : nat) : response :=
  Example.ok [Example.bug_issue].

(** The insertion order of the dictionaries that Python builds for the
    list [bug_issue; ui_issue; plain_issue] of the examples. *)
Definition order3 : dict_order :=
  {| label_items := [("bug", 2); ("ui", 1)];
     assignee_items := [("alice", 2); ("bob", 1); ("unassigned", 1)];
     author_items := [("carol", 2); ("dave", 1)];
     month_items := [("2024-01", 2); ("2024-02", 1)];
     combination_items := [(["bug"], 1); (["bug"; "ui"], 1)] |}.

(** A command line with both bounds and a token. *)
Definition args (output_format : string) : Args.t :=
  {| Args.owner := "o"; Args.repo := "r"; Args.labels := None;
     Args.days := 30; Args.since := Some "2024-01-01";
     Args.until := Some "2024-01-31"; Args.format := output_format;
     Args.token := Some "secret" |}.

(** A clock for which 30 days ago is the first of January 2024. *)
Definition days_ago (n : Z) : datetime := Example.since.

(** [str.lower] and [str.strip] on ASCII text. *)
Definition lower_ascii (a : ascii) : ascii :=
  let n := nat_of_ascii a in
  if ((65 <=? n) && (n <=? 90))%nat then ascii_of_nat (n + 32) else a.

Fixpoint lower (s : string) : string :=
  match s with
  | EmptyString => EmptyString
  | String a s => String (lower_ascii a) (lower s)
  end.

Definition is_space (a : ascii) : bool :=
  let n := nat_of_ascii a in
  (((9 <=? n) && (n <=? 13)) || ((28 <=? n) && (n <=? 32)))%nat.

Fixpoint lstrip (s : string) : string :=
  match s with
  | String a s' => if is_space a then lstrip s' else s
  | EmptyString => EmptyString
  end.

Definition strip (s : string) : string :=
  String.rev (lstrip (String.rev (lstrip s))).

(** [template.format(item=item)] for templates whose only replacement
    field is [{item}]; any other brace raises. *)
Fixpoint format_from (skip : nat) (template item : string) : option string :=
  match template with
  | EmptyString => Some EmptyString
  | String a rest =>
    match skip with
    | S k => format_from k rest item
    | O =>
      if String.prefix "{item}" template
      then String.append item <$> format_from 5 rest item
      else if Ascii.eqb a "{" || Ascii.eqb a "}" then None
      else String a <$> format_from 0 rest item
    end
  end.

Definition format (template item : string) : option string :=
  format_from 0 template item.

(** Two open issues on the first page of the listing, nothing after. *)
Definition open_issues (p : nat) : response :=
  match p with
  | 1%nat => Example.ok [Example.pending_issue; Example.open_issue]
  | _ => Example.ok []
  end.

(** A listing that cannot be read. *)
Definition no_listing (p : nat) : response := Example.unavailable.

(** An endpoint that records what it is sent and answers 201. *)
Definition post (log : list Creator.payload) (url : string)
    (p : Creator.payload) : list Creator.payload * Z :=
  (log ++ [p], 201).

Definition config : Creator.config :=
  {| Creator.repository_owner := "o";
     Creator.repository_name := "r";
     Creator.title_format := "{item}";
     Creator.body_template := "Please look at {item}.";
     Creator.assignees := ["alice"];
     Creator.labels := [];
     Creator.milestone := None |}.

(** An input file with a blank line, a title that is open already and a
    line that comes twice. *)
Definition lines : list string :=
  ["Reopened"; "  "; "new thing"; " new thing "].

End Sample.

(** * Properties *)

(** ** The fetch loop *)

Section FetchFacts.
Variable strptime : string → string → option datetime.
Variable server : nat → response.
Variable since_date : datetime.
Variable until_date : option datetime.

Local Abbreviation scan_page := (scan_page strptime since_date until_date).
Local Abbreviation older_than_since := (older_than_since strptime since_date).
Local Abbreviation loop_body := (loop_body strptime server since_date until_date).
Local Abbreviation while_true := (while_true strptime server since_date until_date).
Local Abbreviation accepts := (accepts strptime since_date until_date).
Local Abbreviation accepted := (accepted strptime server since_date until_date).
Local Abbreviation malformed := (malformed strptime).
Local Abbreviation classify := (classify strptime server since_date until_date).
Local Abbreviation advance := (advance strptime server since_date until_date).
Local Abbreviation stop_at := (stop_at strptime server since_date until_date).

(** One record of the scan: a malformed record raises, any other is
    kept or skipped as the filter says. *)
Lemma scan_page_cons i l acc :
  scan_page (i :: l) acc =
  if malformed i then inl (ValueError (default "" (truthy (Issue.closed_at i))))
  else scan_page l (if accepts i then acc ++ [i] else acc).
Proof.
  unfold accepts, malformed; simpl.
  destruct (Issue.pull_request i); [done|].
  destruct (truthy (Issue.closed_at i)) as [s|]; [|done].
  destruct (strptime s wire_format) as [d|]; [|done].
  destruct (datetime_ge d since_date); [|done].
  by destruct (match until_date with Some u => datetime_le d u | None => true end).
Qed.

(** The scan only ever appends to what has been accumulated. *)
Lemma scan_page_acc l acc :
  scan_page l acc =
  match scan_page l [] with
  | inl e => inl e
  | inr r => inr (acc ++ r)
  end.
Proof.
  revert acc. induction l as [|i l IH]; intros acc.
  { simpl. by rewrite app_nil_r. }
  rewrite !scan_page_cons. destruct (malformed i); [done|].
  destruct (accepts i); [|apply IH].
  rewrite (IH (acc ++ [i])), (IH ([] ++ [i])).
  destruct (scan_page l []); [done|]. by rewrite <-app_assoc.
Qed.

(** A scan that completes has kept exactly the records that pass the
    filter, in page order, and met no malformed record. *)
Lemma scan_page_filter l r :
  scan_page l [] = inr r →
  r = List.filter accepts l ∧ Forall (λ i, malformed i = false) l.
Proof.
  revert r. induction l as [|i l IH]; intros r.
  { intros [= <-]. by split. }
  rewrite scan_page_cons. destruct (malformed i) eqn:Hm; [done|].
  simpl. destruct (accepts i).
  - rewrite scan_page_acc. destruct (scan_page l []) as [|r']; [done|].
    intros [= <-]. destruct (IH r' eq_refl) as [-> ?]. by split; [|constructor].
  - intros [-> ?]%IH. by split; [|constructor].
Qed.

(** Conversely, without a malformed record the scan completes. *)
Lemma scan_page_total l :
  Forall (λ i, malformed i = false) l →
  scan_page l [] = inr (List.filter accepts l).
Proof.
  induction 1 as [|i l Hi _ IH]; [done|].
  rewrite scan_page_cons, Hi. simpl. destruct (accepts i); [|done].
  by rewrite scan_page_acc, IH.
Qed.

(** The scan raises at the first malformed record. *)
Lemma scan_page_raise l1 i l2 s acc :
  Forall (λ i, malformed i = false) l1 →
  Issue.pull_request i = false →
  truthy (Issue.closed_at i) = Some s →
  strptime s wire_format = None →
  scan_page (l1 ++ i :: l2) acc = inl (ValueError s).
Proof.
  intros Hl1 Hpr Hs Hp. revert acc.
  induction Hl1 as [|j l1 Hj _ IH]; intros acc.
  - rewrite app_nil_l, scan_page_cons. unfold malformed. by rewrite Hpr, Hs, Hp.
  - rewrite <-app_comm_cons, scan_page_cons, Hj. apply IH.
Qed.

(** What an iteration does depends on the page alone. *)
Lemma loop_body_classify st :
  loop_body st =
  let log := requests st ++ [page st] in
  match classify (page st) with
  | More =>
    Continue {| issues := issues st ++ accepted (page st);
                page := S (page st); requests := log |}
  | Old =>
    Break {| issues := issues st ++ accepted (page st);
             page := S (page st); requests := log |}
  | Fail | Empty =>
    Break {| issues := issues st; page := page st; requests := log |}
  | Error e => Throw e log
  end.
Proof.
  unfold loop_body, classify, accepted.
  destruct (negb (status_code (server (page st)) =? 200)); [done|].
  destruct (json (server (page st))) as [|i l] eqn:Hj; [done|].
  rewrite scan_page_acc.
  destruct (scan_page (i :: l) []) as [e|r] eqn:Hs; [done|].
  apply scan_page_filter in Hs as [-> _].
  by destruct (older_than_since (i :: l)) as [e|[]].
Qed.

Lemma advance_S st j :
  classify (page st) = More →
  advance {| issues := issues st ++ accepted (page st);
             page := S (page st);
             requests := requests st ++ [page st] |} j
  = advance st (S j).
Proof.
  intros _. unfold advance; simpl. f_equal.
  - by rewrite <-app_assoc.
  - lia.
  - by rewrite <-app_assoc.
Qed.

(** The whole run: [j] pages go on to the next one, and page
    [page st + j] is where the loop is left, if the fuel reaches it. *)
Lemma while_true_spec fuel st :
  ∃ j : nat,
    (j ≤ fuel)%nat ∧
    (∀ q, (page st ≤ q < page st + j)%nat → classify q = More) ∧
    match while_true fuel st with
    | Running st' => j = fuel ∧ st' = advance st j
    | Returned st' =>
      (j < fuel)%nat ∧
      classify (page st + j) ∈ [Fail; Empty; Old] ∧
      st' = stop_at (advance st j) (classify (page st + j))
    | Raised e log =>
      (j < fuel)%nat ∧
      classify (page st + j) = Error e ∧
      log = requests st ++ seq (page st) (S j)
    end.
Proof.
  revert st. induction fuel as [|fuel IH]; intros st.
  { exists 0%nat. split; [done|]. split; [lia|]. simpl. split; [done|].
    unfold advance. destruct st; simpl. by rewrite !app_nil_r, Nat.add_0_r. }
  simpl. rewrite loop_body_classify. cbv zeta.
  destruct (classify (page st)) eqn:Hc.
  - destruct (IH {| issues := issues st ++ accepted (page st);
                    page := S (page st);
                    requests := requests st ++ [page st] |})
      as (j & Hj & Hmore & Hout).
    exists (S j). split; [lia|]. split.
    { intros q Hq. destruct (decide (q = page st)) as [->|]; [done|].
      apply Hmore. simpl. lia. }
    simpl in Hout.
    replace (page st + S j)%nat with (S (page st) + j)%nat by lia.
    rewrite <-(advance_S st j Hc).
    destruct (while_true fuel _) as [st'|e log|st']; simpl in *.
    + destruct Hout as (? & ? & ->). split; [lia|done].
    + destruct Hout as (? & ? & ->). split; [lia|]. split; [done|].
      by rewrite <-app_assoc.
    + destruct Hout as [-> ->]. done.
  - exists 0%nat. split; [lia|]. split; [lia|]. rewrite Nat.add_0_r, Hc.
    split; [lia|]. split; [set_solver|].
    unfold stop_at, advance; simpl. by rewrite !app_nil_r, Nat.add_0_r.
  - exists 0%nat. split; [lia|]. split; [lia|]. rewrite Nat.add_0_r, Hc.
    split; [lia|]. split; [set_solver|].
    unfold stop_at, advance; simpl. by rewrite !app_nil_r, Nat.add_0_r.
  - exists 0%nat. split; [lia|]. split; [lia|]. rewrite Nat.add_0_r, Hc.
    split; [lia|]. split; [set_solver|].
    unfold stop_at, advance; simpl. by rewrite !app_nil_r, Nat.add_0_r.
  - exists 0%nat. split; [lia|]. split; [lia|]. rewrite Nat.add_0_r, Hc.
    split; [lia|]. split; [done|]. done.
Qed.

(** More fuel does not change a run that has ended. *)
Lemma while_true_returned_mono fuel k st st' :
  while_true fuel st = Returned st' → while_true (fuel + k) st = Returned st'.
Proof.
  revert st. induction fuel as [|fuel IH]; intros st; simpl; [done|].
  destruct (loop_body st); [apply IH|done..].
Qed.

Lemma classify_fail p : status_code (server p) ≠ 200 → classify p = Fail.
Proof.
  intros H. unfold classify.
  by destruct (Z.eqb_spec (status_code (server p)) 200).
Qed.

Lemma classify_empty p :
  status_code (server p) = 200 → json (server p) = [] → classify p = Empty.
Proof. intros H1 H2. unfold classify. by rewrite H1, H2. Qed.

Lemma not_a_stop v :
  v ∈ [Fail; Empty; Old] → match v with More | Error _ => False | _ => True end.
Proof. rewrite !elem_of_cons, elem_of_nil. by intros [->|[->|[->|[]]]]. Qed.

(** A page stops the loop by [break] only if the request failed, the page
    is empty, or its last record closes before [since_date]. *)
Lemma classify_stop p :
  classify p ∈ [Fail; Empty; Old] →
  status_code (server p) ≠ 200 ∨ json (server p) = [] ∨
  older_than_since (json (server p)) = inr true.
Proof.
  unfold classify.
  destruct (Z.eqb_spec (status_code (server p)) 200) as [_|?];
    cbn [negb]; [|by left].
  destruct (json (server p)) as [|i l]; [by right; left|].
  destruct (scan_page (i :: l) []); [intros []%not_a_stop|].
  destruct (older_than_since (i :: l)) as [|[]];
    [intros []%not_a_stop| |intros []%not_a_stop].
  by right; right.
Qed.

Lemma scan_page_inl l e :
  scan_page l [] = inl e →
  ∃ i s, i ∈ l ∧ Issue.pull_request i = false ∧
         truthy (Issue.closed_at i) = Some s ∧
         strptime s wire_format = None ∧ e = ValueError s.
Proof.
  induction l as [|i l IH]; [done|].
  rewrite scan_page_cons. destruct (malformed i) eqn:Hm.
  - intros [= <-]. unfold malformed in Hm.
    destruct (Issue.pull_request i) eqn:Hpr; [done|].
    destruct (truthy (Issue.closed_at i)) as [s|] eqn:Hs; [|done].
    destruct (strptime s wire_format) eqn:Hp; [done|].
    exists i, s. split; [apply elem_of_cons; by left|done].
  - rewrite scan_page_acc. destruct (scan_page l []) as [e'|] eqn:He; [|done].
    intros [= <-]. destruct (IH eq_refl) as (j & s & ? & ?).
    exists j, s. split; [apply elem_of_cons; by right|done].
Qed.

Lemma older_than_since_inl l e :
  older_than_since l = inl e →
  ∃ i s, last l = Some i ∧ truthy (Issue.closed_at i) = Some s ∧
         strptime s wire_format = None ∧ e = ValueError s.
Proof.
  unfold older_than_since. destruct (last l) as [i|]; [|done].
  destruct (truthy (Issue.closed_at i)) as [s|] eqn:Hs; [|done].
  destruct (strptime s wire_format) eqn:Hp; [done|].
  intros [= <-]. by exists i, s.
Qed.

(** The loop raises at a page only because a closing timestamp on that
    page did not parse. *)
Lemma classify_error p e :
  classify p = Error e →
  ∃ i s, i ∈ json (server p) ∧ truthy (Issue.closed_at i) = Some s ∧
         strptime s wire_format = None ∧ e = ValueError s.
Proof.
  unfold classify.
  destruct (negb (status_code (server p) =? 200)); [done|].
  destruct (json (server p)) as [|i l]; [done|].
  destruct (scan_page (i :: l) []) as [e'|] eqn:Hs.
  - intros [= <-]. apply scan_page_inl in Hs as (j & s & ? & ? & ? & ? & ?).
    by exists j, s.
  - destruct (older_than_since (i :: l)) as [e'|[]] eqn:Ho; [|done..].
    intros [= <-]. apply older_than_since_inl in Ho as (j & s & Hl & ? & ? & ?).
    exists j, s. split; [|done].
    apply last_Some in Hl as [l' ->]. apply elem_of_app. right.
    by apply list_elem_of_singleton.
Qed.

Lemma accepts_spec i :
  accepts i = true ↔
  Issue.pull_request i = false ∧
  ∃ s d, Issue.closed_at i = Some s ∧ s ≠ "" ∧
         strptime s wire_format = Some d ∧
         datetime_ge d since_date = true ∧
         ∀ u, until_date = Some u → datetime_le d u = true.
Proof.
  unfold accepts. split.
  - intros [Hpr H]%andb_true_iff. split; [by destruct (Issue.pull_request i)|].
    destruct (Issue.closed_at i) as [[|c s]|]; simpl in H; [done| |done].
    destruct (strptime (String c s) wire_format) as [d|] eqn:Hp; [|done].
    apply andb_true_iff in H as [? Hu]. exists (String c s), d.
    do 4 (split; [done|]). intros u Hu'. by rewrite Hu' in Hu.
  - intros (Hpr & s & d & Hc & Hne & Hp & Hge & Hu). rewrite Hpr, Hc.
    destruct s; [done|]. simpl. rewrite Hp, Hge. simpl.
    destruct until_date as [u|]; [by apply Hu|done].
Qed.

Lemma Forall_flat_map {A B} (P : B → Prop) (f : A → list B) l :
  (∀ x, Forall P (f x)) → Forall P (flat_map f l).
Proof. intros H. induction l; simpl; [done|]. apply Forall_app; auto. Qed.

Lemma accepted_accepts p : Forall (λ i, accepts i = true) (accepted p).
Proof.
  unfold accepted. apply Forall_forall. intros i Hi.
  apply list_elem_of_In, filter_In in Hi. tauto.
Qed.
End FetchFacts.

(** ** Claims about [get_closed_issues] *)

(** C2, as the claim has it, fails: a record without pull-request marker
    whose closing timestamp is the string [yesterday] is not dropped. The
    [strptime] call on it raises [ValueError], the exception leaves
    [get_closed_issues], and the two well-formed records of the same page
    are lost with it. *)
Lemma malformed_timestamp_raises :
  get_closed_issues PyRef.strptime Example.server_garbled Example.since None 5
  = Raised (ValueError "yesterday") [1%nat].
Proof. vm_compute. reflexivity. Qed.

(** C2 (amended): a record whose closing timestamp is missing (absent,
    null or the empty string) is dropped: the scan of its page gives what
    it gives without the record, and as last record of a page it does not
    make the early-termination test raise. A record without pull-request
    marker whose closing timestamp is a non-empty string that [strptime]
    rejects is not dropped: the scan raises [ValueError] when it reaches
    it, and so does the whole fetch, whatever was accumulated. *)
Theorem closing_timestamp_policy strptime server since until l1 i l2 :
  (truthy (Issue.closed_at i) = None →
   (∀ acc, scan_page strptime since until (l1 ++ i :: l2) acc
           = scan_page strptime since until (l1 ++ l2) acc) ∧
   older_than_since strptime since (l1 ++ [i]) = inr false) ∧
  (∀ s, Issue.pull_request i = false →
        truthy (Issue.closed_at i) = Some s →
        strptime s wire_format = None →
        Forall (λ j, malformed strptime j = false) l1 →
        (∀ acc, scan_page strptime since until (l1 ++ i :: l2) acc
                = inl (ValueError s)) ∧
        (∀ fuel st,
           status_code (server (page st)) = 200 →
           json (server (page st)) = l1 ++ i :: l2 →
           while_true strptime server since until (S fuel) st
           = Raised (ValueError s) (requests st ++ [page st]))).
Proof.
  split.
  - intros Hi. split.
    + induction l1 as [|j l1 IH]; intros acc.
      * rewrite !app_nil_l, scan_page_cons.
        unfold malformed, accepts. rewrite Hi.
        by rewrite !andb_false_r.
      * rewrite <-!app_comm_cons, !scan_page_cons.
        destruct (malformed strptime j); [done|]. apply IH.
    + unfold older_than_since. by rewrite last_snoc, Hi.
  - intros s Hpr Hs Hp Hl1.
    assert (∀ acc, scan_page strptime since until (l1 ++ i :: l2) acc
                   = inl (ValueError s)) as Hscan.
    { intros acc. by apply scan_page_raise. }
    split; [done|]. intros fuel st H200 Hjson. simpl.
    unfold loop_body. rewrite H200, Hjson, Hscan. simpl.
    by destruct l1.
Qed.

Lemma closing_timestamp_policy_witness :
  scan_page PyRef.strptime Example.since None
    ([Example.bug_issue] ++ Example.pending_issue :: [Example.ui_issue]) []
  = inr [Example.bug_issue; Example.ui_issue] ∧
  while_true PyRef.strptime Example.server_garbled Example.since None 1
    (initial)
  = Raised (ValueError "yesterday") [1%nat].
Proof.
  split.
  - rewrite (proj1 (proj1 (closing_timestamp_policy PyRef.strptime
               Example.server Example.since None
               [Example.bug_issue] Example.pending_issue [Example.ui_issue])
             eq_refl)).
    vm_compute. reflexivity.
  - apply (proj2 (proj2 (closing_timestamp_policy PyRef.strptime
               Example.server_garbled Example.since None
               [Example.bug_issue] Example.garbled_issue [Example.ui_issue])
             "yesterday" eq_refl eq_refl eq_refl
             ltac:(repeat constructor)) 0%nat initial eq_refl eq_refl).
Defined.

(** C3, as the claim has it, fails in its first part: the client never
    looks at the [state] member of a record. A page holding a record with
    state [open] and a closing timestamp inside the window is returned as
    it is. *)
Lemma fetch_keeps_open_state :
  ∃ st,
    get_closed_issues PyRef.strptime Example.server_open Example.since
      Example.until 5 = Returned st ∧
    ¬ Forall (λ i, Issue.state i = "closed") (issues st).
Proof.
  eexists. split; [vm_compute; reflexivity|].
  intros H. by apply Forall_cons_1 in H as [[=] _].
Qed.

(** C3 (amended): every issue in the list [get_closed_issues] returns
    carries no pull-request marker and has a closing timestamp that is
    present, parses, is not before [since] and, when [until] is given, not
    after [until]. Nothing is promised about its [state] member. *)
Theorem fetch_filter_correct strptime server since until fuel st :
  get_closed_issues strptime server since until fuel = Returned st →
  Forall (λ i,
    Issue.pull_request i = false ∧
    ∃ s d, Issue.closed_at i = Some s ∧ s ≠ "" ∧
           strptime s wire_format = Some d ∧
           datetime_ge d since = true ∧
           ∀ u, until = Some u → datetime_le d u = true) (issues st).
Proof.
  unfold get_closed_issues. intros Hrun.
  destruct (while_true_spec strptime server since until fuel initial)
    as (j & _ & _ & Hout).
  rewrite Hrun in Hout. destruct Hout as (_ & _ & ->).
  eapply Forall_impl; [|intros i; apply accepts_spec].
  assert (Forall (λ i, accepts strptime since until i = true)
            (issues (advance strptime server since until initial j))) as Hadv.
  { simpl. apply Forall_flat_map. apply accepted_accepts. }
  destruct (classify _ _ _ _ _); simpl in *; try done.
  apply Forall_app. split; [done|apply accepted_accepts].
Qed.

Lemma fetch_filter_correct_witness :
  ∃ st,
    get_closed_issues PyRef.strptime Example.server Example.since
      Example.until 5 = Returned st ∧
    length (issues st) = 2%nat ∧
    Forall (λ i,
      Issue.pull_request i = false ∧
      ∃ s d, Issue.closed_at i = Some s ∧ s ≠ "" ∧
             PyRef.strptime s wire_format = Some d ∧
             datetime_ge d Example.since = true ∧
             ∀ u, Example.until = Some u → datetime_le d u = true) (issues st).
Proof.
  eexists. split; [vm_compute; reflexivity|]. split; [reflexivity|].
  apply (fetch_filter_correct PyRef.strptime Example.server Example.since
           Example.until 5).
  vm_compute. reflexivity.
Defined.

Lemma requests_stop_at strptime server since until j v :
  requests (stop_at strptime server since until
              (advance strptime server since until initial j) v)
  = seq 1 (S j).
Proof. rewrite seq_S. by destruct v. Qed.

Lemma issues_stop_old strptime server since until j :
  issues (stop_at strptime server since until
            (advance strptime server since until initial j) Old)
  = flat_map (accepted strptime server since until) (seq 1 (S j)).
Proof. rewrite seq_S, flat_map_app. simpl. by rewrite app_nil_r. Qed.

(** C4: let page [p] be the first page whose last record has a closing
    timestamp strictly earlier than [since], all pages up to [p] being
    successful and non-empty. Then no page after [p] is ever requested:
    the pages requested are [1 .. k] for some [k <= p], whatever the fuel.
    With fuel for [p] iterations the loop has ended; when it has returned,
    it has requested exactly the pages [1 .. p] and returns what the
    filter accepted on them. The only other way it ends is by the
    [ValueError] of a closing timestamp on page [k] that does not
    parse. *)
Theorem fetch_stops_at_old_page strptime server since until p l s d :
  (1 ≤ p)%nat →
  (∀ q, (1 ≤ q ≤ p)%nat →
        status_code (server q) = 200 ∧ json (server q) ≠ []) →
  last (json (server p)) = Some l →
  truthy (Issue.closed_at l) = Some s →
  strptime s wire_format = Some d →
  datetime_lt d since = true →
  (∀ q l' s' d', (1 ≤ q < p)%nat →
        last (json (server q)) = Some l' →
        truthy (Issue.closed_at l') = Some s' →
        strptime s' wire_format = Some d' →
        datetime_lt d' since = false) →
  ∀ fuel,
    ∃ k, (k ≤ p)%nat ∧
      requested (get_closed_issues strptime server since until fuel) = seq 1 k ∧
      ((p ≤ fuel)%nat →
       match get_closed_issues strptime server since until fuel with
       | Returned st =>
         k = p ∧
         issues st = flat_map (accepted strptime server since until) (seq 1 p)
       | Raised e _ =>
         ∃ i s', i ∈ json (server k) ∧
                 truthy (Issue.closed_at i) = Some s' ∧
                 strptime s' wire_format = None ∧ e = ValueError s'
       | Running _ => False
       end).
Proof.
  intros Hp Hok Hlast Hs Hd Hlt Hfirst fuel.
  assert (classify strptime server since until p ≠ More) as HpMore.
  { unfold classify. destruct (Hok p ltac:(lia)) as [-> Hne].
    rewrite Z.eqb_refl. cbn [negb].
    destruct (json (server p)) as [|i0 l0] eqn:Hj; [done|].
    destruct (scan_page _ _ _ _ _); [done|].
    unfold older_than_since. by rewrite Hlast, Hs, Hd, Hlt. }
  assert (∀ q, (1 ≤ q < p)%nat →
            classify strptime server since until q ∉ [Fail; Empty; Old])
    as Hbefore.
  { intros q Hq Hstop. apply classify_stop in Hstop.
    destruct (Hok q ltac:(lia)) as [H200 Hne].
    destruct Hstop as [?|[?|Hold]]; [done..|].
    unfold older_than_since in Hold.
    destruct (last (json (server q))) as [l'|] eqn:El; [|done].
    destruct (truthy (Issue.closed_at l')) as [s'|] eqn:Es; [|done].
    destruct (strptime s' wire_format) as [d'|] eqn:Ed; [|done].
    rewrite (Hfirst q l' s' d') in Hold; done. }
  unfold get_closed_issues.
  destruct (while_true_spec strptime server since until fuel initial)
    as (j & Hj & Hmore & Hout). simpl in Hmore.
  assert (j < p)%nat as Hjp.
  { destruct (decide (j < p)%nat); [done|]. destruct HpMore.
    apply Hmore. lia. }
  destruct (while_true _ _ _ _ _ _) as [st|e log|st]; simpl in *.
  - destruct Hout as (_ & Hstop & ->).
    assert (S j = p) as <-.
    { destruct (decide (S j = p)); [done|].
      destruct (Hbefore (S j) ltac:(lia) Hstop). }
    exists (S j). split; [done|]. split; [apply requests_stop_at|].
    intros _. split; [done|].
    apply not_a_stop in Hstop.
    pose proof (issues_stop_old strptime server since until j) as Hi.
    unfold classify in HpMore, Hstop |- *.
    destruct (Hok (S j) ltac:(lia)) as [H200 Hne].
    rewrite H200, Z.eqb_refl in *. cbn [negb] in *.
    destruct (json (server (S j))) as [|i0 l0] eqn:Ej; [done|].
    destruct (scan_page _ _ _ _ _); [done|].
    unfold older_than_since in *. rewrite Hlast, Hs, Hd, Hlt in *. done.
  - destruct Hout as (_ & Herr & ->). exists (S j).
    split; [lia|]. split; [done|]. intros _.
    by apply (classify_error strptime server since until).
  - destruct Hout as [-> ->]. exists fuel. split; [lia|]. split; [done|]. lia.
Qed.

Lemma fetch_stops_at_old_page_witness :
  requested (get_closed_issues PyRef.strptime Example.server Example.since
               Example.until 9) = [1%nat; 2%nat].
Proof.
  destruct (fetch_stops_at_old_page PyRef.strptime Example.server Example.since
              Example.until 2 Example.old_issue "2023-12-01T00:00:00Z"
              (Example.at_ 2023 12 1 0 0 0)) with (fuel := 9%nat)
    as (k & _ & Hreq & _).
  - lia.
  - intros q Hq. assert (q = 1 ∨ q = 2)%nat as [-> | ->] by lia; by split.
  - reflexivity.
  - reflexivity.
  - reflexivity.
  - reflexivity.
  - intros q l' s' d' Hq. assert (q = 1%nat) as -> by lia.
    intros [= <-] [= <-] [= <-]. reflexivity.
  - vm_compute. reflexivity.
Defined.

(** C5: in a run in which the request for page [p] is made and answered
    with a status other than 200, the loop ends there: the pages requested
    are [1 .. p] and no other, nothing is raised, and the list returned is
    exactly what the filter accepted on pages [1 .. p-1], in page order.
    More fuel gives the same result. *)
Theorem fetch_partial_on_failure strptime server since until fuel p :
  p ∈ requested (get_closed_issues strptime server since until fuel) →
  status_code (server p) ≠ 200 →
  ∃ st,
    get_closed_issues strptime server since until fuel = Returned st ∧
    requests st = seq 1 p ∧
    issues st
    = flat_map (accepted strptime server since until) (seq 1 (p - 1)) ∧
    ∀ k, get_closed_issues strptime server since until (fuel + k) = Returned st.
Proof.
  unfold get_closed_issues. intros Hin Hstatus.
  apply (classify_fail strptime server since until) in Hstatus.
  destruct (while_true_spec strptime server since until fuel initial)
    as (j & Hj & Hmore & Hout). simpl in Hmore.
  assert (¬ (1 ≤ p < 1 + j)%nat) as Hnot.
  { intros Hq. apply Hmore in Hq. congruence. }
  destruct (while_true _ _ _ _ _ _) as [st|e log|st] eqn:Hrun; simpl in *.
  - destruct Hout as (_ & Hstop & ->).
    rewrite requests_stop_at in Hin. apply elem_of_seq in Hin.
    assert (p = S j) as -> by lia.
    eexists. split; [done|]. split; [apply requests_stop_at|].
    split; [|intros k; by apply while_true_returned_mono].
    rewrite Hstatus. simpl. by rewrite Nat.sub_0_r.
  - destruct Hout as (_ & Herr & ->). simpl in Hin.
    change (1%nat :: seq 2 j) with (seq 1 (S j)) in Hin.
    apply elem_of_seq in Hin. assert (p = S j) as -> by lia. congruence.
  - destruct Hout as [-> ->]. simpl in Hin. apply elem_of_seq in Hin. lia.
Qed.

Lemma fetch_partial_on_failure_witness :
  ∃ st,
    get_closed_issues PyRef.strptime Example.server_failing Example.since
      None 4 = Returned st ∧
    requests st = [1%nat; 2%nat] ∧
    issues st = [Example.bug_issue; Example.ui_issue].
Proof.
  destruct (fetch_partial_on_failure PyRef.strptime Example.server_failing
              Example.since None 4 2) as (st & Hrun & Hreq & Hiss & _).
  - vm_compute. apply elem_of_cons. right. apply elem_of_cons. by left.
  - vm_compute. discriminate.
  - exists st. split; [done|]. split; [done|]. rewrite Hiss. vm_compute.
    reflexivity.
Defined.

(** An iteration requests the page it is at, before anything else. *)
Lemma requested_first strptime server since until fuel st :
  ∃ rest,
    requested (while_true strptime server since until (S fuel) st)
    = requests st ++ page st :: rest.
Proof.
  destruct (while_true_spec strptime server since until (S fuel) st)
    as (j & Hj & _ & Hout).
  destruct (while_true _ _ _ _ _ _) as [st'|e log|st'].
  - destruct Hout as (_ & _ & ->).
    exists (seq (S (page st)) j).
    assert (requests st ++ page st :: seq (S (page st)) j
            = (requests st ++ seq (page st) j) ++ [(page st + j)%nat]) as ->.
    { change (page st :: seq (S (page st)) j) with (seq (page st) (S j)).
      by rewrite seq_S, app_assoc. }
    by destruct (classify _ _ _ _ _).
  - destruct Hout as (_ & _ & ->). by exists (seq (S (page st)) j).
  - destruct Hout as [-> ->]. by exists (seq (S (page st)) fuel).
Qed.

Lemma classify_undated_last strptime server since until p l :
  status_code (server p) = 200 →
  last (json (server p)) = Some l →
  truthy (Issue.closed_at l) = None →
  classify strptime server since until p =
  match scan_page strptime since until (json (server p)) [] with
  | inl e => Error e
  | inr _ => More
  end.
Proof.
  intros H200 Hlast Hnone. unfold classify.
  rewrite H200, Z.eqb_refl. cbn [negb].
  destruct (json (server p)) as [|i0 l0] eqn:Hj; [done|].
  destruct (scan_page _ _ _ _ _); [done|].
  unfold older_than_since. by rewrite Hlast, Hnone.
Qed.

(** C9: at a successful page whose last record has no closing timestamp
    the early-termination test is not made. The iteration never leaves
    the loop by [break]; unless a timestamp on the page fails to parse it
    goes on, whatever the closing dates of the other records, and the next
    iteration requests the next page. In a run where every page ends on
    such a record, the loop returns only at a page that is empty or was
    answered with a status other than 200. *)
Theorem fetch_continues_past_undated_last strptime server since until st l :
  status_code (server (page st)) = 200 →
  last (json (server (page st))) = Some l →
  truthy (Issue.closed_at l) = None →
  (∀ st', loop_body strptime server since until st ≠ Break st') ∧
  (Forall (λ i, malformed strptime i = false) (json (server (page st))) →
   loop_body strptime server since until st
   = Continue {| issues := issues st ++ accepted strptime server since until (page st);
                 page := S (page st);
                 requests := requests st ++ [page st] |} ∧
   ∀ fuel,
     S (page st) ∈
     requested (while_true strptime server since until (S (S fuel)) st)) ∧
  (∀ fuel st',
     (∀ q l', last (json (server q)) = Some l' →
              truthy (Issue.closed_at l') = None) →
     while_true strptime server since until fuel st = Returned st' →
     ∃ p, last (requests st') = Some p ∧ (page st < p)%nat ∧
          (status_code (server p) ≠ 200 ∨ json (server p) = [])).
Proof.
  intros H200 Hlast Hnone.
  pose proof (classify_undated_last strptime server since until _ _
                H200 Hlast Hnone) as Hc.
  split; [|split].
  - intros st'. rewrite loop_body_classify, Hc. cbv zeta.
    by destruct (scan_page _ _ _ _ _).
  - intros Hwf. apply (scan_page_total strptime since until) in Hwf.
    rewrite Hwf in Hc.
    assert (loop_body strptime server since until st
            = Continue {| issues := issues st ++ accepted strptime server since until (page st);
                          page := S (page st);
                          requests := requests st ++ [page st] |}) as Hstep.
    { by rewrite loop_body_classify, Hc. }
    split; [done|]. intros fuel.
    change (while_true strptime server since until (S (S fuel)) st)
      with (match loop_body strptime server since until st with
            | Continue st' => while_true strptime server since until (S fuel) st'
            | Break st' => Returned st'
            | Throw e log => Raised e log
            end).
    rewrite Hstep.
    destruct (requested_first strptime server since until fuel
                {| issues := issues st ++ accepted strptime server since until (page st);
                   page := S (page st);
                   requests := requests st ++ [page st] |}) as [rest ->].
    apply elem_of_app. right. apply elem_of_cons. by left.
  - intros fuel st' Hall Hrun.
    destruct (while_true_spec strptime server since until fuel st)
      as (j & _ & Hmore & Hout).
    rewrite Hrun in Hout. destruct Hout as (_ & Hstop & ->).
    exists (page st + j)%nat.
    assert (classify strptime server since until (page st) ≠ Old ∧
            classify strptime server since until (page st) ≠ Fail ∧
            classify strptime server since until (page st) ≠ Empty) as Hhere.
    { rewrite Hc. by destruct (scan_page _ _ _ _ _). }
    split; [|split].
    + destruct (classify _ _ _ _ (page st + j)); simpl; apply last_snoc.
    + destruct j as [|j]; [|lia]. rewrite Nat.add_0_r in Hstop.
      apply not_a_stop in Hstop.
      destruct Hhere as (? & ? & ?).
      destruct (classify _ _ _ _ (page st)); first [done|congruence].
    + apply classify_stop in Hstop as [?|[?|Hold]]; [by left|by right|].
      unfold older_than_since in Hold.
      destruct (last (json (server (page st + j)%nat))) as [l'|] eqn:El; [|done].
      by rewrite (Hall _ _ El) in Hold.
Qed.

Lemma fetch_continues_past_undated_last_witness :
  loop_body PyRef.strptime Example.server_pending Example.since None initial
  = Continue {| issues := []; page := 2; requests := [1%nat] |} ∧
  2%nat ∈ requested (while_true PyRef.strptime Example.server_pending
                       Example.since None 2 initial).
Proof.
  destruct (fetch_continues_past_undated_last PyRef.strptime
              Example.server_pending Example.since None initial
              Example.pending_issue eq_refl eq_refl eq_refl)
    as (_ & Hgo & _).
  destruct Hgo as [Hstep Hnext].
  - repeat constructor.
  - split; [exact Hstep|exact (Hnext 0%nat)].
Defined.

(** ** Counters *)

Section Counters.
Context `{Countable K}.
Implicit Types (d : gmap K Z) (k : K).

Lemma get_empty k : get (∅ : gmap K Z) k = 0.
Proof. unfold get. by rewrite lookup_empty. Qed.

Lemma get_incr d k k' :
  get (incr k d) k' = get d k' + (if decide (k = k') then 1 else 0).
Proof.
  unfold get, incr. destruct (decide (k = k')) as [->|Hne].
  - by rewrite lookup_insert_eq.
  - rewrite lookup_insert_ne by done. lia.
Qed.

Lemma sum_values_empty : sum_values (∅ : gmap K Z) = 0.
Proof. apply map_fold_empty. Qed.

Lemma sum_values_insert d k v :
  d !! k = None → sum_values (<[k:=v]> d) = v + sum_values d.
Proof.
  intros Hk. unfold sum_values.
  rewrite map_fold_insert_L; [done| |done]. intros. lia.
Qed.

Lemma sum_values_delete d k v :
  d !! k = Some v → sum_values d = v + sum_values (delete k d).
Proof.
  intros Hk. unfold sum_values.
  rewrite (map_fold_delete_L _ _ k v d); [done| |done]. intros. lia.
Qed.

(** One increment adds one to the sum of the values. *)
Lemma sum_values_incr d k : sum_values (incr k d) = sum_values d + 1.
Proof.
  unfold incr. destruct (d !! k) as [v|] eqn:Hk; simpl.
  - rewrite <-insert_delete_eq, sum_values_insert by apply lookup_delete_eq.
    rewrite (sum_values_delete d k v Hk). lia.
  - rewrite sum_values_insert by done. lia.
Qed.

(** An increment leaves no key with a missing or changed value but its
    own. *)
Lemma incr_lookup_ne d k k' : k ≠ k' → incr k d !! k' = d !! k'.
Proof. intros. unfold incr. by rewrite lookup_insert_ne. Qed.

(** [for x in l: d[x] += 1]. *)
Lemma get_foldl_incr (l : list K) d k :
  get (foldl (λ d x, incr x d) d l) k
  = get d k + countZ (λ x, bool_decide (x = k)) l.
Proof.
  revert d. induction l as [|x l IH]; intros d; simpl.
  { unfold countZ. simpl. lia. }
  rewrite IH, get_incr. unfold countZ. simpl.
  destruct (decide (x = k)) as [->|Hne].
  - rewrite bool_decide_eq_true_2 by done. simpl. lia.
  - rewrite bool_decide_eq_false_2 by done. lia.
Qed.

Lemma sum_values_foldl_incr (l : list K) d :
  sum_values (foldl (λ d x, incr x d) d l) = sum_values d + Z.of_nat (length l).
Proof.
  revert d. induction l as [|x l IH]; intros d; simpl; [lia|].
  rewrite IH, sum_values_incr. lia.
Qed.
End Counters.

(** ** Day differences *)

(** [(a - b).days] is the floor of the elapsed time in days. *)
Lemma days_datetime_sub a b :
  days (datetime_sub a b) = (timestamp_us a - timestamp_us b) / (86400 * 1000000).
Proof.
  unfold datetime_sub, mk_timedelta, timestamp_us. cbn [days].
  Z.to_euclidean_division_equations. lia.
Qed.

(** For a closing not before the creation, the floor is the truncation. *)
Lemma floor_is_truncation a b :
  timestamp_us b ≤ timestamp_us a →
  days (datetime_sub a b) = Z.quot (timestamp_us a - timestamp_us b) (86400 * 1000000).
Proof.
  intros Hle. rewrite days_datetime_sub, Z.quot_div_nonneg; [done|lia|lia].
Qed.

(** Less than a day counts as no day. *)
Lemma less_than_a_day a b :
  0 ≤ timestamp_us a - timestamp_us b < 86400 * 1000000 →
  days (datetime_sub a b) = 0.
Proof. intros Hlt. rewrite days_datetime_sub. by apply Z.div_small. Qed.

(** ** The order of datetimes and the time line *)

Lemma valid_datetime_spec d :
  PyRef.valid_datetime d = true →
  1 ≤ year d ∧ 1 ≤ month d ≤ 12 ∧
  1 ≤ day d ≤ PyRef._days_in_month (year d) (month d) ∧
  0 ≤ hour d < 24 ∧ 0 ≤ minute d < 60 ∧ 0 ≤ second d < 60 ∧
  0 ≤ microsecond d < 1000000.
Proof.
  unfold PyRef.valid_datetime. rewrite !andb_true_iff.
  rewrite !Z.leb_le, !Z.ltb_lt. lia.
Qed.

Lemma month_cases m :
  1 ≤ m ≤ 12 →
  m = 1 ∨ m = 2 ∨ m = 3 ∨ m = 4 ∨ m = 5 ∨ m = 6 ∨
  m = 7 ∨ m = 8 ∨ m = 9 ∨ m = 10 ∨ m = 11 ∨ m = 12.
Proof. lia. Qed.

(** A month ends before the next one starts, and the year has 365 or 366
    days. *)
Lemma days_before_month_bounds y m :
  1 ≤ m ≤ 12 →
  0 ≤ _days_before_month y m ∧
  _days_before_month y m + PyRef._days_in_month y m
  ≤ 365 + (if _is_leap y then 1 else 0) ∧
  (m < 12 →
   _days_before_month y m + PyRef._days_in_month y m
   = _days_before_month y (m + 1)).
Proof.
  intros Hm. unfold _days_before_month, PyRef._days_in_month.
  destruct (_is_leap y);
    destruct (month_cases m Hm) as [->|[->|[->|[->|[->|[->|[->|[->|[->|[->|[->| ->]]]]]]]]]]];
    cbv -[Z.le Z.lt]; lia.
Qed.

Lemma days_in_month_pos y m : 0 < PyRef._days_in_month y m.
Proof.
  unfold PyRef._days_in_month. destruct (_is_leap y); repeat case_match; lia.
Qed.

Lemma days_before_month_mono y m m' :
  1 ≤ m → m < m' → m' ≤ 12 →
  _days_before_month y m + PyRef._days_in_month y m ≤ _days_before_month y m'.
Proof.
  intros H1 Hlt H12.
  assert (∃ n : nat, m' = m + 1 + Z.of_nat n) as [n ->].
  { exists (Z.to_nat (m' - m - 1)). lia. }
  induction n as [|n IH].
  - destruct (days_before_month_bounds y m) as (_ & _ & Hn); [lia|].
    rewrite Hn by lia. by rewrite Z.add_0_r.
  - etrans; [apply IH; lia|].
    destruct (days_before_month_bounds y (m + 1 + Z.of_nat n)) as (_ & _ & Hn);
      [lia|].
    replace (m + 1 + Z.of_nat (S n)) with (m + 1 + Z.of_nat n + 1) by lia.
    rewrite <-Hn by lia.
    pose proof (days_in_month_pos y (m + 1 + Z.of_nat n)). lia.
Qed.

Lemma days_before_year_succ y :
  _days_before_year (y + 1)
  = _days_before_year y + 365 + (if _is_leap y then 1 else 0).
Proof.
  unfold _days_before_year, _is_leap. cbv zeta.
  replace (y + 1 - 1) with y by lia.
  destruct (Z.eqb_spec (y mod 4) 0), (Z.eqb_spec (y mod 100) 0),
    (Z.eqb_spec (y mod 400) 0); cbn [andb orb negb];
    Z.to_euclidean_division_equations; lia.
Qed.

Lemma days_before_year_mono y y' :
  y ≤ y' → _days_before_year y ≤ _days_before_year y'.
Proof.
  intros Hle. unfold _days_before_year. cbv zeta.
  Z.to_euclidean_division_equations. lia.
Qed.

(** Earlier dates have smaller ordinals. *)
Lemma toordinal_lt a b :
  PyRef.valid_datetime a = true → PyRef.valid_datetime b = true →
  year a < year b ∨
  (year a = year b ∧
   (month a < month b ∨ (month a = month b ∧ day a < day b))) →
  toordinal a < toordinal b.
Proof.
  intros (Hya & Hma & Hda & _)%valid_datetime_spec
         (Hyb & Hmb & Hdb & _)%valid_datetime_spec Hlt.
  unfold toordinal, _ymd2ord.
  destruct (days_before_month_bounds (year a) (month a) Hma) as (Ha0 & Ha1 & _).
  destruct (days_before_month_bounds (year b) (month b) Hmb) as (Hb0 & _ & _).
  destruct Hlt as [Hy|[Hy [Hm|[Hm Hd]]]].
  - pose proof (days_before_year_succ (year a)).
    pose proof (days_before_year_mono (year a + 1) (year b) ltac:(lia)). lia.
  - rewrite Hy in *.
    pose proof (days_before_month_mono (year b) (month a) (month b)
                  ltac:(lia) Hm ltac:(lia)). lia.
  - rewrite Hy, Hm. lia.
Qed.

(** On valid datetimes the comparison of Python is the order of the time
    line. *)
Lemma datetime_cmp_spec a b :
  PyRef.valid_datetime a = true → PyRef.valid_datetime b = true →
  match datetime_cmp a b with
  | Lt => timestamp_us a < timestamp_us b
  | Eq => timestamp_us a = timestamp_us b
  | Gt => timestamp_us b < timestamp_us a
  end.
Proof.
  intros Ha Hb.
  pose proof (toordinal_lt a b Ha Hb) as Hab.
  pose proof (toordinal_lt b a Hb Ha) as Hba.
  assert (year a = year b → month a = month b → day a = day b →
          toordinal a = toordinal b) as Heq.
  { unfold toordinal. by intros -> -> ->. }
  apply valid_datetime_spec in Ha as (_ & _ & _ & ? & ? & ? & ?).
  apply valid_datetime_spec in Hb as (_ & _ & _ & ? & ? & ? & ?).
  unfold datetime_cmp, timestamp_us.
  destruct (Z.compare_spec (year a) (year b)); [|lia..].
  destruct (Z.compare_spec (month a) (month b)); [|lia..].
  destruct (Z.compare_spec (day a) (day b)); [|lia..].
  destruct (Z.compare_spec (hour a) (hour b)); [|lia..].
  destruct (Z.compare_spec (minute a) (minute b)); [|lia..].
  destruct (Z.compare_spec (second a) (second b)); [|lia..].
  destruct (Z.compare_spec (microsecond a) (microsecond b)); lia.
Qed.

(** [a <= b] on valid datetimes says that [a] is not later than [b]. *)
Lemma datetime_le_spec a b :
  PyRef.valid_datetime a = true → PyRef.valid_datetime b = true →
  datetime_le a b = true ↔ timestamp_us a ≤ timestamp_us b.
Proof.
  intros Ha Hb. pose proof (datetime_cmp_spec a b Ha Hb) as Hc.
  unfold datetime_le. destruct (datetime_cmp a b); split; (done || lia).
Qed.

(** The reference parser only returns datetimes that the [datetime]
    constructor accepts. *)
Lemma strptime_valid s fmt d :
  PyRef.strptime s fmt = Some d → PyRef.valid_datetime d = true.
Proof.
  unfold PyRef.strptime. destruct (PyRef.strptime_fields _ _ _) as [d'|]; [|done].
  destruct (PyRef.valid_datetime d') eqn:Hv; [|done]. by intros [= <-].
Qed.

(** ** The aggregation loop *)

Section AnalyzeFacts.
Variable strptime : string → string → option datetime.
Variable strftime : datetime → string → string.
Variable pyfloat : Type.
Variable truediv : Z → Z → pyfloat.
Variable round : pyfloat → Z → pyfloat.

Local Abbreviation parse_times := (parse_times strptime).
Local Abbreviation parses := (parses strptime).
Local Abbreviation tally := (tally strftime pyfloat).
Local Abbreviation for_issues := (for_issues strptime strftime pyfloat).
Local Abbreviation analyze_issues :=
  (analyze_issues strptime strftime pyfloat truediv round).
Local Abbreviation elapsed_us := (elapsed_us strptime).
Local Abbreviation whole_days := (whole_days strptime).
Local Abbreviation period_key := (period_key strptime strftime).
Local Abbreviation state := (loop_state pyfloat).

(** Induction along a run of the loop that raised nothing. *)
Lemma for_issues_ind (P : list Issue.t → state → state → Prop) :
  (∀ st, P [] st st) →
  (∀ i l st c d st',
     parse_times i = inr (c, d) →
     for_issues l (tally st i c d) = inr st' →
     P l (tally st i c d) st' →
     P (i :: l) st st') →
  ∀ l st st', for_issues l st = inr st' → P l st st'.
Proof.
  intros Hnil Hcons l. induction l as [|i l IH]; intros st st'; simpl.
  { intros [= <-]. apply Hnil. }
  unfold loop_step. destruct (parse_times i) as [e|[c d]] eqn:Hp; [done|].
  intros Hrun. eapply Hcons; eauto.
Qed.

(** The loop runs to its end exactly when every timestamp parses. *)
Lemma for_issues_total l st :
  Forall (λ i, parses i = true) l → ∃ st', for_issues l st = inr st'.
Proof.
  intros Hl. revert st. induction Hl as [|i l Hi _ IH]; intros st; simpl.
  { by eexists. }
  unfold loop_step, parses in *.
  destruct (parse_times i) as [e|[c d]]; [done|]. apply IH.
Qed.

Lemma for_issues_parses :
  ∀ l st st', for_issues l st = inr st' → Forall (λ i, parses i = true) l.
Proof.
  apply for_issues_ind.
  { constructor. }
  intros i l st c d st' Hp _ IH.
  constructor; [|done]. unfold parses. by rewrite Hp.
Qed.

Lemma for_issues_total_count :
  ∀ l st st', for_issues l st = inr st' →
  total_count (result st') = total_count (result st) ∧
  avg_days_to_close (result st') = avg_days_to_close (result st).
Proof.
  apply for_issues_ind; [done|].
  intros i l st c d st' Hp _ IH. by destruct IH as [-> ->].
Qed.

Lemma for_issues_by_author :
  ∀ l st st', for_issues l st = inr st' →
  (∀ k, get (by_author (result st')) k
        = get (by_author (result st)) k
          + countZ (λ i, bool_decide (Issue.login i = k)) l) ∧
  sum_values (by_author (result st'))
  = sum_values (by_author (result st)) + Z.of_nat (length l).
Proof.
  apply for_issues_ind.
  { intros st. split; [intros k; unfold countZ; simpl|simpl]; lia. }
  intros i l st c d st' Hp _ [IHk IHs]. split.
  - intros k. rewrite IHk. cbn [tally result by_author].
    rewrite get_incr. unfold countZ. simpl.
    destruct (decide (Issue.login i = k)) as [->|Hne].
    + rewrite bool_decide_eq_true_2 by done. simpl. lia.
    + rewrite bool_decide_eq_false_2 by done. lia.
  - rewrite IHs. cbn [tally result by_author].
    rewrite sum_values_incr. simpl. lia.
Qed.

Lemma countZ_cons {A} (f : A → bool) x l :
  countZ f (x :: l) = (if f x then 1 else 0) + countZ f l.
Proof. unfold countZ. simpl. destruct (f x); simpl; lia. Qed.

Lemma countZ_nonneg {A} (f : A → bool) l : 0 ≤ countZ f l.
Proof. unfold countZ. lia. Qed.

Lemma period_key_parsed fmt i c d :
  parse_times i = inr (c, d) → period_key fmt i = Some (strftime d fmt).
Proof. intros Hp. unfold period_key. by rewrite Hp. Qed.

Lemma for_issues_by_month :
  ∀ l st st', for_issues l st = inr st' →
  (∀ k, get (by_month (result st')) k
        = get (by_month (result st)) k
          + countZ (λ i, bool_decide (period_key "%Y-%m" i = Some k)) l) ∧
  sum_values (by_month (result st'))
  = sum_values (by_month (result st)) + Z.of_nat (length l).
Proof.
  apply for_issues_ind.
  { intros st. split; [intros k; unfold countZ; simpl|simpl]; lia. }
  intros i l st c d st' Hp _ [IHk IHs]. split.
  - intros k. rewrite IHk, countZ_cons, (period_key_parsed _ _ _ _ Hp).
    cbn [tally result by_month]. rewrite get_incr.
    destruct (decide (strftime d "%Y-%m" = k)) as [->|Hne].
    + rewrite bool_decide_eq_true_2 by done. lia.
    + rewrite bool_decide_eq_false_2 by congruence. lia.
  - rewrite IHs. cbn [tally result by_month].
    rewrite sum_values_incr. simpl. lia.
Qed.

Lemma for_issues_by_week :
  ∀ l st st', for_issues l st = inr st' →
  (∀ k, get (by_week (result st')) k
        = get (by_week (result st)) k
          + countZ (λ i, bool_decide (period_key "%Y-W%U" i = Some k)) l) ∧
  sum_values (by_week (result st'))
  = sum_values (by_week (result st)) + Z.of_nat (length l).
Proof.
  apply for_issues_ind.
  { intros st. split; [intros k; unfold countZ; simpl|simpl]; lia. }
  intros i l st c d st' Hp _ [IHk IHs]. split.
  - intros k. rewrite IHk, countZ_cons, (period_key_parsed _ _ _ _ Hp).
    cbn [tally result by_week]. rewrite get_incr.
    destruct (decide (strftime d "%Y-W%U" = k)) as [->|Hne].
    + rewrite bool_decide_eq_true_2 by done. lia.
    + rewrite bool_decide_eq_false_2 by congruence. lia.
  - rewrite IHs. cbn [tally result by_week].
    rewrite sum_values_incr. simpl. lia.
Qed.

Lemma for_issues_by_assignee :
  ∀ l st st', for_issues l st = inr st' →
  (∀ k, get (by_assignee (result st')) k
        = get (by_assignee (result st)) k
          + sumZ (λ i, assignee_units i k) l) ∧
  sum_values (by_assignee (result st'))
  = sum_values (by_assignee (result st))
    + sumZ (λ i, Z.max 1 (Z.of_nat (length (Issue.assignees i)))) l.
Proof.
  apply for_issues_ind.
  { intros st. split; [intros k|]; simpl; lia. }
  intros i l st c d st' Hp _ [IHk IHs]. split.
  - intros k. rewrite IHk. cbn [tally result by_assignee sumZ foldr].
    unfold assignee_units.
    destruct (Issue.assignees i) as [|a l'] eqn:Ha.
    + rewrite get_incr. destruct (decide ("unassigned" = k)) as [<-|Hne].
      * rewrite decide_True by done. unfold sumZ. lia.
      * rewrite decide_False by congruence. unfold sumZ. lia.
    + rewrite get_foldl_incr. unfold countZ, sumZ. lia.
  - rewrite IHs. cbn [tally result by_assignee sumZ foldr].
    destruct (Issue.assignees i) as [|a l'] eqn:Ha.
    + rewrite sum_values_incr. unfold sumZ. simpl. lia.
    + rewrite sum_values_foldl_incr. unfold sumZ. cbn [length]. lia.
Qed.

Lemma sorted_Permutation l : sorted l ≡ₚ l.
Proof. apply merge_sort_Permutation. Qed.

Lemma sorted_Sorted l : Sorted String.le (sorted l).
Proof. apply (Sorted_merge_sort String.le). Qed.

(** Two lists with the same labels in any order have one sorted tuple. *)
Lemma sorted_canonical l1 l2 : l1 ≡ₚ l2 → sorted l1 = sorted l2.
Proof.
  intros Hperm. apply (Sorted_unique String.le); [apply sorted_Sorted..|].
  by rewrite !sorted_Permutation.
Qed.

Lemma sorted_nonempty l : l ≠ [] → sorted l ≠ [].
Proof.
  intros Hne Hs. apply Hne. symmetry. apply Permutation_nil_l.
  rewrite <-Hs. apply sorted_Permutation.
Qed.

Lemma for_issues_labels_combinations :
  ∀ l st st', for_issues l st = inr st' →
  (∀ k, get (labels_combinations (result st')) k
        = get (labels_combinations (result st)) k + countZ (combo_of k) l) ∧
  sum_values (labels_combinations (result st'))
  = sum_values (labels_combinations (result st)) + countZ labelled l ∧
  (labels_combinations (result st) !! [] = None →
   labels_combinations (result st') !! [] = None).
Proof.
  apply for_issues_ind.
  { intros st. unfold countZ. simpl. repeat split; [intros k|..]; (lia || done). }
  intros i l st c d st' Hp _ (IHk & IHs & IHn). split; [|split].
  - intros k. rewrite IHk, countZ_cons.
    cbn [tally result labels_combinations]. unfold combo_of at 2.
    destruct (Issue.labels i) as [|a l'] eqn:Hl; [lia|].
    rewrite get_incr. destruct (decide (sorted (a :: l') = k)) as [->|Hne].
    + rewrite bool_decide_eq_true_2 by done. lia.
    + rewrite bool_decide_eq_false_2 by done. lia.
  - rewrite IHs, countZ_cons.
    cbn [tally result labels_combinations]. unfold labelled at 2.
    destruct (Issue.labels i) as [|a l'] eqn:Hl; [lia|].
    rewrite sum_values_incr. lia.
  - intros Hnone. apply IHn.
    cbn [tally result labels_combinations].
    destruct (Issue.labels i) as [|a l'] eqn:Hl; [done|].
    rewrite incr_lookup_ne; [done|]. by apply sorted_nonempty.
Qed.

Lemma for_issues_detail :
  ∀ l st st', for_issues l st = inr st' →
  ∃ ds,
    issues_detail (result st') = issues_detail (result st) ++ ds ∧
    Forall2 (λ i d, summarises i d ∧
                    Detail.days_to_close d = elapsed_us i / (86400 * 1000000))
            l ds ∧
    total_days st'
    = total_days st + sumZ (λ i, elapsed_us i / (86400 * 1000000)) l.
Proof.
  apply for_issues_ind.
  { intros st. exists []. rewrite app_nil_r. simpl. split; [done|].
    split; [constructor|lia]. }
  intros i l st c d st' Hp _ (ds & Hds & Hall & Htot).
  assert (elapsed_us i / (86400 * 1000000) = days (datetime_sub d c)) as Hdays.
  { unfold elapsed_us. by rewrite Hp, days_datetime_sub. }
  eexists (_ :: ds). split; [|split].
  - rewrite Hds. cbn [tally result issues_detail].
    by rewrite <-app_assoc.
  - constructor; [|done]. split; [|by rewrite Hdays].
    unfold summarises. cbn. unfold parse_times in Hp.
    destruct (strptime (Issue.created_at i) wire_format); [|done].
    destruct (Issue.closed_at i) as [s|];
      [|by destruct (Issue.has_closed_at i)].
    by repeat split.
  - rewrite Htot. cbn [tally total_days sumZ foldr].
    rewrite Hdays. unfold sumZ. lia.
Qed.

Lemma finish_fields l (st : state) :
  let a := finish pyfloat truediv round l st in
  total_count a = total_count (result st) ∧
  by_label a = by_label (result st) ∧
  by_assignee a = by_assignee (result st) ∧
  by_author a = by_author (result st) ∧
  by_month a = by_month (result st) ∧
  by_week a = by_week (result st) ∧
  labels_combinations a = labels_combinations (result st) ∧
  issues_detail a = issues_detail (result st).
Proof. unfold finish. by destruct (0 <? Z.of_nat (length l)). Qed.

(** [analyze_issues] returns an analysis exactly when every timestamp of
    the input parses; the analysis is then what the loop left, with the
    average filled in. *)
Lemma analyze_issues_total l :
  Forall (λ i, parses i = true) l →
  ∃ st, for_issues l (analysis0 pyfloat l) = inr st ∧
        analyze_issues l = inr (finish pyfloat truediv round l st).
Proof.
  intros Hl. destruct (for_issues_total l (analysis0 pyfloat l) Hl) as [st Hst].
  exists st. split; [done|]. unfold analyze_issues. by rewrite Hst.
Qed.

Lemma analyze_issues_inr l a :
  analyze_issues l = inr a →
  ∃ st, for_issues l (analysis0 pyfloat l) = inr st ∧
        a = finish pyfloat truediv round l st.
Proof.
  unfold analyze_issues.
  destruct (for_issues l _) as [|st] eqn:Hrun; [done|].
  intros [= <-]. by exists st.
Qed.

Lemma analyze_issues_parses l a :
  analyze_issues l = inr a → Forall (λ i, parses i = true) l.
Proof.
  unfold analyze_issues.
  destruct (for_issues l _) as [|st] eqn:Hrun; [done|].
  intros _. by eapply for_issues_parses.
Qed.
End AnalyzeFacts.

(** ** Claims about [analyze_issues] *)

Section AnalyzeClaims.
Variable strptime : string → string → option datetime.
Variable strftime : datetime → string → string.
Variable pyfloat : Type.
Variable truediv : Z → Z → pyfloat.
Variable round : pyfloat → Z → pyfloat.

Local Abbreviation parses := (parses strptime).
Local Abbreviation analyze_issues :=
  (analyze_issues strptime strftime pyfloat truediv round).
Local Abbreviation elapsed_us := (elapsed_us strptime).
Local Abbreviation whole_days := (whole_days strptime).
Local Abbreviation period_key := (period_key strptime strftime).

(** C1 (amended): for every list of issues whose timestamps parse,
    [labels_combinations] counts under each key the issues that have at
    least one label and whose sorted label tuple is the key, the sorted
    tuple being the ordered permutation of the labels. An issue without
    labels increments nothing: the empty tuple is not a key, and
    [sum(labels_combinations.values())] is the number of issues that have
    a label. *)
Theorem labels_combinations_counts l :
  Forall (λ i, parses i = true) l →
  ∃ a, analyze_issues l = inr a ∧
    (∀ k, get (labels_combinations a) k = countZ (combo_of k) l) ∧
    labels_combinations a !! [] = None ∧
    sum_values (labels_combinations a) = countZ labelled l ∧
    Forall (λ i, Sorted String.le (sorted (Issue.labels i)) ∧
                 sorted (Issue.labels i) ≡ₚ Issue.labels i) l.
Proof.
  intros Hl.
  destruct (analyze_issues_total strptime strftime pyfloat truediv round l Hl)
    as (st & Hrun & Ha).
  eexists. split; [exact Ha|].
  destruct (finish_fields pyfloat truediv round l st)
    as (_ & _ & _ & _ & _ & _ & -> & _).
  destruct (for_issues_labels_combinations _ _ _ _ _ _ Hrun) as (Hk & Hs & Hn).
  split; [|split; [|split]].
  - intros k. rewrite Hk. simpl. by rewrite get_empty.
  - by apply Hn.
  - rewrite Hs. simpl. by rewrite sum_values_empty.
  - apply Forall_forall. intros i _.
    split; [apply sorted_Sorted|apply sorted_Permutation].
Qed.

(** C7: for every list of issues whose timestamps parse, [total_count] is
    the length of the list; [by_author] counts under each login the issues
    of that author, so its values sum to [total_count]; [by_assignee]
    receives one unit per assignee of an issue, or one unit under
    [unassigned] when it has none, so every issue adds at least one unit
    and the values sum to at least [total_count]. *)
Theorem aggregation_totals l :
  Forall (λ i, parses i = true) l →
  ∃ a, analyze_issues l = inr a ∧
    total_count a = Z.of_nat (length l) ∧
    sum_values (by_author a) = total_count a ∧
    (∀ k, get (by_author a) k
          = countZ (λ i, bool_decide (Issue.login i = k)) l) ∧
    (∀ k, get (by_assignee a) k = sumZ (λ i, assignee_units i k) l) ∧
    (∀ i, ∃ k, 1 ≤ assignee_units i k) ∧
    sum_values (by_assignee a)
    = sumZ (λ i, Z.max 1 (Z.of_nat (length (Issue.assignees i)))) l ∧
    total_count a ≤ sum_values (by_assignee a).
Proof.
  intros Hl.
  destruct (analyze_issues_total strptime strftime pyfloat truediv round l Hl)
    as (st & Hrun & Ha).
  eexists. split; [exact Ha|].
  destruct (finish_fields pyfloat truediv round l st)
    as (-> & _ & -> & -> & _).
  destruct (for_issues_total_count _ _ _ _ _ _ Hrun) as [-> _].
  destruct (for_issues_by_author _ _ _ _ _ _ Hrun) as [Hk ->].
  destruct (for_issues_by_assignee _ _ _ _ _ _ Hrun) as [Hak ->].
  simpl. rewrite !sum_values_empty.
  split; [done|]. split; [lia|]. split.
  { intros k. rewrite Hk. cbn [analysis0 result by_author].
    rewrite get_empty. lia. }
  split.
  { intros k. rewrite Hak. cbn [analysis0 result by_assignee].
    rewrite get_empty. lia. }
  split.
  { intros i. unfold assignee_units.
    destruct (Issue.assignees i) as [|a' l']; simpl.
    - by exists "unassigned".
    - exists a'. rewrite bool_decide_eq_true_2 by done. simpl. lia. }
  split; [lia|].
  clear. induction l as [|i l IH]; simpl; lia.
Qed.
(** C10: for every list of issues whose timestamps parse, [by_month] and
    [by_week] count under each key the issues whose closing timestamp
    formats to that key, so each issue is in one month bucket and one week
    bucket and both sums equal [total_count]; [issues_detail] has
    [total_count] entries, the i-th summarising the i-th input issue. *)
Theorem period_and_detail_totals l :
  Forall (λ i, parses i = true) l →
  ∃ a, analyze_issues l = inr a ∧
    sum_values (by_month a) = total_count a ∧
    total_count a = sum_values (by_week a) ∧
    (∀ k, get (by_month a) k
          = countZ (λ i, bool_decide (period_key "%Y-%m" i = Some k)) l) ∧
    (∀ k, get (by_week a) k
          = countZ (λ i, bool_decide (period_key "%Y-W%U" i = Some k)) l) ∧
    Forall (λ i, is_Some (period_key "%Y-%m" i) ∧
                 is_Some (period_key "%Y-W%U" i)) l ∧
    Z.of_nat (length (issues_detail a)) = total_count a ∧
    Forall2 (summarises) l (issues_detail a).
Proof.
  intros Hl.
  destruct (analyze_issues_total strptime strftime pyfloat truediv round l Hl)
    as (st & Hrun & Ha).
  eexists. split; [exact Ha|].
  destruct (finish_fields pyfloat truediv round l st)
    as (-> & _ & _ & _ & -> & -> & _ & ->).
  destruct (for_issues_total_count _ _ _ _ _ _ Hrun) as [-> _].
  destruct (for_issues_by_month _ _ _ _ _ _ Hrun) as [Hm ->].
  destruct (for_issues_by_week _ _ _ _ _ _ Hrun) as [Hw ->].
  destruct (for_issues_detail _ _ _ _ _ _ Hrun) as (ds & -> & Hds & _).
  cbn [analysis0 result by_month by_week total_count issues_detail app].
  rewrite !sum_values_empty.
  split; [lia|]. split; [lia|]. split.
  { intros k. rewrite Hm. cbn [analysis0 result by_month].
    rewrite get_empty. lia. }
  split.
  { intros k. rewrite Hw. cbn [analysis0 result by_week].
    rewrite get_empty. lia. }
  split.
  { eapply Forall_impl; [exact Hl|]. intros i.
    unfold parses, period_key.
    by destruct (parse_times strptime i) as [|[c d]]. }
  split.
  { by rewrite <-(Forall2_length _ _ _ Hds). }
  eapply Forall2_impl; [exact Hds|]. by intros i d [? _].
Qed.

End AnalyzeClaims.

(** ** The arithmetic of [float] *)

(** The rounding of a quotient is off by half a unit at most. *)
Lemma div_half_even_spec n d :
  0 < d → 2 * Z.abs (PyRef.div_half_even n d * d - n) ≤ d.
Proof.
  intros Hd. unfold PyRef.div_half_even.
  pose proof (Z.div_mod n d ltac:(lia)) as Hn.
  pose proof (Z.mod_pos_bound n d Hd) as Hr.
  destruct (Z.compare_spec (2 * (n mod d)) d) as [E|E|E];
    [destruct (Z.even (n / d))|..]; nia.
Qed.

Lemma div_half_even_nonneg n d :
  0 ≤ n → 0 < d → 0 ≤ PyRef.div_half_even n d.
Proof.
  intros Hn Hd. unfold PyRef.div_half_even.
  pose proof (Z.div_pos n d Hn Hd).
  destruct (2 * (n mod d) ?= d); [destruct (Z.even (n / d))|..]; lia.
Qed.

(** The nearest integer is within a half. *)
Lemma rne_spec q : (Qabs (inject_Z (PyRef.rne q) - q) <= 1 # 2)%Q.
Proof.
  destruct q as [n d]. unfold PyRef.rne. cbn [Qnum Qden].
  pose proof (div_half_even_spec n (Zpos d) ltac:(lia)) as H.
  apply Qabs_Qle_condition.
  split; unfold Qle, Qminus, Qplus, Qopp, inject_Z; cbn [Qnum Qden]; lia.
Qed.

Lemma rne_nonneg q : (0 <= q)%Q → 0 ≤ PyRef.rne q.
Proof.
  destruct q as [n d]. unfold Qle, PyRef.rne. cbn [Qnum Qden]. intros H.
  apply div_half_even_nonneg; lia.
Qed.

Lemma pow2_pos e : (0 < PyRef.pow2 e)%Q.
Proof. by apply Qpower_0_lt. Qed.

Lemma pow2_add a b : (PyRef.pow2 (a + b) == PyRef.pow2 a * PyRef.pow2 b)%Q.
Proof. by apply Qpower_plus. Qed.

Lemma pow2_Z e : 0 ≤ e → (PyRef.pow2 e == inject_Z (2 ^ e))%Q.
Proof. intros He. unfold PyRef.pow2. by rewrite Zpower_Qpower. Qed.
(** The power of two that [ilog2] names is not above the number. *)
Lemma ilog2_lower q : (0 < q)%Q → (PyRef.pow2 (PyRef.ilog2 q) <= q)%Q.
Proof.
  intros Hq. unfold PyRef.ilog2.
  destruct (Qle_bool _ q) eqn:Hk; [by apply Qle_bool_iff|]. clear Hk.
  destruct q as [n d]. cbn [Qnum Qden].
  assert (0 < n) as Hn.
  { revert Hq. unfold Qlt. cbn [Qnum Qden]. lia. }
  pose proof (Z.log2_spec n Hn) as [Ha _].
  pose proof (Z.log2_spec (Zpos d) ltac:(lia)) as [_ Hb].
  pose proof (Z.log2_nonneg n) as Ha0.
  pose proof (Z.log2_nonneg (Zpos d)) as Hb0.
  set (a := Z.log2 n) in *. set (b := Z.log2 (Zpos d)) in *.
  replace (a - b - 1) with (a + - (b + 1)) by lia.
  rewrite pow2_add. unfold PyRef.pow2 at 2. rewrite Qpower_opp.
  fold (PyRef.pow2 (b + 1)). rewrite !pow2_Z by lia.
  rewrite (Qmake_Qdiv n d).
  assert (0 < 2 ^ (b + 1)) as Hpb by (apply Z.pow_pos_nonneg; lia).
  replace (Z.succ b) with (b + 1) in Hb by lia.
  apply Qle_shift_div_r; [by change 0%Q with (inject_Z 0); rewrite <-Zlt_Qlt|].
  unfold Qdiv. rewrite <-Qmult_assoc, (Qmult_comm (/ _)), Qmult_assoc.
  apply Qle_shift_div_l; [by change 0%Q with (inject_Z 0); rewrite <-Zlt_Qlt|].
  rewrite <-!inject_Z_mult, <-Zle_Qle. nia.
Qed.

Lemma nearest_nonneg q : (0 <= q)%Q → (0 <= PyRef.nearest q)%Q.
Proof.
  intros Hq. unfold PyRef.nearest. destruct (Qeq_bool q 0); [done|].
  rewrite Qred_correct. apply Qmult_le_0_compat.
  - change 0%Q with (inject_Z 0). rewrite <-Zle_Qle. apply rne_nonneg.
    apply Qle_shift_div_l; [apply pow2_pos|]. by rewrite Qmult_0_l.
  - apply Qlt_le_weak, pow2_pos.
Qed.

(** The nearest [float] is off by half a unit in the last place: a
    relative error of [2^-53], or [2^-1075] among the subnormal numbers. *)
Lemma nearest_error q :
  (0 <= q)%Q →
  (Qabs (PyRef.nearest q - q)
   <= Qmax (q * PyRef.pow2 (-53)) (PyRef.pow2 (-1075)))%Q.
Proof.
  intros Hq. unfold PyRef.nearest.
  destruct (Qeq_bool q 0) eqn:H0.
  { apply Qeq_bool_iff in H0. rewrite H0.
    eapply Qle_trans; [|apply Q.le_max_r]. apply Qlt_le_weak, pow2_pos. }
  assert (0 < q)%Q as Hpos.
  { apply Qeq_bool_neq in H0. apply Qle_lteq in Hq as [?|E]; [done|].
    by destruct H0. }
  cbv zeta. rewrite Qred_correct.
  set (e := PyRef.ulp_exponent q).
  pose proof (pow2_pos e) as He.
  pose proof (rne_spec (q / PyRef.pow2 e)) as Hr.
  set (m := inject_Z (PyRef.rne (q / PyRef.pow2 e))) in *.
  assert (Qabs (m * PyRef.pow2 e - q) <= PyRef.pow2 (e - 1))%Q as Hhalf.
  { assert (m * PyRef.pow2 e - q == (m - q / PyRef.pow2 e) * PyRef.pow2 e)%Q
      as -> by (field; by apply Qnot_eq_sym, Qlt_not_eq).
    rewrite Qabs_Qmult, (Qabs_pos (PyRef.pow2 e)) by by apply Qlt_le_weak.
    replace (e - 1) with (-1 + e) by lia. rewrite pow2_add.
    apply Qmult_le_compat_r; [|by apply Qlt_le_weak]. exact Hr. }
  eapply Qle_trans; [exact Hhalf|].
  unfold e, PyRef.ulp_exponent.
  destruct (Z.max_spec (PyRef.ilog2 q - 52) (-1074)) as [[_ ->]|[_ ->]].
  - eapply Qle_trans; [|apply Q.le_max_r]. done.
  - eapply Qle_trans; [|apply Q.le_max_l].
    replace (PyRef.ilog2 q - 52 - 1) with (PyRef.ilog2 q + -53) by lia.
    rewrite pow2_add. apply Qmult_le_compat_r; [by apply ilog2_lower|].
    apply Qlt_le_weak, pow2_pos.
Qed.

(** The next power of two is above the number. *)
Lemma ilog2_upper q : (0 < q)%Q → (q < PyRef.pow2 (PyRef.ilog2 q + 1))%Q.
Proof.
  intros Hq. unfold PyRef.ilog2.
  destruct (Qle_bool _ q) eqn:Hk.
  2:{ replace (_ - 1 + 1) with (Z.log2 (Qnum q) - Z.log2 (Zpos (Qden q)))
        by lia.
      apply Qnot_le_lt. intros H%Qle_bool_iff. congruence. }
  clear Hk. destruct q as [n d]. cbn [Qnum Qden].
  assert (0 < n) as Hn.
  { revert Hq. unfold Qlt. cbn [Qnum Qden]. lia. }
  pose proof (Z.log2_spec n Hn) as [_ Ha].
  pose proof (Z.log2_spec (Zpos d) ltac:(lia)) as [Hb _].
  pose proof (Z.log2_nonneg n) as Ha0.
  pose proof (Z.log2_nonneg (Zpos d)) as Hb0.
  set (a := Z.log2 n) in *. set (b := Z.log2 (Zpos d)) in *.
  replace (Z.succ a) with (a + 1) in Ha by lia.
  replace (a - b + 1) with (a + 1 + - b) by lia.
  rewrite pow2_add. unfold PyRef.pow2 at 2. rewrite Qpower_opp.
  fold (PyRef.pow2 b). rewrite !pow2_Z by lia.
  rewrite (Qmake_Qdiv n d).
  assert (0 < 2 ^ b) as Hpb by (apply Z.pow_pos_nonneg; lia).
  apply Qlt_shift_div_r; [by change 0%Q with (inject_Z 0); rewrite <-Zlt_Qlt|].
  unfold Qdiv. rewrite <-Qmult_assoc, (Qmult_comm (/ _)), Qmult_assoc.
  apply Qlt_shift_div_l; [by change 0%Q with (inject_Z 0); rewrite <-Zlt_Qlt|].
  rewrite <-!inject_Z_mult, <-Zlt_Qlt. nia.
Qed.

(** The result is a number of the format: an integer of at most 53 bits
    times a power of two that is not below the smallest. *)
Lemma nearest_representable q :
  (0 <= q)%Q →
  ∃ m e, (PyRef.nearest q == inject_Z m * PyRef.pow2 e)%Q ∧
         0 ≤ m ≤ 2 ^ 53 ∧ -1074 ≤ e.
Proof.
  intros Hq. unfold PyRef.nearest.
  destruct (Qeq_bool q 0) eqn:H0.
  { exists 0, 0. split; [done|lia]. }
  assert (0 < q)%Q as Hpos.
  { apply Qeq_bool_neq in H0. apply Qle_lteq in Hq as [?|E]; [done|].
    by destruct H0. }
  cbv zeta. set (e := PyRef.ulp_exponent q).
  pose proof (pow2_pos e) as He.
  exists (PyRef.rne (q / PyRef.pow2 e)), e.
  split; [apply Qred_correct|].
  assert (0 <= q / PyRef.pow2 e)%Q as Hy0.
  { apply Qle_shift_div_l; [done|]. by rewrite Qmult_0_l. }
  split; [|unfold e, PyRef.ulp_exponent; lia].
  split; [by apply rne_nonneg|].
  assert (q / PyRef.pow2 e < inject_Z (2 ^ 53))%Q as Hy.
  { apply Qlt_shift_div_r; [done|].
    eapply Qlt_le_trans; [by apply ilog2_upper|].
    rewrite <-pow2_Z by lia. rewrite <-pow2_add.
    apply Qpower_le_compat_l; [|done].
    unfold e, PyRef.ulp_exponent. lia. }
  pose proof (rne_spec (q / PyRef.pow2 e)) as Hr.
  apply Qabs_Qle_condition in Hr as [_ Hr].
  set (m := PyRef.rne (q / PyRef.pow2 e)) in *.
  assert (inject_Z m < inject_Z (2 ^ 53 + 1))%Q as Hm.
  { rewrite inject_Z_plus. change (inject_Z 1) with 1%Q. lra. }
  rewrite <-Zlt_Qlt in Hm. lia.
Qed.

(** A number with two decimals that is nearest to [x]. *)
Lemma rne_hundredths x :
  (Qabs (inject_Z (PyRef.rne (x * 100)) / 100 - x) <= 1 # 200)%Q.
Proof.
  pose proof (rne_spec (x * 100)) as H.
  set (k := inject_Z (PyRef.rne (x * 100))) in *.
  assert (k / 100 - x == (k - x * 100) * (1 # 100))%Q as -> by field.
  rewrite Qabs_Qmult. change (Qabs (1 # 100)) with (1 # 100)%Q.
  change (1 # 200)%Q with ((1 # 2) * (1 # 100))%Q.
  by apply Qmult_le_compat_r.
Qed.

(** ** The average of [analyze_issues] *)

Section AverageClaim.
Variable strptime : string → string → option datetime.
Variable strftime : datetime → string → string.

Local Abbreviation parses := (parses strptime).
Local Abbreviation elapsed_us := (elapsed_us strptime).
Local Abbreviation whole_days := (whole_days strptime).
Local Abbreviation floor_days := (floor_days strptime).

(** The floor and the truncation of a number of days. *)
Lemma floor_days_cases i :
  (0 ≤ elapsed_us i → floor_days i = whole_days i) ∧
  (0 ≤ elapsed_us i < 86400 * 1000000 → floor_days i = 0) ∧
  (elapsed_us i < 0 → elapsed_us i mod (86400 * 1000000) ≠ 0 →
   floor_days i = whole_days i - 1).
Proof.
  unfold floor_days, whole_days. split; [|split].
  - intros H. rewrite Z.quot_div_nonneg; lia.
  - intros H. by apply Z.div_small.
  - intros Hneg Hmod. Z.to_euclidean_division_equations. lia.
Qed.

(** Between two datetimes that the [datetime] constructor accepts there
    are fewer than 3652062 days, so neither the total of a list nor its
    mean comes near the end of the [float] format. *)
Lemma toordinal_range d :
  PyRef.valid_datetime d = true → 1 ≤ toordinal d ≤ 3652060.
Proof.
  intros Hv. pose proof Hv as Hyear.
  apply valid_datetime_spec in Hv as (Hy & Hm & Hd & _).
  unfold PyRef.valid_datetime in Hyear.
  rewrite !andb_true_iff, !Z.leb_le in Hyear.
  destruct (days_before_month_bounds (year d) (month d) Hm) as (H0 & H1 & _).
  pose proof (days_before_year_mono 1 (year d) Hy) as Hlo.
  pose proof (days_before_year_mono (year d) 9999 ltac:(lia)) as Hhi.
  change (_days_before_year 1) with 0 in Hlo.
  change (_days_before_year 9999) with 3651694 in Hhi.
  unfold toordinal, _ymd2ord. destruct (_is_leap (year d)); lia.
Qed.

Lemma floor_days_range l :
  (∀ s d, strptime s wire_format = Some d → PyRef.valid_datetime d = true) →
  Forall (λ i, parses i = true) l →
  Z.abs (sumZ floor_days l) ≤ 3652061 * Z.of_nat (length l).
Proof.
  intros Hvalid Hl. induction Hl as [|i l Hi _ IH]; [done|].
  cbn [sumZ foldr length]. fold (sumZ floor_days l).
  assert (Z.abs (floor_days i) ≤ 3652061) as Hone; [|lia].
  unfold floor_days, elapsed_us, parses in *.
  unfold parse_times in *.
  destruct (strptime (Issue.created_at i) wire_format) as [c|] eqn:Hc; [|done].
  destruct (Issue.closed_at i) as [s|];
    [|by destruct (Issue.has_closed_at i)].
  destruct (strptime s wire_format) as [d|] eqn:Hd; [|done].
  pose proof (Hvalid _ _ Hc) as Vc. pose proof (Hvalid _ _ Hd) as Vd.
  pose proof (toordinal_range c Vc). pose proof (toordinal_range d Vd).
  apply valid_datetime_spec in Vc as (_ & _ & _ & ? & ? & ? & ?).
  apply valid_datetime_spec in Vd as (_ & _ & _ & ? & ? & ? & ?).
  unfold timestamp_us. Z.to_euclidean_division_equations. lia.
Qed.

(** The quotient is a finite [float]: the division does not overflow. *)
Lemma mean_in_float_range l :
  (∀ s d, strptime s wire_format = Some d → PyRef.valid_datetime d = true) →
  Forall (λ i, parses i = true) l →
  l ≠ [] →
  (PyRef.magnitude
     (PyRef.truediv (sumZ floor_days l) (Z.of_nat (length l)))
   <= 3652062)%Q.
Proof.
  intros Hvalid Hl Hne.
  pose proof (floor_days_range l Hvalid Hl) as Hsum.
  assert (0 < Z.of_nat (length l)) as Hn by (destruct l; [done|simpl; lia]).
  unfold PyRef.truediv. cbn [PyRef.magnitude].
  rewrite (Z.abs_eq (Z.of_nat (length l))) by lia.
  set (mean := (Z.abs (sumZ floor_days l) # Z.to_pos (Z.of_nat (length l)))%Q).
  assert (0 <= mean)%Q as H0 by (unfold Qle, mean; cbn [Qnum Qden]; lia).
  assert (mean <= 3652061)%Q as H1.
  { unfold Qle, mean. cbn [Qnum Qden]. rewrite Z2Pos.id by lia. lia. }
  pose proof (nearest_error mean H0) as He.
  apply Qabs_Qle_condition in He as [_ He].
  assert (Qmax (mean * PyRef.pow2 (-53)) (PyRef.pow2 (-1075)) <= 1)%Q as Hmax.
  { apply Q.max_lub.
    - change (PyRef.pow2 (-53)) with (1 # 9007199254740992)%Q. lra.
    - apply Qlt_le_weak. by vm_compute. }
  lra.
Qed.

(** C6 (amended): for every list of issues whose timestamps parse, the
    [days_to_close] of an issue is the number of whole days of
    [closed_at - created_at] counted downwards. This is the whole-day
    truncation for an issue that is not closed before it is created, 0
    when it is closed less than a day after its creation, and one less
    than the truncation for an issue closed before its creation by other
    than whole days. For a list that is not empty [avg_days_to_close] is
    the [float] [round(total / n, 2)], with [total] the sum of these day
    counts and [n] the length of the list: the quotient is the binary64
    number nearest to the exact mean, and the result is the binary64
    number nearest to [k / 100], the number with two decimals nearest to
    the quotient; the sign is that of the total. For the empty list
    [avg_days_to_close] is the integer 0. *)
Theorem average_days_to_close l :
  Forall (λ i, parses i = true) l →
  ∃ a,
    analyze_issues strptime strftime PyRef.float PyRef.truediv PyRef.round l
    = inr a ∧
    Forall2 (λ i d, Detail.days_to_close d = floor_days i) l (issues_detail a) ∧
    Forall (λ i,
      (0 ≤ elapsed_us i → floor_days i = whole_days i) ∧
      (0 ≤ elapsed_us i < 86400 * 1000000 → floor_days i = 0) ∧
      (elapsed_us i < 0 → elapsed_us i mod (86400 * 1000000) ≠ 0 →
       floor_days i = whole_days i - 1)) l ∧
    match l with
    | [] => avg_days_to_close a = PyInt 0
    | _ =>
      let total := sumZ floor_days l in
      let n := Z.of_nat (length l) in
      let mean := (Z.abs total # Z.to_pos n)%Q in
      let x := PyRef.truediv total n in
      ∃ k,
        avg_days_to_close a = PyFloat (PyRef.round x 2) ∧
        PyRef.negative x = (total <? 0) ∧
        PyRef.magnitude x = PyRef.nearest mean ∧
        (Qabs (PyRef.magnitude x - mean)
         <= Qmax (mean * PyRef.pow2 (-53)) (PyRef.pow2 (-1075)))%Q ∧
        0 ≤ k ∧
        (Qabs (inject_Z k / 100 - PyRef.magnitude x) <= 1 # 200)%Q ∧
        PyRef.round x 2
        = {| PyRef.negative := total <? 0;
             PyRef.magnitude := PyRef.nearest (inject_Z k / 100) |} ∧
        (Qabs (PyRef.nearest (inject_Z k / 100) - inject_Z k / 100)
         <= Qmax (inject_Z k / 100 * PyRef.pow2 (-53)) (PyRef.pow2 (-1075)))%Q
    end.
Proof.
  intros Hl.
  destruct (analyze_issues_total strptime strftime PyRef.float PyRef.truediv
              PyRef.round l Hl) as (st & Hrun & Ha).
  eexists. split; [exact Ha|].
  destruct (for_issues_detail _ _ _ _ _ _ Hrun) as (ds & Hd & Hds & Htot).
  destruct (for_issues_total_count _ _ _ _ _ _ Hrun) as [_ Havg].
  cbn [analysis0 total_days] in Htot. rewrite Z.add_0_l in Htot.
  change (sumZ _ l) with (sumZ floor_days l) in Htot.
  split; [|split].
  - destruct (finish_fields PyRef.float PyRef.truediv PyRef.round l st)
      as (_ & _ & _ & _ & _ & _ & _ & ->).
    rewrite Hd. cbn [analysis0 result issues_detail app].
    eapply Forall2_impl; [exact Hds|]. by intros i d [_ ?].
  - apply Forall_forall. intros i _. apply floor_days_cases.
  - unfold finish. destruct l as [|i l]; [simpl; by rewrite Havg|].
    destruct (Z.ltb_spec 0 (Z.of_nat (length (i :: l))));
      [|cbn [length] in *; lia].
    cbn [avg_days_to_close]. rewrite Htot. cbv zeta.
    set (total := sumZ floor_days (i :: l)).
    set (n := Z.of_nat (length (i :: l))) in *.
    set (mean := (Z.abs total # Z.to_pos n)%Q).
    assert (0 <= mean)%Q as Hmean.
    { unfold Qle, mean. cbn [Qnum Qden]. lia. }
    assert (PyRef.magnitude (PyRef.truediv total n) = PyRef.nearest mean)
      as Hx.
    { unfold PyRef.truediv. cbn [PyRef.magnitude]. by rewrite (Z.abs_eq n) by lia. }
    assert (PyRef.negative (PyRef.truediv total n) = (total <? 0)) as Hs.
    { unfold PyRef.truediv. cbn [PyRef.negative].
      destruct (Z.ltb_spec n 0); [lia|]. apply xorb_false_r. }
    pose proof (nearest_nonneg mean Hmean) as Hx0. rewrite <-Hx in Hx0.
    exists (PyRef.rne (PyRef.magnitude (PyRef.truediv total n) * 100)).
    split; [done|]. split; [done|]. split; [done|].
    split; [rewrite Hx; by apply nearest_error|].
    assert (0 ≤ PyRef.rne (PyRef.magnitude (PyRef.truediv total n) * 100))
      as Hk.
    { apply rne_nonneg. by apply Qmult_le_0_compat. }
    split; [done|]. split; [apply rne_hundredths|].
    split; [unfold PyRef.round; by rewrite Hs|].
    apply nearest_error. apply Qle_shift_div_l; [done|].
    rewrite Qmult_0_l. change 0%Q with (inject_Z 0). by rewrite <-Zle_Qle.
Qed.
End AverageClaim.

(** C6, as the claim has it, fails for an issue that is closed before it
    is created: for the issue closed one hour before its creation the
    program counts -1 day where the truncation is 0, and the average of
    the one-issue list is -1.0, not the 0.0 that the mean of the
    truncations rounds to. *)
Lemma closed_before_created_counts_down :
  ∃ a,
    analyze_issues PyRef.strptime PyRef.strftime PyRef.float PyRef.truediv
      PyRef.round [Sample.backdated_issue] = inr a ∧
    Detail.days_to_close <$> issues_detail a = [-1] ∧
    whole_days PyRef.strptime Sample.backdated_issue = 0 ∧
    avg_days_to_close a
    = PyFloat {| PyRef.negative := true; PyRef.magnitude := 1 |} ∧
    avg_days_to_close a
    ≠ PyFloat (PyRef.round
                 (PyRef.truediv
                    (sumZ (whole_days PyRef.strptime) [Sample.backdated_issue])
                    1) 2).
Proof.
  eexists. split; [vm_compute; reflexivity|].
  split; [reflexivity|]. split; [reflexivity|]. split; [reflexivity|].
  vm_compute. discriminate.
Qed.

(** Three issues that took 2, 0 and 12 whole days: the average is the
    [float] that Python prints as 4.67. Eighty issues that took 2 days
    together: the quotient 0.025 is a [float] a little above 25
    thousandths, and the average is the [float] printed as 0.03. *)
Lemma average_days_to_close_witness :
  (∃ a,
     analyze_issues PyRef.strptime PyRef.strftime PyRef.float PyRef.truediv
       PyRef.round [Example.bug_issue; Example.ui_issue; Example.plain_issue]
     = inr a ∧
     Detail.days_to_close <$> issues_detail a = [2; 0; 12] ∧
     avg_days_to_close a
     = PyFloat {| PyRef.negative := false;
                  PyRef.magnitude := 2628976282477527 # 562949953421312 |} ∧
     (2628976282477527 # 562949953421312)%Q = PyRef.nearest (467 / 100)) ∧
  (∃ a,
     analyze_issues PyRef.strptime PyRef.strftime PyRef.float PyRef.truediv
       PyRef.round Sample.eighty = inr a ∧
     avg_days_to_close a
     = PyFloat {| PyRef.negative := false;
                  PyRef.magnitude := 1080863910568919 # 36028797018963968 |} ∧
     (1080863910568919 # 36028797018963968)%Q = PyRef.nearest (3 / 100)).
Proof.
  split.
  - destruct (average_days_to_close PyRef.strptime PyRef.strftime
                [Example.bug_issue; Example.ui_issue; Example.plain_issue])
      as (a & Ha & Hdays & _ & k & Havg & _).
    + repeat (constructor; [vm_compute; reflexivity|]). constructor.
    + exists a. split; [exact Ha|]. split.
      * revert Ha. vm_compute. by intros [= <-].
      * split; [|vm_compute; reflexivity].
        rewrite Havg. vm_compute. reflexivity.
  - destruct (average_days_to_close PyRef.strptime PyRef.strftime
                Sample.eighty) as (a & Ha & _ & _ & Hlast).
    + unfold Sample.eighty. constructor; [vm_compute; reflexivity|].
      apply Forall_replicate. vm_compute. reflexivity.
    + destruct Hlast as (k & Havg & _).
      exists a. split; [exact Ha|].
      split; [|vm_compute; reflexivity].
      rewrite Havg. vm_compute. reflexivity.
Defined.

(** C1, as the claim has it, fails in its second part: an issue without
    labels increments nothing. For the one-issue list holding such an
    issue, [labels_combinations] has no empty-tuple key and its values sum
    to 0, not to the length 1 of the list. *)
Lemma unlabelled_issue_not_counted :
  ∃ a,
    analyze_issues PyRef.strptime PyRef.strftime PyRef.float
      PyRef.truediv PyRef.round
      [Example.plain_issue] = inr a ∧
    labels_combinations a !! [] = None ∧
    sum_values (labels_combinations a) = 0 ∧
    sum_values (labels_combinations a) ≠ Z.of_nat (length [Example.plain_issue]).
Proof.
  eexists. split; [vm_compute; reflexivity|].
  split; [reflexivity|]. split; [reflexivity|]. discriminate.
Qed.

Lemma labels_combinations_counts_witness :
  ∃ a,
    analyze_issues PyRef.strptime PyRef.strftime PyRef.float
      PyRef.truediv PyRef.round
      [Example.bug_issue; Example.ui_issue; Example.plain_issue] = inr a ∧
    get (labels_combinations a) ["bug"; "ui"] = 1 ∧
    sum_values (labels_combinations a) = 2.
Proof.
  destruct (labels_combinations_counts PyRef.strptime PyRef.strftime PyRef.float
              PyRef.truediv PyRef.round
              [Example.bug_issue; Example.ui_issue; Example.plain_issue])
    as (a & Ha & Hk & _ & Hs & _).
  - repeat (constructor; [vm_compute; reflexivity|]). constructor.
  - exists a. split; [exact Ha|]. split.
    + rewrite Hk. vm_compute. reflexivity.
    + rewrite Hs. vm_compute. reflexivity.
Defined.

Lemma aggregation_totals_witness :
  ∃ a,
    analyze_issues PyRef.strptime PyRef.strftime PyRef.float
      PyRef.truediv PyRef.round
      [Example.bug_issue; Example.ui_issue; Example.plain_issue] = inr a ∧
    total_count a = 3 ∧
    sum_values (by_author a) = 3 ∧
    get (by_author a) "carol" = 2 ∧
    get (by_assignee a) "alice" = 2 ∧
    get (by_assignee a) "unassigned" = 1 ∧
    sum_values (by_assignee a) = 4.
Proof.
  destruct (aggregation_totals PyRef.strptime PyRef.strftime PyRef.float
              PyRef.truediv PyRef.round
              [Example.bug_issue; Example.ui_issue; Example.plain_issue])
    as (a & Ha & Ht & Hs & Hk & Hak & _ & Hsa & _).
  - repeat (constructor; [vm_compute; reflexivity|]). constructor.
  - exists a. split; [exact Ha|]. split; [exact Ht|].
    split; [by rewrite Hs, Ht|]. split; [by rewrite Hk|].
    split; [by rewrite Hak|]. split; [by rewrite Hak|]. by rewrite Hsa.
Defined.

Lemma period_and_detail_totals_witness :
  ∃ a,
    analyze_issues PyRef.strptime PyRef.strftime PyRef.float
      PyRef.truediv PyRef.round
      [Example.bug_issue; Example.ui_issue; Example.plain_issue] = inr a ∧
    get (by_month a) "2024-01" = 2 ∧
    get (by_week a) "2024-W04" = 1 ∧
    sum_values (by_month a) = 3 ∧
    sum_values (by_week a) = 3 ∧
    length (issues_detail a) = 3%nat.
Proof.
  destruct (period_and_detail_totals PyRef.strptime PyRef.strftime PyRef.float
              PyRef.truediv PyRef.round
              [Example.bug_issue; Example.ui_issue; Example.plain_issue])
    as (a & Ha & Hm & Hw & Hmk & Hwk & _ & Hlen & Hall).
  - repeat (constructor; [vm_compute; reflexivity|]). constructor.
  - assert (total_count a = 3) as Ht.
    { revert Ha. vm_compute. by intros [= <-]. }
    exists a. split; [exact Ha|].
    split; [rewrite Hmk; vm_compute; reflexivity|].
    split; [rewrite Hwk; vm_compute; reflexivity|].
    split; [by rewrite Hm|]. split; [by rewrite <-Hw|].
    by rewrite <-(Forall2_length _ _ _ Hall).
Defined.

(** ** The exporters *)

Section ExportFacts.
Variable F : Type.
Variables owner repo generated_at : string.

Local Abbreviation json_dump := (json_dump F).
Local Abbreviation _export_json_report :=
  (_export_json_report F owner repo generated_at).

(** [sep.join] by cases. *)
Lemma join_equations sep x y l :
  join sep [] = "" ∧ join sep [x] = x ∧
  join sep (x :: y :: l) = x +:+ sep +:+ join sep (y :: l).
Proof. done. Qed.

(** The row handed to the CSV writer: both list fields are the elements
    joined with a semicolon and a space. *)
Lemma writerow_csv_row d :
  writerow F (csv_row F d)
  = [VInt (Detail.number d); VStr (Detail.title d); VStr (Detail.author d);
     VStr (join "; " (Detail.assignees d)); VStr (join "; " (Detail.labels d));
     VStr (Detail.created_at d); VStr (Detail.closed_at d);
     VInt (Detail.days_to_close d); VStr (Detail.url d);
     VStr (Detail.state d)].
Proof. reflexivity. Qed.

Lemma export_csv_rows (a : analysis F) :
  _export_csv_report F a
  = (VStr <$> fieldnames) :: ((λ d, writerow F (csv_row F d)) <$> issues_detail a).
Proof. reflexivity. Qed.

Lemma json_dump_strings (l : list string) :
  json_dump (VList (VStr <$> l)) = inr (JArr (JStr <$> l)).
Proof.
  cbn [json_dump].
  assert (dump_elements json_dump (VStr <$> l) = inr (JStr <$> l)) as ->; [|done].
  induction l as [|x l IH]; [done|]. cbn. cbn in IH. by rewrite IH.
Qed.

(** A counter with string keys is encoded without error. *)
Lemma json_dump_dict_items (d : gmap string Z) :
  json_dump (VDict (dict_items F d))
  = inr (JObj ((λ kv, (kv.1, JInt kv.2)) <$> map_to_list d)).
Proof.
  cbn [json_dump]. unfold dict_items.
  assert (∀ l : list (string * Z),
            dump_members json_dump ((λ kv, (KStr kv.1, VInt kv.2)) <$> l)
            = inr ((λ kv, (kv.1, JInt kv.2)) <$> l)) as ->; [|done].
  induction l as [|[k v] l IH]; [done|]. cbn. cbn in IH. by rewrite IH.
Qed.

(** A counter with tuple keys that is not empty is not: the first key
    raises. *)
Lemma json_dump_combo_items (d : gmap (list string) Z) :
  d ≠ ∅ → json_dump (VDict (combo_items F d)) = inl TypeError.
Proof.
  intros Hne. cbn [json_dump]. unfold combo_items.
  destruct (map_to_list d) as [|[k v] l] eqn:Hl.
  - by apply map_to_list_empty_iff in Hl.
  - done.
Qed.

Lemma json_dump_detail d :
  json_dump (VDict (str_keys F (detail_dict F d))) = inr (detail_json F d).
Proof.
  unfold detail_json. cbn [json_dump].
  cbn -[json_dump].
  by rewrite !json_dump_strings.
Qed.

Lemma json_dump_dict kvs :
  json_dump (VDict kvs)
  = match dump_members json_dump kvs with
    | inl e => inl e
    | inr js => inr (JObj js)
    end.
Proof. reflexivity. Qed.

Lemma dump_members_cons {V J} (dump : V → exn + J) k x kvs :
  dump_members dump ((KStr k, x) :: kvs)
  = match dump x with
    | inl e => inl e
    | inr j =>
      match dump_members dump kvs with
      | inl e => inl e
      | inr js => inr ((k, j) :: js)
      end
    end.
Proof. reflexivity. Qed.

Lemma json_dump_metadata (a : analysis F) :
  ∃ metadata,
    json_dump
      (VDict [(KStr "repository", VStr (owner +:+ "/" +:+ repo));
              (KStr "generated_at", VStr generated_at);
              (KStr "total_issues", VInt (total_count a));
              (KStr "avg_days_to_close", num_value F (avg_days_to_close a))])
    = inr metadata.
Proof. destruct (avg_days_to_close a); by eexists. Qed.

(** [_export_json_report] raises [TypeError] as soon as
    [labels_combinations] has a key: nothing of the [issues] section is
    written. *)
Lemma json_export_raises (a : analysis F) :
  labels_combinations a ≠ ∅ → _export_json_report a = inl TypeError.
Proof.
  intros Hne. unfold _export_json_report, report_data.
  destruct (json_dump_metadata a) as [metadata Hmeta].
  rewrite json_dump_dict, dump_members_cons, Hmeta, dump_members_cons.
  rewrite (json_dump_dict (_ :: _)), !dump_members_cons.
  by rewrite !json_dump_dict_items, (json_dump_combo_items _ Hne).
Qed.

(** Without any label combination the document is written, and its
    [issues] section holds one entry per summary record, in order, with
    both lists unchanged. *)
Lemma json_export_preserves_lists (a : analysis F) :
  labels_combinations a = ∅ →
  ∃ metadata summary,
    _export_json_report a
    = inr (JObj [("metadata", metadata); ("summary", summary);
                 ("issues", JArr (detail_json F <$> issues_detail a))]).
Proof.
  intros Hnone. unfold _export_json_report, report_data.
  assert (json_dump (VList (VDict ∘ str_keys F ∘ detail_dict F <$> issues_detail a))
          = inr (JArr (detail_json F <$> issues_detail a))) as Hissues.
  { cbn [json_dump].
    assert (dump_elements json_dump
              (VDict ∘ str_keys F ∘ detail_dict F <$> issues_detail a)
            = inr (detail_json F <$> issues_detail a)) as ->; [|done].
    induction (issues_detail a) as [|d ds IH]; [done|].
    cbn [fmap list_fmap dump_elements compose].
    rewrite json_dump_detail. cbn [fmap list_fmap compose] in IH.
    by rewrite IH. }
  destruct (json_dump_metadata a) as [metadata Hmeta].
  rewrite json_dump_dict, dump_members_cons, Hmeta, dump_members_cons.
  rewrite (json_dump_dict (_ :: _)), !dump_members_cons.
  rewrite !json_dump_dict_items, Hnone, Hissues.
  cbn. by eexists _, _.
Qed.
End ExportFacts.

(** An analysis of a list in which some issue has a label has a label
    combination, so that its JSON export raises. *)
Lemma json_export_raises_for_labelled
    strptime strftime F truediv round owner repo generated_at l a :
  analyze_issues strptime strftime F truediv round l = inr a →
  Exists (λ i, labelled i = true) l →
  _export_json_report F owner repo generated_at a = inl TypeError.
Proof.
  intros Ha Hex. apply json_export_raises. intros Hempty.
  apply analyze_issues_inr in Ha as (st & Hrun & ->).
  destruct (finish_fields F truediv round l st)
    as (_ & _ & _ & _ & _ & _ & Hlc & _).
  rewrite Hlc in Hempty.
  destruct (for_issues_labels_combinations _ _ _ _ _ _ Hrun) as (_ & Hsum & _).
  rewrite Hempty in Hsum. cbn [analysis0 result labels_combinations] in Hsum.
  rewrite !sum_values_empty in Hsum.
  clear -Hex Hsum. induction Hex as [i l Hi|i l _ IH].
  - rewrite countZ_cons, Hi in Hsum.
    pose proof (countZ_nonneg labelled l). lia.
  - rewrite countZ_cons in Hsum. pose proof (countZ_nonneg labelled l).
    destruct (labelled i); [lia|]. apply IH. lia.
Qed.

(** C8 at the failing input: one closed issue with the label [bug] and
    the assignees [alice] and [bob]. The CSV row has the fields
    [alice; bob] and [bug], as the claim says. The JSON export raises
    [TypeError] at the tuple key of [labels_combinations], before the
    [issues] section is reached, so the entry with its lists is not
    written. *)
Theorem json_export_fails_on_labelled_issue :
  ∃ a,
    analyze_issues PyRef.strptime PyRef.strftime PyRef.float
      PyRef.truediv PyRef.round
      [Example.bug_issue] = inr a ∧
    Detail.assignees <$> issues_detail a = [["alice"; "bob"]] ∧
    map_to_list (labels_combinations a) = [(["bug"], 1)] ∧
    _export_csv_report PyRef.float a !! 1%nat
    = Some [VInt 1; VStr "crash on start"; VStr "carol"; VStr "alice; bob";
            VStr "bug"; VStr "2024-01-02T08:00:00Z";
            VStr "2024-01-05T07:00:00Z"; VInt 2;
            VStr "https://github.com/o/r/issues/1"; VStr "closed"] ∧
    _export_json_report PyRef.float "o" "r" "2024-03-01T09:30:00" a = inl TypeError.
Proof.
  eexists. split; [vm_compute; reflexivity|].
  split; [reflexivity|]. split; [vm_compute; reflexivity|].
  split; [reflexivity|]. vm_compute. reflexivity.
Qed.

(** * Further properties *)

(** ** More about [get_closed_issues] *)

Section FetchMore.
Variable strptime : string → string → option datetime.
Variable server : nat → response.
Variable since_date : datetime.
Variable until_date : option datetime.

Local Abbreviation scan_page := (scan_page strptime since_date until_date).
Local Abbreviation older_than_since := (older_than_since strptime since_date).
Local Abbreviation while_true := (while_true strptime server since_date until_date).
Local Abbreviation get_closed_issues :=
  (get_closed_issues strptime server since_date until_date).
Local Abbreviation accepted := (accepted strptime server since_date until_date).
Local Abbreviation malformed := (malformed strptime).
Local Abbreviation classify := (classify strptime server since_date until_date).

(** A run that has ended is not changed by more fuel. *)
Lemma while_true_mono fuel k st :
  (∀ st', while_true fuel st ≠ Running st') →
  while_true (fuel + k) st = while_true fuel st.
Proof.
  revert st. induction fuel as [|fuel IH]; intros st Hend; simpl in *.
  { by destruct (Hend st). }
  destruct (loop_body _ _ _ _ st); [by apply IH|done..].
Qed.

(** A page goes on to the next when it is successful and not empty, none
    of its timestamps fails to parse, and its last record is undated or
    not older than [since_date]. *)
Lemma classify_more p :
  status_code (server p) = 200 →
  json (server p) ≠ [] →
  Forall (λ i, malformed i = false) (json (server p)) →
  (∀ l s, last (json (server p)) = Some l →
          truthy (Issue.closed_at l) = Some s →
          ∃ d, strptime s wire_format = Some d ∧
               datetime_lt d since_date = false) →
  classify p = More.
Proof.
  intros H200 Hne Hwf Hlast. unfold classify.
  rewrite H200, Z.eqb_refl. cbn [negb].
  destruct (json (server p)) as [|i0 l0] eqn:Hj; [done|].
  rewrite (scan_page_total strptime since_date until_date _ Hwf).
  unfold older_than_since.
  destruct (last (i0 :: l0)) as [l|] eqn:Hl; [|done].
  destruct (truthy (Issue.closed_at l)) as [s|] eqn:Hs; [|done].
  destruct (Hlast l s eq_refl Hs) as (d & -> & ->). done.
Qed.

(** X5: whatever the service answers and whatever the fuel, a run that has
    not raised holds in [issues] exactly the records that the filter
    accepts on the pages consumed so far, page after page and in page
    order, and it has requested the pages from 1 on without a gap. *)
Theorem fetch_accumulates_filtered_pages fuel :
  match get_closed_issues fuel with
  | Returned st | Running st =>
    (1 ≤ page st)%nat ∧
    issues st = flat_map accepted (seq 1 (page st - 1)) ∧
    (requests st = seq 1 (page st - 1) ∨ requests st = seq 1 (page st))
  | Raised _ log => ∃ k, log = seq 1 (S k)
  end.
Proof.
  unfold get_closed_issues.
  destruct (while_true_spec strptime server since_date until_date fuel initial)
    as (j & _ & _ & Hout).
  destruct (while_true _ _) as [st|e log|st].
  - destruct Hout as (_ & Hstop & ->). apply not_a_stop in Hstop.
    pose proof (issues_stop_old strptime server since_date until_date j) as Hold.
    pose proof (requests_stop_at strptime server since_date until_date j) as Hreq.
    destruct (classify _) eqn:Hc; try done.
    + rewrite (Hreq Fail). cbn. rewrite Nat.sub_0_r. split; [lia|]. split; [done|].
      by right.
    + rewrite (Hreq Empty). cbn. rewrite Nat.sub_0_r. split; [lia|]. split; [done|].
      by right.
    + rewrite (Hreq Old), Hold. cbn [stop_at page]. split; [lia|].
      replace (S (page (advance strptime server since_date until_date initial j)) - 1)%nat
        with (S j) by (cbn; lia).
      split; [done|by left].
  - destruct Hout as (_ & _ & ->). by exists j.
  - destruct Hout as [_ ->]. cbn. rewrite Nat.sub_0_r. split; [lia|].
    split; [done|by left].
Qed.

(** X6: the fetch ends. If the request for some page [p] is answered with
    a status other than 200 or with an empty page, then [p] iterations are
    enough for the loop to end, by [return] or by an exception, it never
    requests a page beyond [p], and more fuel does not change the
    outcome. *)
Theorem fetch_terminates p fuel :
  (1 ≤ p)%nat →
  status_code (server p) ≠ 200 ∨ json (server p) = [] →
  (p ≤ fuel)%nat →
  (∀ st, get_closed_issues fuel ≠ Running st) ∧
  Forall (λ q, (q ≤ p)%nat) (requested (get_closed_issues fuel)) ∧
  get_closed_issues fuel = get_closed_issues p.
Proof.
  intros Hp Hstop Hfuel.
  assert (classify p ≠ More) as HpMore.
  { destruct Hstop as [Hs|He].
    - by rewrite (classify_fail strptime server since_date until_date p Hs).
    - unfold classify. rewrite He.
      by destruct (negb (status_code (server p) =? 200)). }
  assert (∀ n, (p ≤ n)%nat →
            (∀ st, get_closed_issues n ≠ Running st) ∧
            Forall (λ q, (q ≤ p)%nat) (requested (get_closed_issues n))) as Hend.
  { intros n Hn. unfold get_closed_issues.
    destruct (while_true_spec strptime server since_date until_date n initial)
      as (j & Hj & Hmore & Hout). simpl in Hmore.
    assert (j < p)%nat as Hjp.
    { destruct (decide (j < p)%nat); [done|]. destruct HpMore. apply Hmore. lia. }
    destruct (while_true _ _) as [st|e log|st]; simpl.
    - destruct Hout as (_ & _ & ->). split; [done|].
      rewrite requests_stop_at. apply Forall_seq. intros k Hk. lia.
    - destruct Hout as (_ & _ & ->). split; [done|].
      rewrite app_nil_l. apply Forall_seq. intros k Hk. cbn in Hk. lia.
    - destruct Hout as [-> _]. lia. }
  destruct (Hend fuel Hfuel) as [Hrun Hreq]. split; [done|]. split; [done|].
  destruct (Hend p ltac:(lia)) as [Hrunp _].
  replace fuel with (p + (fuel - p))%nat by lia.
  by apply while_true_mono.
Qed.

(** X7: the fetch has no bound of its own on the number of pages. As long
    as every page is successful and not empty, has no timestamp that fails
    to parse, and ends on a record that is undated or not older than
    [since_date], the loop is still running after any number of
    iterations, having requested one page per iteration. *)
Theorem fetch_runs_on fuel :
  (∀ p, (1 ≤ p ≤ fuel)%nat →
        status_code (server p) = 200 ∧
        json (server p) ≠ [] ∧
        Forall (λ i, malformed i = false) (json (server p)) ∧
        ∀ l s, last (json (server p)) = Some l →
               truthy (Issue.closed_at l) = Some s →
               ∃ d, strptime s wire_format = Some d ∧
                    datetime_lt d since_date = false) →
  ∃ st, get_closed_issues fuel = Running st ∧
        requests st = seq 1 fuel ∧ page st = S fuel.
Proof.
  intros Hall. unfold get_closed_issues.
  destruct (while_true_spec strptime server since_date until_date fuel initial)
    as (j & Hj & Hmore & Hout).
  assert (∀ q, (1 ≤ q ≤ fuel)%nat → classify q = More) as Hm.
  { intros q Hq. destruct (Hall q Hq) as (? & ? & ? & ?). by apply classify_more. }
  destruct (while_true _ _) as [st|e log|st].
  - destruct Hout as (Hlt & Hstop & _). apply not_a_stop in Hstop.
    simpl in Hstop. by rewrite (Hm (S j)) in Hstop by lia.
  - destruct Hout as (Hlt & Herr & _). simpl in Herr.
    by rewrite (Hm (S j)) in Herr by lia.
  - destruct Hout as [-> ->]. by eexists.
Qed.
End FetchMore.


(** ** The console report *)

Section Sorting.
Context {K : Type}.
Implicit Types (x : K * Z) (l : list (K * Z)).

Lemma insert_by_count_Permutation x l : insert_by_count x l ≡ₚ x :: l.
Proof.
  induction l as [|y l IH]; simpl; [done|].
  destruct (y.2 <? x.2); [done|]. by rewrite IH, Permutation_swap.
Qed.

Lemma foldl_insert_by_count_Permutation l acc :
  foldl (λ acc x, insert_by_count x acc) acc l ≡ₚ acc ++ l.
Proof.
  revert acc. induction l as [|x l IH]; intros acc; simpl.
  { by rewrite app_nil_r. }
  rewrite IH, insert_by_count_Permutation. simpl. apply Permutation_middle.
Qed.

Lemma sorted_by_count_Permutation l : sorted_by_count l ≡ₚ l.
Proof. apply (foldl_insert_by_count_Permutation l []). Qed.

Lemma insert_by_count_sorted x l :
  StronglySorted by_count_desc l →
  StronglySorted by_count_desc (insert_by_count x l).
Proof.
  induction 1 as [|y l Hl IH Hy]; simpl; [repeat constructor|].
  destruct (Z.ltb_spec (y.2) (x.2)) as [Hlt|Hge].
  - constructor; [by constructor|]. constructor; [unfold by_count_desc; lia|].
    eapply Forall_impl; [exact Hy|]. unfold by_count_desc. intros; lia.
  - constructor; [done|]. rewrite insert_by_count_Permutation.
    constructor; [done|done].
Qed.

Lemma sorted_by_count_sorted l : StronglySorted by_count_desc (sorted_by_count l).
Proof.
  unfold sorted_by_count.
  assert (∀ acc, StronglySorted by_count_desc acc →
                 StronglySorted by_count_desc
                   (foldl (λ acc x, insert_by_count x acc) acc l)) as Hgen.
  { induction l as [|x l IH]; intros acc Hacc; simpl; [done|].
    by apply IH, insert_by_count_sorted. }
  apply Hgen. constructor.
Qed.

(** The first [n] of the sorted items, and what is left out: nothing left
    out has a larger count than anything shown. *)
Lemma top_by_count n l :
  let shown := take n (sorted_by_count l) in
  let rest := drop n (sorted_by_count l) in
  shown ++ rest ≡ₚ l ∧
  length shown = (n `min` length l)%nat ∧
  StronglySorted by_count_desc shown ∧
  ∀ x y, x ∈ shown → y ∈ rest → y.2 ≤ x.2.
Proof.
  cbv zeta. pose proof (sorted_by_count_sorted l) as Hs.
  rewrite <-(take_drop n (sorted_by_count l)) in Hs.
  apply StronglySorted_app in Hs as (Hcross & Hshown & _).
  split; [by rewrite take_drop, sorted_by_count_Permutation|].
  split; [by rewrite length_take, sorted_by_count_Permutation|].
  split; [done|]. intros x y Hx Hy. by apply Hcross.
Qed.
End Sorting.

Lemma string_compare_refl s : String.compare s s = Eq.
Proof.
  pose proof (String.compare_antisym s s) as H.
  by destruct (String.compare s s).
Qed.

Lemma item_le_spec x y :
  item_le x y = true ↔ String.le x.1 y.1 ∧ (x.1 = y.1 → x.2 ≤ y.2).
Proof.
  unfold item_le, String.le, String.leb.
  destruct (String.compare x.1 y.1) eqn:Hc.
  - apply String.compare_eq_iff in Hc. rewrite Z.leb_le. split.
    + intros Hle. split; [done|]. by intros _.
    + intros [_ Hle]. by apply Hle.
  - split; [|done]. intros _. split; [done|]. intros Heq.
    rewrite Heq, string_compare_refl in Hc. discriminate.
  - split; [done|]. by intros [[] _].
Qed.

Global Instance item_order_trans : Transitive item_order.
Proof.
  intros x y z. unfold item_order. rewrite !item_le_spec.
  intros [Hxy Hxy'] [Hyz Hyz']. split; [by etrans|].
  intros Hxz. rewrite Hxz in Hxy.
  assert (y.1 = z.1) as Hy by (by apply (anti_symm String.le)).
  specialize (Hyz' Hy). rewrite <-Hxz in Hy. specialize (Hxy' (eq_sym Hy)). lia.
Qed.

Lemma item_le_total x y : item_le y x = false → item_le x y = true.
Proof.
  intros Hf. apply item_le_spec.
  destruct (total String.le x.1 y.1) as [Hle|Hle].
  - split; [done|]. intros Heq.
    destruct (Z.le_gt_cases x.2 y.2) as [|Hgt]; [done|].
    assert (item_le y x = true); [|congruence].
    apply item_le_spec. rewrite Heq. split; [done|]. lia.
  - destruct (decide (x.1 = y.1)) as [Heq|Hne].
    + split; [by rewrite Heq|]. intros _.
      destruct (Z.le_gt_cases x.2 y.2) as [|Hgt]; [done|].
      assert (item_le y x = true); [|congruence].
      apply item_le_spec. split; [done|]. lia.
    + assert (item_le y x = true); [|congruence].
      apply item_le_spec. split; [done|]. congruence.
Qed.

Lemma insert_item_Permutation x l : insert_item x l ≡ₚ x :: l.
Proof.
  induction l as [|y l IH]; simpl; [done|].
  destruct (item_le y x); [|done]. by rewrite IH, Permutation_swap.
Qed.

Lemma sorted_items_Permutation l : sorted_items l ≡ₚ l.
Proof.
  unfold sorted_items.
  assert (∀ acc, foldl (λ acc x, insert_item x acc) acc l ≡ₚ acc ++ l) as Hgen.
  { induction l as [|x l IH]; intros acc; simpl; [by rewrite app_nil_r|].
    rewrite IH, insert_item_Permutation. simpl. apply Permutation_middle. }
  apply (Hgen []).
Qed.

Lemma insert_item_sorted x l :
  StronglySorted item_order l → StronglySorted item_order (insert_item x l).
Proof.
  induction 1 as [|y l Hl IH Hy]; simpl; [repeat constructor|].
  destruct (item_le y x) eqn:Hyx.
  - constructor; [done|]. rewrite insert_item_Permutation. by constructor.
  - apply item_le_total in Hyx. constructor; [by constructor|].
    constructor; [done|]. eapply Forall_impl; [exact Hy|].
    intros z Hz. by etrans.
Qed.

Lemma sorted_items_sorted l : StronglySorted item_order (sorted_items l).
Proof.
  unfold sorted_items.
  assert (∀ acc, StronglySorted item_order acc →
                 StronglySorted item_order
                   (foldl (λ acc x, insert_item x acc) acc l)) as Hgen.
  { induction l as [|x l IH]; intros acc Hacc; simpl; [done|].
    by apply IH, insert_item_sorted. }
  apply Hgen. constructor.
Qed.

(** With distinct keys the order of the tuples is the strict order of the
    keys. *)
Lemma sorted_items_keys l :
  NoDup l.*1 → StronglySorted key_lt (sorted_items l).
Proof.
  intros Hnd. rewrite <-(sorted_items_Permutation l) in Hnd.
  pose proof (sorted_items_sorted l) as Hs.
  induction Hs as [|x l' Hl IH Hx]; [constructor|].
  rewrite fmap_cons in Hnd. apply NoDup_cons in Hnd as [Hx' Hnd].
  constructor; [by apply IH|].
  apply Forall_forall. intros y Hy.
  rewrite Forall_forall in Hx. specialize (Hx y Hy).
  unfold item_order, item_le, key_lt in *.
  destruct (String.compare x.1 y.1) eqn:Hc; [|done..].
  apply String.compare_eq_iff in Hc. destruct Hx'.
  rewrite Hc. by apply list_elem_of_fmap_2.
Qed.

Lemma top_of_sorted {K} n (l items : list (K * Z)) :
  l ≡ₚ items → top_of n (take n (sorted_by_count l)) items.
Proof.
  intros Hperm. destruct (top_by_count n l) as (Hp & Hlen & Hs & Hcross).
  exists (drop n (sorted_by_count l)).
  split; [by rewrite Hp|]. split; [by rewrite Hlen, Hperm|]. done.
Qed.

Lemma sorted_by_count_nonempty {K} n (l : list (K * Z)) :
  l ≠ [] → take (S n) (sorted_by_count l) ≠ [].
Proof.
  intros Hne Hnil. apply Hne.
  assert (sorted_by_count l = []) as Hs.
  { destruct (sorted_by_count l); [done|discriminate]. }
  symmetry. apply Permutation_nil_l.
  rewrite <-Hs. apply sorted_by_count_Permutation.
Qed.

Section ConsoleFacts.
Variable F : Type.
Variable truediv : Z → Z → F.
Variable times : F → Z → F.

Local Abbreviation share_rows := (share_rows F truediv times).
Local Abbreviation _print_console_report :=
  (_print_console_report F truediv times).

(** With a total that is not 0 no division fails: one row per item, in
    order, each with its share of the total. *)
Lemma share_rows_nonzero total items :
  total ≠ 0 →
  ∃ rows, share_rows total items = Some rows ∧
          row_item <$> rows = items ∧
          Forall (λ r, row_percentage r
                       = times (truediv (row_count r) total) 100) rows.
Proof.
  intros Hne. induction items as [|[name count] items (rows & IH & Hitems & Hp)].
  { exists []. by repeat split. }
  eexists. simpl share_rows at 1. unfold percentage.
  destruct (Z.eqb_spec total 0); [done|]. rewrite IH.
  split; [done|]. split; [by rewrite fmap_cons, Hitems|]. by constructor.
Qed.

(** With a total of 0 the first row raises. *)
Lemma share_rows_zero items : items ≠ [] → share_rows 0 items = None.
Proof. by destruct items as [|[name count] items]. Qed.

Local Abbreviation guarded_rows := (guarded_rows F truediv times).

(** The report, section by section. *)
Lemma print_console_report_sections (o : dict_order) (a : analysis F) :
  _print_console_report o a =
  match guarded_rows (total_count a) sorted_by_count (label_items o) with
  | None => None
  | Some labels =>
    match guarded_rows (total_count a) (λ l, take 10 (sorted_by_count l))
            (assignee_items o) with
    | None => None
    | Some assignees =>
      match guarded_rows (total_count a) (λ l, take 10 (sorted_by_count l))
              (author_items o) with
      | None => None
      | Some authors =>
        match guarded_rows (total_count a)
                (λ l, (λ kv, (combo_str kv.1, kv.2))
                        <$> take 10 (sorted_by_count l))
                (combination_items o) with
        | None => None
        | Some combos =>
          Some {| shown_total := total_count a;
                  shown_average := avg_days_to_close a;
                  label_rows := labels;
                  assignee_rows := assignees;
                  author_rows := authors;
                  month_rows := sorted_items (month_items o);
                  combination_rows := combos |}
        end
      end
    end
  end.
Proof.
  unfold _print_console_report, guarded_rows.
  destruct (label_items o), (assignee_items o), (author_items o),
    (month_items o), (combination_items o); reflexivity.
Qed.

Lemma guarded_rows_some {A} total (select : list A → list (string * Z)) items :
  total ≠ 0 ∨ items = [] →
  select [] = [] →
  ∃ rows, guarded_rows total select items = Some rows ∧
          row_item <$> rows = select items ∧
          Forall (λ r, row_percentage r
                       = times (truediv (row_count r) total) 100) rows.
Proof.
  intros [Hne| ->] Hnil.
  - destruct (share_rows_nonzero total (select items) Hne)
      as (rows & Hrows & Hitems & Hp).
    exists rows. split; [|done]. unfold guarded_rows.
    destruct items; [|done]. rewrite Hnil in *. simpl in Hrows. by rewrite Hrows.
  - exists []. rewrite Hnil. by repeat split.
Qed.

Lemma guarded_rows_none {A} (select : list A → list (string * Z)) items :
  items ≠ [] → select items ≠ [] → guarded_rows 0 select items = None.
Proof.
  intros Hne Hsel. unfold guarded_rows. destruct items; [done|].
  by apply share_rows_zero.
Qed.

(** With a [total_count] of 0 and a dictionary that is not empty the
    report raises. *)
Lemma console_report_none (o : dict_order) (a : analysis F) :
  total_count a = 0 →
  label_items o ≠ [] ∨ assignee_items o ≠ [] ∨ author_items o ≠ [] ∨
  combination_items o ≠ [] →
  _print_console_report o a = None.
Proof.
  intros Hz Hne. rewrite print_console_report_sections, Hz.
  destruct (decide (label_items o = [])) as [El|Hl].
  2:{ rewrite guarded_rows_none; [done..|].
      intros Hs. apply Hl. symmetry. apply Permutation_nil_l.
      rewrite <-Hs. apply sorted_by_count_Permutation. }
  rewrite El.
  destruct (decide (assignee_items o = [])) as [Eas|Has].
  2:{ rewrite (guarded_rows_none _ (assignee_items o));
        [done..|by apply sorted_by_count_nonempty]. }
  rewrite Eas.
  destruct (decide (author_items o = [])) as [Eau|Hau].
  2:{ rewrite (guarded_rows_none _ (author_items o));
        [done..|by apply sorted_by_count_nonempty]. }
  rewrite Eau.
  destruct (decide (combination_items o = [])) as [Ec|Hc].
  { by destruct Hne as [H|[H|[H|H]]]. }
  rewrite (guarded_rows_none _ (combination_items o)); [done..|].
  intros Hs. apply fmap_nil_inv in Hs.
  by apply (sorted_by_count_nonempty 9 (combination_items o)).
Qed.

(** Otherwise it is printed, with these sections. *)
Lemma console_report_some (o : dict_order) (a : analysis F) :
  total_count a ≠ 0 ∨
  (label_items o = [] ∧ assignee_items o = [] ∧ author_items o = [] ∧
   combination_items o = []) →
  ∃ r, _print_console_report o a = Some r ∧
    shown_total r = total_count a ∧
    shown_average r = avg_days_to_close a ∧
    row_item <$> label_rows r = sorted_by_count (label_items o) ∧
    row_item <$> assignee_rows r = take 10 (sorted_by_count (assignee_items o)) ∧
    row_item <$> author_rows r = take 10 (sorted_by_count (author_items o)) ∧
    month_rows r = sorted_items (month_items o) ∧
    row_item <$> combination_rows r
    = (λ kv, (combo_str kv.1, kv.2))
        <$> take 10 (sorted_by_count (combination_items o)) ∧
    Forall (λ r, row_percentage r
                 = times (truediv (row_count r) (total_count a)) 100)
           (label_rows r ++ assignee_rows r ++ author_rows r
            ++ combination_rows r).
Proof.
  intros Hok. rewrite print_console_report_sections.
  destruct (guarded_rows_some (total_count a) sorted_by_count (label_items o))
    as (labels & -> & Hl & Hlp); [destruct Hok as [?|(?&?&?&?)]; [by left|by right]|done|].
  destruct (guarded_rows_some (total_count a)
              (λ l, take 10 (sorted_by_count l)) (assignee_items o))
    as (assignees & -> & Has & Hasp); [destruct Hok as [?|(?&?&?&?)]; [by left|by right]|done|].
  destruct (guarded_rows_some (total_count a)
              (λ l, take 10 (sorted_by_count l)) (author_items o))
    as (authors & -> & Hau & Haup); [destruct Hok as [?|(?&?&?&?)]; [by left|by right]|done|].
  destruct (guarded_rows_some (total_count a)
              (λ l, (λ kv, (combo_str kv.1, kv.2))
                      <$> take 10 (sorted_by_count l)) (combination_items o))
    as (combos & -> & Hc & Hcp); [destruct Hok as [?|(?&?&?&?)]; [by left|by right]|done|].
  eexists. split; [done|]. cbn.
  do 7 (split; [done|]). by rewrite !Forall_app.
Qed.

Lemma console_report_inv (o : dict_order) (a : analysis F) r :
  _print_console_report o a = Some r →
  total_count a ≠ 0 ∨
  (label_items o = [] ∧ assignee_items o = [] ∧ author_items o = [] ∧
   combination_items o = []).
Proof.
  intros Hr. destruct (decide (total_count a = 0)) as [Hz|]; [|by left].
  right. destruct (decide (label_items o = [])) as [Hl|Hl].
  2:{ rewrite console_report_none in Hr; [done..|by left]. }
  destruct (decide (assignee_items o = [])) as [Has|Has].
  2:{ rewrite console_report_none in Hr; [done..|by right; left]. }
  destruct (decide (author_items o = [])) as [Hau|Hau].
  2:{ rewrite console_report_none in Hr; [done..|by right; right; left]. }
  destruct (decide (combination_items o = [])) as [Hc|Hc]; [done|].
  rewrite console_report_none in Hr; [done..|by right; right; right].
Qed.
End ConsoleFacts.

Lemma enumerates_map_order {F} (a : analysis F) : enumerates (map_order a) a.
Proof. by repeat split. Qed.

(** The analysis of the empty list has empty dictionaries, whatever their
    order. *)
Lemma enumerates_empty strptime strftime F truediv round l (a : analysis F) o :
  analyze_issues strptime strftime F truediv round l = inr a →
  enumerates o a →
  total_count a = Z.of_nat (length l) ∧
  (total_count a = 0 →
   label_items o = [] ∧ assignee_items o = [] ∧ author_items o = [] ∧
   combination_items o = []).
Proof.
  intros Ha (Hl & Has & Hau & _ & Hc).
  apply analyze_issues_inr in Ha as (st & Hrun & ->).
  destruct (finish_fields F truediv round l st)
    as (Ht & El & Eas & Eau & _ & _ & Ec & _). cbv zeta in *.
  destruct (for_issues_total_count _ _ _ _ _ _ Hrun) as [Ht' _].
  rewrite Ht, Ht'. split; [done|]. cbn [analysis0 result total_count].
  intros Hz. assert (l = []) as -> by (destruct l; [done|simpl in Hz; lia]).
  simpl in Hrun. injection Hrun as <-.
  rewrite El in Hl. rewrite Eas in Has. rewrite Eau in Hau. rewrite Ec in Hc.
  cbn [analysis0 result by_label by_assignee by_author labels_combinations]
    in Hl, Has, Hau, Hc.
  rewrite map_to_list_empty in Hl, Has, Hau. rewrite map_to_list_empty in Hc.
  apply Permutation_nil_r in Hl, Has, Hau. apply Permutation_nil_r in Hc.
  done.
Qed.

(** X8: the console report raises [ZeroDivisionError] exactly when
    [total_count] is 0 while one of the dictionaries with a percentage
    column ([by_label], [by_assignee], [by_author], [labels_combinations])
    is not empty; [by_month] has no such column and never makes it
    raise. *)
Theorem console_report_zero_division F truediv times o (a : analysis F) :
  _print_console_report F truediv times o a = None ↔
  total_count a = 0 ∧
  (label_items o ≠ [] ∨ assignee_items o ≠ [] ∨ author_items o ≠ [] ∨
   combination_items o ≠ []).
Proof.
  split.
  - intros Hnone.
    destruct (decide (total_count a = 0)) as [Hz|Hnz].
    + split; [done|].
      destruct (decide (label_items o = [])) as [El|]; [|by left].
      destruct (decide (assignee_items o = [])) as [Eas|]; [|by right; left].
      destruct (decide (author_items o = [])) as [Eau|]; [|by right; right; left].
      destruct (decide (combination_items o = [])) as [Ec|];
        [|by right; right; right].
      destruct (console_report_some F truediv times o a) as (r & Hr & _);
        [by right|congruence].
    + destruct (console_report_some F truediv times o a) as (r & Hr & _);
        [by left|congruence].
  - intros [Hz Hne]. by apply console_report_none.
Qed.

(** X9: on the analysis that [analyze_issues] returns for a list of
    issues, whatever the list and whatever the order of the dictionaries,
    the console report raises nothing; it shows the length of the list as
    total and the average of the analysis. *)
Theorem console_report_of_analysis
    strptime strftime F truediv round times l (a : analysis F) o :
  analyze_issues strptime strftime F truediv round l = inr a →
  enumerates o a →
  ∃ r, _print_console_report F truediv times o a = Some r ∧
       shown_total r = Z.of_nat (length l) ∧
       shown_average r = avg_days_to_close a.
Proof.
  intros Ha Ho.
  destruct (enumerates_empty _ _ _ _ _ _ _ _ Ha Ho) as [Ht Hz].
  destruct (console_report_some F truediv times o a) as (r & Hr & Hrt & Hra & _).
  { destruct (decide (total_count a = 0)); [right; by apply Hz|by left]. }
  exists r. split; [done|]. split; [congruence|done].
Qed.

Lemma console_report_of_analysis_witness :
  ∃ a r,
    analyze_issues PyRef.strptime PyRef.strftime PyRef.float
      PyRef.truediv PyRef.round
      [Example.bug_issue; Example.ui_issue; Example.plain_issue] = inr a ∧
    _print_console_report PyRef.float
      PyRef.truediv Sample.times (map_order a) a = Some r ∧
    shown_total r = 3.
Proof.
  destruct (analyze_issues PyRef.strptime PyRef.strftime PyRef.float
    PyRef.truediv
              PyRef.round
              [Example.bug_issue; Example.ui_issue; Example.plain_issue])
    as [e|a] eqn:Ha; [vm_compute in Ha; discriminate|].
  destruct (console_report_of_analysis PyRef.strptime PyRef.strftime PyRef.float
              PyRef.truediv PyRef.round Sample.times _ a (map_order a) Ha
              (enumerates_map_order a)) as (r & Hr & Ht & _).
  by exists a, r.
Defined.

Lemma top_of_all {K} (l items : list (K * Z)) :
  l ≡ₚ items →
  sorted_by_count l ≡ₚ items ∧ StronglySorted by_count_desc (sorted_by_count l).
Proof.
  intros Hperm. split; [by rewrite sorted_by_count_Permutation|].
  apply sorted_by_count_sorted.
Qed.

(** X10: when the console report is printed, the label section lists
    every label of [by_label] once, larger counts first; the assignee and
    author sections list [min(10, size)] entries of largest count, larger
    counts first, and no entry left out has a larger count than one that
    is listed; the combination section does the same with the tuples
    turned into text; every percentage is the count divided by
    [total_count], times 100. *)
Theorem console_report_ranking F truediv times o (a : analysis F) r :
  _print_console_report F truediv times o a = Some r →
  enumerates o a →
  row_item <$> label_rows r ≡ₚ map_to_list (by_label a) ∧
  StronglySorted by_count_desc (row_item <$> label_rows r) ∧
  top_of 10 (row_item <$> assignee_rows r) (map_to_list (by_assignee a)) ∧
  top_of 10 (row_item <$> author_rows r) (map_to_list (by_author a)) ∧
  (∃ shown,
     top_of 10 shown (map_to_list (labels_combinations a)) ∧
     row_item <$> combination_rows r
     = (λ kv, (combo_str kv.1, kv.2)) <$> shown) ∧
  Forall (λ r, row_percentage r
               = times (truediv (row_count r) (total_count a)) 100)
         (label_rows r ++ assignee_rows r ++ author_rows r
          ++ combination_rows r).
Proof.
  intros Hr (Hl & Has & Hau & _ & Hc).
  pose proof (console_report_inv F truediv times o a r Hr) as Hok.
  destruct (console_report_some F truediv times o a Hok)
    as (r' & Hr' & _ & _ & El & Eas & Eau & _ & Ec & Hp).
  rewrite Hr in Hr'. injection Hr' as <-.
  rewrite El, Eas, Eau, Ec.
  destruct (top_of_all _ _ Hl) as [Hlp Hls].
  split; [done|]. split; [done|].
  split; [by apply top_of_sorted|]. split; [by apply top_of_sorted|].
  split; [|done]. eexists. split; [by apply top_of_sorted|done].
Qed.

Lemma console_report_ranking_witness :
  match analyze_issues PyRef.strptime PyRef.strftime PyRef.float PyRef.truediv
          PyRef.round
          [Example.bug_issue; Example.ui_issue; Example.plain_issue] with
  | inr a =>
    match _print_console_report PyRef.float
      PyRef.truediv Sample.times Sample.order3 a with
    | Some r =>
      row_item <$> assignee_rows r
      = [("alice", 2); ("bob", 1); ("unassigned", 1)] ∧
      top_of 10 (row_item <$> assignee_rows r) (map_to_list (by_assignee a))
    | None => False
    end
  | inl _ => False
  end.
Proof.
  destruct (analyze_issues _ _ _ _ _ _) as [e|a] eqn:Ha;
    [vm_compute in Ha; discriminate|].
  assert (Ha' := Ha). vm_compute in Ha'. injection Ha' as Ea.
  assert (enumerates Sample.order3 a) as Ho.
  { subst a. repeat split; apply (bool_decide_unpack _); vm_compute; reflexivity. }
  destruct (_print_console_report _ _ _ _ a) as [r|] eqn:Hr.
  2:{ subst a. vm_compute in Hr. discriminate. }
  split.
  - subst a. vm_compute in Hr. injection Hr as <-. reflexivity.
  - apply (console_report_ranking PyRef.float PyRef.truediv Sample.times
             Sample.order3 a r Hr Ho).
Defined.

(** X11: when the console report is printed, its month section lists
    every key of [by_month] once with its count, in strictly ascending
    order of the keys. *)
Theorem console_report_months F truediv times o (a : analysis F) r :
  _print_console_report F truediv times o a = Some r →
  enumerates o a →
  month_rows r ≡ₚ map_to_list (by_month a) ∧
  StronglySorted key_lt (month_rows r).
Proof.
  intros Hr (_ & _ & _ & Hm & _).
  pose proof (console_report_inv F truediv times o a r Hr) as Hok.
  destruct (console_report_some F truediv times o a Hok)
    as (r' & Hr' & _ & _ & _ & _ & _ & Em & _).
  rewrite Hr in Hr'. injection Hr' as <-. rewrite Em.
  split; [by rewrite sorted_items_Permutation|].
  apply sorted_items_keys. rewrite Hm. apply NoDup_fst_map_to_list.
Qed.

Lemma console_report_months_witness :
  match analyze_issues PyRef.strptime PyRef.strftime PyRef.float PyRef.truediv
          PyRef.round
          [Example.bug_issue; Example.ui_issue; Example.plain_issue] with
  | inr a =>
    match _print_console_report PyRef.float
      PyRef.truediv Sample.times Sample.order3 a with
    | Some r =>
      month_rows r = [("2024-01", 2); ("2024-02", 1)] ∧
      StronglySorted key_lt (month_rows r)
    | None => False
    end
  | inl _ => False
  end.
Proof.
  destruct (analyze_issues _ _ _ _ _ _) as [e|a] eqn:Ha;
    [vm_compute in Ha; discriminate|].
  assert (Ha' := Ha). vm_compute in Ha'. injection Ha' as Ea.
  assert (enumerates Sample.order3 a) as Ho.
  { subst a. repeat split; apply (bool_decide_unpack _); vm_compute; reflexivity. }
  destruct (_print_console_report _ _ _ _ a) as [r|] eqn:Hr.
  2:{ subst a. vm_compute in Hr. discriminate. }
  split.
  - subst a. vm_compute in Hr. injection Hr as <-. reflexivity.
  - apply (console_report_months PyRef.float PyRef.truediv Sample.times
             Sample.order3 a r Hr Ho).
Defined.

(** ** How the functions of the analyzer compose *)

Section Pipeline.
Variable strptime : string → string → option datetime.
Variable strftime : datetime → string → string.
Variable F : Type.
Variable truediv : Z → Z → F.
Variable round : F → Z → F.

Local Abbreviation parse_times := (parse_times strptime).
Local Abbreviation parses := (parses strptime).
Local Abbreviation for_issues := (for_issues strptime strftime F).
Local Abbreviation analyze_issues :=
  (analyze_issues strptime strftime F truediv round).

(** The loop raises at the first issue with a timestamp that does not
    parse. *)
Lemma for_issues_inl l st e :
  for_issues l st = inl e →
  ∃ l1 i l2, l = l1 ++ i :: l2 ∧ Forall (λ j, parses j = true) l1 ∧
             parse_times i = inl e.
Proof.
  revert st. induction l as [|i l IH]; intros st; simpl; [done|].
  unfold loop_step. destruct (parse_times i) as [e'|[c d]] eqn:Hp.
  - intros [= <-]. by exists [], i, l.
  - intros (l1 & j & l2 & -> & Hl1 & Hj)%IH.
    exists (i :: l1), j, l2. split; [done|]. split; [|done].
    constructor; [|done]. unfold parses. by rewrite Hp.
Qed.

Lemma parse_times_inl i e :
  parse_times i = inl e →
  (strptime (Issue.created_at i) wire_format = None ∧
   e = ValueError (Issue.created_at i)) ∨
  (is_Some (strptime (Issue.created_at i) wire_format) ∧
   ((Issue.closed_at i = None ∧ Issue.has_closed_at i = false ∧
     e = KeyError "closed_at") ∨
    (Issue.closed_at i = None ∧ Issue.has_closed_at i = true ∧
     e = TypeError) ∨
    ∃ s, Issue.closed_at i = Some s ∧ strptime s wire_format = None ∧
         e = ValueError s)).
Proof.
  unfold parse_times.
  destruct (strptime (Issue.created_at i) wire_format) as [c|].
  2:{ intros [= <-]. by left. }
  intros He. right. split; [done|].
  destruct (Issue.closed_at i) as [s|].
  2:{ destruct (Issue.has_closed_at i); injection He as <-;
        [right; by left|by left]. }
  destruct (strptime s wire_format) as [d|] eqn:Hs; [done|].
  injection He as <-. right. right. by exists s.
Qed.

End Pipeline.

Section AnalyzeMore.
Variable strptime : string → string → option datetime.
Variable strftime : datetime → string → string.
Variable F : Type.
Variable truediv : Z → Z → F.
Variable round : F → Z → F.

Local Abbreviation parses := (parses strptime).
Local Abbreviation for_issues := (for_issues strptime strftime F).
Local Abbreviation analyze_issues :=
  (analyze_issues strptime strftime F truediv round).

Lemma for_issues_by_label :
  ∀ l st st', for_issues l st = inr st' →
  (∀ k, get (by_label (result st')) k
        = get (by_label (result st)) k
          + sumZ (λ i, countZ (λ x, bool_decide (x = k)) (Issue.labels i)) l) ∧
  sum_values (by_label (result st'))
  = sum_values (by_label (result st))
    + sumZ (λ i, Z.of_nat (length (Issue.labels i))) l.
Proof.
  apply for_issues_ind.
  { intros st. split; [intros k|]; simpl; lia. }
  intros i l st c d st' Hp _ [IHk IHs]. split.
  - intros k. rewrite IHk. cbn [tally result by_label sumZ foldr].
    rewrite get_foldl_incr. unfold sumZ. lia.
  - rewrite IHs. cbn [tally result by_label sumZ foldr].
    rewrite sum_values_foldl_incr. unfold sumZ. lia.
Qed.

(** X1: for every list of issues whose timestamps parse, [by_label]
    counts under each label the times it occurs in the label lists of the
    issues, and the values sum to the number of labels of all issues
    together; an issue with two labels is counted under both. *)
Theorem by_label_counts l :
  Forall (λ i, parses i = true) l →
  ∃ a, analyze_issues l = inr a ∧
    (∀ k, get (by_label a) k
          = sumZ (λ i, countZ (λ x, bool_decide (x = k)) (Issue.labels i)) l) ∧
    sum_values (by_label a) = sumZ (λ i, Z.of_nat (length (Issue.labels i))) l.
Proof.
  intros Hl.
  destruct (analyze_issues_total strptime strftime F truediv round l Hl)
    as (st & Hrun & Ha).
  eexists. split; [exact Ha|].
  destruct (finish_fields F truediv round l st) as (_ & -> & _).
  destruct (for_issues_by_label _ _ _ Hrun) as [Hk ->].
  cbn [analysis0 result by_label]. rewrite sum_values_empty.
  split; [|lia]. intros k. rewrite Hk. cbn [analysis0 result by_label].
  rewrite get_empty. lia.
Qed.

Lemma sorted_eq_iff l1 l2 : sorted l1 = sorted l2 ↔ l1 ≡ₚ l2.
Proof.
  split; [|apply sorted_canonical].
  intros Heq. by rewrite <-(sorted_Permutation l1), Heq, sorted_Permutation.
Qed.

(** X2: the key of a label combination does not depend on the order of
    the labels. For every list of issues whose timestamps parse and every
    non-empty list of labels, the count under the sorted tuple of these
    labels is the number of issues whose labels are a permutation of
    them. *)
Theorem combination_key_canonical l ls :
  Forall (λ i, parses i = true) l →
  ls ≠ [] →
  ∃ a, analyze_issues l = inr a ∧
    get (labels_combinations a) (sorted ls)
    = countZ (λ i, bool_decide (Issue.labels i ≡ₚ ls)) l.
Proof.
  intros Hl Hne.
  destruct (analyze_issues_total strptime strftime F truediv round l Hl)
    as (st & Hrun & Ha).
  eexists. split; [exact Ha|].
  destruct (finish_fields F truediv round l st)
    as (_ & _ & _ & _ & _ & _ & -> & _).
  destruct (for_issues_labels_combinations _ _ _ _ _ _ Hrun) as (-> & _).
  cbn [analysis0 result labels_combinations]. rewrite get_empty, Z.add_0_l.
  unfold countZ. f_equal. f_equal. apply filter_ext. intros i.
  unfold combo_of. destruct (Issue.labels i) as [|x ls'] eqn:Hi.
  - rewrite bool_decide_eq_false_2; [done|].
    intros Hp. apply Hne. by apply Permutation_nil_l in Hp.
  - by rewrite (bool_decide_ext _ _ (sorted_eq_iff (x :: ls') ls)).
Qed.
End AnalyzeMore.

Lemma by_label_counts_witness :
  ∃ a,
    analyze_issues PyRef.strptime PyRef.strftime PyRef.float
      PyRef.truediv PyRef.round
      [Example.bug_issue; Example.ui_issue; Example.plain_issue] = inr a ∧
    get (by_label a) "bug" = 2 ∧ get (by_label a) "ui" = 1 ∧
    sum_values (by_label a) = 3.
Proof.
  destruct (by_label_counts PyRef.strptime PyRef.strftime PyRef.float
    PyRef.truediv
              PyRef.round
              [Example.bug_issue; Example.ui_issue; Example.plain_issue])
    as (a & Ha & Hk & Hs).
  - repeat (constructor; [vm_compute; reflexivity|]). constructor.
  - exists a. split; [exact Ha|]. by rewrite !Hk, Hs.
Defined.

Lemma combination_key_canonical_witness :
  ∃ a,
    analyze_issues PyRef.strptime PyRef.strftime PyRef.float
      PyRef.truediv PyRef.round
      [Example.bug_issue; Example.ui_issue; Example.plain_issue] = inr a ∧
    get (labels_combinations a) (sorted ["ui"; "bug"]) = 1 ∧
    sorted ["ui"; "bug"] = ["bug"; "ui"].
Proof.
  destruct (combination_key_canonical PyRef.strptime PyRef.strftime PyRef.float
              PyRef.truediv PyRef.round
              [Example.bug_issue; Example.ui_issue; Example.plain_issue]
              ["ui"; "bug"])
    as (a & Ha & Hk).
  - repeat (constructor; [vm_compute; reflexivity|]). constructor.
  - discriminate.
  - exists a. split; [exact Ha|]. split; [|reflexivity].
    rewrite Hk. vm_compute. reflexivity.
Defined.

(** What is returned passed the filter. *)
Lemma returned_accepted strptime server since until fuel st :
  get_closed_issues strptime server since until fuel = Returned st →
  Forall (λ i, accepts strptime since until i = true) (issues st).
Proof.
  unfold get_closed_issues. intros Hrun.
  destruct (while_true_spec strptime server since until fuel initial)
    as (j & _ & _ & Hout).
  rewrite Hrun in Hout. destruct Hout as (_ & _ & ->).
  assert (Forall (λ i, accepts strptime since until i = true)
            (issues (advance strptime server since until initial j))) as Hadv.
  { simpl. apply Forall_flat_map. apply accepted_accepts. }
  destruct (classify _ _ _ _ _); simpl in *; try done.
  apply Forall_app. split; [done|apply accepted_accepts].
Qed.

(** X4: the list that [get_closed_issues] returns can be analysed as far
    as its closing timestamps go. [analyze_issues] on it either returns
    an analysis of all its issues, or raises the [ValueError] of a
    [created_at] that does not parse; it never raises for a missing or
    malformed [closed_at]. *)
Theorem fetch_then_analyze
    strptime strftime F truediv round server since until fuel st :
  get_closed_issues strptime server since until fuel = Returned st →
  match analyze_issues strptime strftime F truediv round (issues st) with
  | inr a => total_count a = Z.of_nat (length (issues st))
  | inl e =>
    ∃ i, i ∈ issues st ∧
         strptime (Issue.created_at i) wire_format = None ∧
         e = ValueError (Issue.created_at i)
  end.
Proof.
  intros Hrun. apply returned_accepted in Hrun.
  unfold analyze_issues.
  destruct (for_issues _ _ _ (issues st) _) as [e|st'] eqn:Hloop.
  - apply for_issues_inl in Hloop as (l1 & i & l2 & Hl & _ & Hi).
    rewrite Hl in Hrun. apply Forall_app in Hrun as [_ Hrun].
    apply Forall_cons_1 in Hrun as [Hacc _].
    apply accepts_spec in Hacc as (_ & s & d & Hs & _ & Hd & _).
    exists i. split.
    { rewrite Hl. apply elem_of_app. right. apply elem_of_cons. by left. }
    apply parse_times_inl in Hi
      as [[? ?]|[_ [[Hnone _]|[[Hnone _]|(s' & Hs' & Hd' & _)]]]];
      [done|congruence..].
  - destruct (finish_fields F truediv round (issues st) st') as (-> & _).
    by destruct (for_issues_total_count _ _ _ _ _ _ Hloop) as [-> _].
Qed.

Lemma fetch_then_analyze_witness :
  ∃ st a,
    get_closed_issues PyRef.strptime Example.server Example.since
      Example.until 5 = Returned st ∧
    analyze_issues PyRef.strptime PyRef.strftime PyRef.float
      PyRef.truediv PyRef.round
      (issues st) = inr a ∧
    total_count a = 2.
Proof.
  destruct (get_closed_issues PyRef.strptime Example.server Example.since
              Example.until 5) as [st|e log|st] eqn:Hrun;
    [|vm_compute in Hrun; discriminate..].
  pose proof (fetch_then_analyze PyRef.strptime PyRef.strftime PyRef.float
    PyRef.truediv
                PyRef.round Example.server Example.since Example.until 5 st
                Hrun) as Hcomp.
  assert (Hrun' := Hrun). vm_compute in Hrun'. injection Hrun' as Est.
  destruct (analyze_issues _ _ _ _ _ (issues st)) as [e|a] eqn:Ha.
  { subst st. vm_compute in Ha. discriminate. }
  exists st, a. split; [done|]. split; [done|]. rewrite Hcomp.
  by subst st.
Defined.

Lemma fetch_terminates_witness :
  get_closed_issues PyRef.strptime Example.server_failing Example.since None 7
  = get_closed_issues PyRef.strptime Example.server_failing Example.since None 2.
Proof.
  apply (fetch_terminates PyRef.strptime Example.server_failing Example.since
           None 2 7).
  - lia.
  - left. vm_compute. discriminate.
  - lia.
Defined.

Lemma fetch_runs_on_witness :
  ∃ st,
    get_closed_issues PyRef.strptime Sample.server_endless Example.since None 6
    = Running st ∧
    requests st = [1; 2; 3; 4; 5; 6]%nat.
Proof.
  destruct (fetch_runs_on PyRef.strptime Sample.server_endless Example.since
              None 6) as (st & Hrun & Hreq & _).
  - intros p _. split; [reflexivity|]. split; [discriminate|].
    split; [repeat constructor|].
    intros l s [= <-] [= <-]. eexists. split; reflexivity.
  - by exists st.
Defined.

(** ** [main] of the analyzer *)

Lemma accepts_parses strptime since until i :
  accepts strptime since until i = true →
  is_Some (strptime (Issue.created_at i) wire_format) →
  parses strptime i = true.
Proof.
  intros (_ & s & d & Hs & _ & Hd & _)%accepts_spec [c Hc].
  unfold parses, parse_times. by rewrite Hc, Hs, Hd.
Qed.

(** A true value is not the empty string. *)
Lemma truthy_nonempty c s : truthy c = Some s → s ≠ "".
Proof. destruct c as [[|a c]|]; simpl; by intros [= <-]. Qed.

Section MainFacts.
Variable strptime : string → string → option datetime.
Variable strftime : datetime → string → string.
Variable F : Type.
Variable truediv : Z → Z → F.
Variable round : F → Z → F.
Variable times : F → Z → F.
Variable server : nat → response.
Variable GITHUB_TOKEN : option string.
Variable days_ago : Z → datetime.
Variable generated_at : string.
Variable order_of : analysis F → dict_order.

Local Abbreviation parse_window := (parse_window strptime F days_ago).
Local Abbreviation generate_report :=
  (generate_report F truediv times generated_at order_of).
Local Abbreviation main :=
  (main strptime strftime F truediv round times server GITHUB_TOKEN days_ago
     generated_at order_of).
Local Abbreviation analyze_issues :=
  (analyze_issues strptime strftime F truediv round).

Lemma parse_window_inl args early :
  parse_window args = inl early → early = InvalidSince ∨ early = InvalidUntil.
Proof.
  unfold parse_window.
  destruct (match truthy (Args.since args) with
            | Some s => strptime s "%Y-%m-%d"
            | None => Some (days_ago (Args.days args))
            end); [|intros [= <-]; by left].
  destruct (truthy (Args.until args)) as [u|]; [|done].
  destruct (strptime u "%Y-%m-%d"); [done|]. intros [= <-]. by right.
Qed.

(** X12: [--until] is inclusive through the end of its day. When [main]
    gets an upper bound from the command line, the bound is the parsed
    date at 23:59:59, so that a datetime of that calendar day, at any time
    of the day (and no later fraction of a second than the parsed date
    has), is not after the bound, and a datetime of a later day of the
    same month is. *)
Theorem until_covers_the_day args since_date bound :
  parse_window args = inr (since_date, Some bound) →
  ∃ s parsed,
    truthy (Args.until args) = Some s ∧
    strptime s "%Y-%m-%d" = Some parsed ∧
    bound = end_of_day parsed ∧
    (∀ d, year d = year parsed → month d = month parsed →
          day d = day parsed →
          hour d ≤ 23 → minute d ≤ 59 → second d ≤ 59 →
          microsecond d ≤ microsecond parsed →
          datetime_le d bound = true) ∧
    (∀ d, year d = year parsed → month d = month parsed →
          day parsed < day d →
          datetime_le d bound = false).
Proof.
  unfold parse_window.
  destruct (match truthy (Args.since args) with
            | Some s => strptime s "%Y-%m-%d"
            | None => Some (days_ago (Args.days args))
            end) as [lower|]; [|done].
  destruct (truthy (Args.until args)) as [u|]; [|done].
  destruct (strptime u "%Y-%m-%d") as [parsed|] eqn:Hu; [|done].
  intros [= <- <-]. exists u, parsed. do 3 (split; [done|]). split.
  - intros d Hy Hm Hd Hh Hmi Hs Hus.
    unfold datetime_le, datetime_cmp, end_of_day. cbn.
    rewrite Hy, Hm, Hd, !Z.compare_refl.
    destruct (Z.compare_spec (hour d) 23); [|done|lia].
    destruct (Z.compare_spec (minute d) 59); [|done|lia].
    destruct (Z.compare_spec (second d) 59); [|done|lia].
    by destruct (Z.compare_spec (microsecond d) (microsecond parsed)); [..|lia].
  - intros d Hy Hm Hd.
    unfold datetime_le, datetime_cmp, end_of_day. cbn.
    rewrite Hy, Hm, !Z.compare_refl.
    by destruct (Z.compare_spec (day d) (day parsed)); [lia|lia|].
Qed.

(** X13: whenever [main] ends with a report, a token was there (that of
    the command line if it is not empty, else [GITHUB_TOKEN], not empty
    either), both dates parsed, the fetch returned a list that is not
    empty and whose issues all passed the filter of the window, and the
    report is about the analysis of exactly that list: [total_count] is
    its length, at least 1. With nothing fetched there is no report. *)
Theorem main_reports fuel args a out :
  main fuel args = Reported a out →
  ∃ token since_date until_date st,
    truthy (match truthy (Args.token args) with
            | Some t => Some t
            | None => GITHUB_TOKEN
            end) = Some token ∧
    token ≠ "" ∧
    parse_window args = inr (since_date, until_date) ∧
    get_closed_issues strptime server since_date until_date fuel = Returned st ∧
    issues st ≠ [] ∧
    Forall (λ i, accepts strptime since_date until_date i = true) (issues st) ∧
    analyze_issues (issues st) = inr a ∧
    total_count a = Z.of_nat (length (issues st)) ∧
    1 ≤ total_count a ∧
    generate_report (Args.owner args) (Args.repo args) a (Args.format args)
    = inr out.
Proof.
  unfold main.
  destruct (truthy (match truthy (Args.token args) with
                    | Some t => Some t
                    | None => GITHUB_TOKEN
                    end)) as [t|] eqn:Htok; [|done].
  destruct (parse_window args) as [early|[since_date until_date]] eqn:Hw.
  { apply parse_window_inl in Hw as [-> | ->]; done. }
  destruct (get_closed_issues _ _ _ _ _) as [st|e log|st] eqn:Hrun; [|done..].
  destruct (issues st) as [|i l] eqn:Hi; [done|].
  destruct (analyze_issues (i :: l)) as [e|a'] eqn:Ha; [done|].
  destruct (generate_report _ _ a' _) as [e|out'] eqn:Hg; [done|].
  intros [= <- <-]. exists t, since_date, until_date, st.
  split; [done|]. split; [by eapply truthy_nonempty|].
  split; [done|]. split; [done|]. rewrite Hi.
  split; [done|]. split; [rewrite <-Hi; by eapply returned_accepted|].
  split; [done|].
  apply analyze_issues_inr in Ha as (st' & Hloop & ->).
  destruct (finish_fields F truediv round (i :: l) st') as (-> & _).
  destruct (for_issues_total_count _ _ _ _ _ _ Hloop) as [-> _].
  cbn [analysis0 result total_count length]. split; [done|]. split; [lia|done].
Qed.

(** X14: in [main] the console report never divides by zero. Whatever the
    service answers and whatever order the dictionaries have, [main] with
    any output format does not end in a caught [ZeroDivisionError]: it
    leaves before the analysis when nothing was fetched, and an analysis
    of at least one issue has a [total_count] of at least 1. *)
Theorem main_never_divides_by_zero fuel args :
  (∀ a, enumerates (order_of a) a) →
  main fuel args ≠ ErrorCaught ZeroDivisionError.
Proof.
  intros Horder. unfold main.
  destruct (truthy _) as [t|]; [|done].
  destruct (parse_window args) as [early|[since_date until_date]] eqn:Hw.
  { apply parse_window_inl in Hw as [-> | ->]; done. }
  destruct (get_closed_issues _ _ _ _ _) as [st|e log|st] eqn:Hrun; [|done..].
  destruct (issues st) as [|i l] eqn:Hi; [done|].
  destruct (analyze_issues (i :: l)) as [e|a] eqn:Ha; [done|].
  unfold generate_report.
  destruct (String.eqb (Args.format args) "console").
  - destruct (enumerates_empty _ _ _ _ _ _ _ _ Ha (Horder a)) as [Ht Hz].
    destruct (console_report_some F truediv times (order_of a) a)
      as (r & -> & _); [|done].
    left. rewrite Ht. cbn [length]. lia.
  - destruct (String.eqb (Args.format args) "csv"); [done|].
    destruct (String.eqb (Args.format args) "json"); [|done].
    by destruct (_export_json_report _ _ _ _ a).
Qed.

(** X15: with [--format json], [main] ends in the [except] branch with a
    caught [TypeError], and not with the report exported, whenever the
    fetch returns a list in which some issue has a label (and every
    [created_at] parses). What [json.dump] had written to the file before
    it raised is not part of this model, which has no files. *)
Theorem main_json_fails_on_labels fuel args since_date until_date st t :
  Args.format args = "json" →
  truthy (match truthy (Args.token args) with
          | Some t => Some t
          | None => GITHUB_TOKEN
          end) = Some t →
  parse_window args = inr (since_date, until_date) →
  get_closed_issues strptime server since_date until_date fuel = Returned st →
  Exists (λ i, labelled i = true) (issues st) →
  Forall (λ i, is_Some (strptime (Issue.created_at i) wire_format)) (issues st) →
  main fuel args = ErrorCaught (Exception TypeError).
Proof.
  intros Hfmt Htok Hw Hrun Hlab Hcreated. unfold main.
  rewrite Htok, Hw, Hrun.
  destruct (issues st) as [|i l] eqn:Hi; [by apply Exists_nil in Hlab|].
  rewrite <-Hi in *.
  assert (Forall (λ i, parses strptime i = true) (issues st)) as Hparses.
  { pose proof (returned_accepted _ _ _ _ _ _ Hrun) as Hacc.
    apply Forall_forall. intros j Hj.
    rewrite Forall_forall in Hacc. rewrite Forall_forall in Hcreated.
    eapply accepts_parses; eauto. }
  destruct (analyze_issues_total strptime strftime F truediv round _ Hparses)
    as (st' & Hloop & Ha).
  rewrite Ha. unfold generate_report. rewrite Hfmt. cbn [String.eqb].
  rewrite (json_export_raises_for_labelled _ _ _ _ _ _ _ _ _ _ Ha Hlab).
  done.
Qed.
End MainFacts.

Lemma until_covers_the_day_witness :
  datetime_le (Example.at_ 2024 1 31 23 59 59)
              (Example.at_ 2024 1 31 23 59 59) = true ∧
  datetime_le (Example.at_ 2024 1 31 0 0 0)
              (Example.at_ 2024 1 31 23 59 59) = true.
Proof.
  destruct (until_covers_the_day PyRef.strptime PyRef.float Sample.days_ago
              (Sample.args "console") (Example.at_ 2024 1 1 0 0 0)
              (Example.at_ 2024 1 31 23 59 59))
    as (s & parsed & Hs & Hp & Hb & Hin & _).
  - vm_compute. reflexivity.
  - injection Hs as <-. vm_compute in Hp. injection Hp as <-.
    split; apply Hin; vm_compute; (reflexivity || discriminate).
Defined.

Lemma main_reports_witness :
  ∃ a out,
    main PyRef.strptime PyRef.strftime PyRef.float
      PyRef.truediv PyRef.round Sample.times
      Example.server None Sample.days_ago "2024-03-01T09:30:00" map_order
      5 (Sample.args "csv") = Reported a out ∧
    1 ≤ total_count a.
Proof.
  destruct (main PyRef.strptime PyRef.strftime PyRef.float
    PyRef.truediv PyRef.round
              Sample.times Example.server None Sample.days_ago
              "2024-03-01T09:30:00" map_order 5 (Sample.args "csv"))
    as [| | | | |e|a out] eqn:Hm; try (vm_compute in Hm; discriminate).
  exists a, out. split; [done|].
  destruct (main_reports _ _ _ _ _ _ _ _ _ _ _ _ _ _ _ Hm)
    as (token & since_date & until_date & st & _ & _ & _ & _ & _ & _ & _ & _
        & Hone & _).
  exact Hone.
Defined.

Lemma main_never_divides_by_zero_witness :
  main PyRef.strptime PyRef.strftime PyRef.float
    PyRef.truediv PyRef.round Sample.times
    Example.server None Sample.days_ago "2024-03-01T09:30:00" map_order
    5 (Sample.args "console") ≠ ErrorCaught ZeroDivisionError.
Proof.
  apply main_never_divides_by_zero. intros a. apply enumerates_map_order.
Defined.

Lemma main_json_fails_on_labels_witness :
  main PyRef.strptime PyRef.strftime PyRef.float
    PyRef.truediv PyRef.round Sample.times
    Example.server None Sample.days_ago "2024-03-01T09:30:00" map_order
    5 (Sample.args "json") = ErrorCaught (Exception TypeError).
Proof.
  eapply (main_json_fails_on_labels PyRef.strptime PyRef.strftime PyRef.float
            PyRef.truediv PyRef.round Sample.times Example.server None
            Sample.days_ago "2024-03-01T09:30:00" map_order 5
            (Sample.args "json")).
  - reflexivity.
  - reflexivity.
  - vm_compute. reflexivity.
  - vm_compute. reflexivity.
  - apply Exists_cons_hd. reflexivity.
  - repeat (constructor; [by eexists|]). constructor.
Defined.

(** ** The issue creator *)

Section CreatorFacts.
Variable strip : string → string.
Variable lower : string → string.
Variable format : string → string → option string.
Variable server : nat → response.
Variable State : Type.
Variable post : State → string → Creator.payload → State * Z.
Variable GITHUB_TOKEN : option string.

Local Abbreviation add_titles := (Creator.add_titles strip lower).
Local Abbreviation listing_loop := (Creator.listing_loop strip lower server).
Local Abbreviation get_existing_issue_titles :=
  (Creator.get_existing_issue_titles strip lower server).
Local Abbreviation page_keys := (Creator.page_keys strip lower server).
Local Abbreviation listed := (Creator.listed server).
Local Abbreviation create_issue := (Creator.create_issue lower format State post).
Local Abbreviation create_all := (Creator.create_all strip lower format State post).
Local Abbreviation items := (Creator.items strip).
Local Abbreviation run :=
  (Creator.run strip lower format server State post GITHUB_TOKEN).

Lemma add_titles_spec issues T t :
  t ∈ add_titles issues T ↔
  t ∈ T ∨ t ∈ (λ issue, lower (strip (Issue.title issue))) <$> issues.
Proof.
  revert T. induction issues as [|i issues IH]; intros T.
  - cbn. split; [by left|]. intros [H|H]; [done|by apply elem_of_nil in H].
  - unfold Creator.add_titles in *. cbn [foldl]. rewrite IH.
    rewrite fmap_cons, elem_of_union, elem_of_singleton, elem_of_cons.
    split.
    + intros [[H|H]|H]; [by right; left|by left|by right; right].
    + intros [H|[H|H]]; [by left; right|by left; left|by right].
Qed.

Lemma listing_loop_step fuel p T :
  listed p →
  listing_loop (S fuel) p T =
  listing_loop fuel (S p) (add_titles (json (server p)) T).
Proof.
  intros [Hs Hj]. cbn [Creator.listing_loop]. rewrite Hs. cbn.
  by destruct (json (server p)).
Qed.

Lemma listing_loop_end fuel p T :
  status_code (server p) ≠ 200 ∨ json (server p) = [] →
  listing_loop (S fuel) p T = Some T.
Proof.
  intros H. cbn [Creator.listing_loop].
  destruct (Z.eqb_spec (status_code (server p)) 200) as [E|E]; cbn; [|done].
  destruct H as [H|H]; [done|]. by rewrite H.
Qed.

Lemma listing_loop_stop n : ∀ p0 T fuel,
  (∀ q, (p0 ≤ q < p0 + n)%nat → listed q) →
  status_code (server (p0 + n)) ≠ 200 ∨ json (server (p0 + n)) = [] →
  (n < fuel)%nat →
  ∃ T', listing_loop fuel p0 T = Some T' ∧
        ∀ t, t ∈ T' ↔ t ∈ T ∨ ∃ q, (p0 ≤ q < p0 + n)%nat ∧ t ∈ page_keys q.
Proof.
  induction n as [|n IH]; intros p0 T fuel Hgood Hend Hfuel.
  - destruct fuel as [|fuel]; [lia|]. exists T. split.
    + apply listing_loop_end. by rewrite Nat.add_0_r in Hend.
    + intros t. split; [by left|]. intros [H|(q & Hq & _)]; [done|lia].
  - destruct fuel as [|fuel]; [lia|].
    rewrite listing_loop_step by (apply Hgood; lia).
    destruct (IH (S p0) (add_titles (json (server p0)) T) fuel)
      as (T' & HT' & Hin).
    + intros q Hq. apply Hgood. lia.
    + by replace (S p0 + n)%nat with (p0 + S n)%nat by lia.
    + lia.
    + exists T'. split; [done|]. intros t. rewrite Hin, add_titles_spec.
      split.
      * intros [[H|H]|(q & Hq & H)]; [by left| |].
        -- right. exists p0. split; [lia|done].
        -- right. exists q. split; [lia|done].
      * intros [H|(q & Hq & H)]; [by left; left|].
        destruct (decide (q = p0)) as [->|Hne]; [by left; right|].
        right. exists q. split; [lia|done].
Qed.

Lemma listing_loop_running fuel : ∀ p0 T,
  (∀ q, (p0 ≤ q < p0 + fuel)%nat → listed q) →
  listing_loop fuel p0 T = None.
Proof.
  induction fuel as [|fuel IH]; intros p0 T Hgood; [done|].
  rewrite listing_loop_step by (apply Hgood; lia).
  apply IH. intros q Hq. apply Hgood. lia.
Qed.

(** X16 ([get_existing_issue_titles]).  If pages 1 to p-1 of the listing
    are answered with status 200 and are not empty, and page p is the
    first that fails or is empty, then the function returns once p
    iterations are allowed, not before, and the set it returns holds
    exactly the stripped, lower-cased titles of the issues on pages 1 to
    p-1: the pages from p on are never looked at. *)
Theorem existing_titles_up_to_first_stop (p fuel : nat) :
  (1 ≤ p)%nat →
  (∀ q, (1 ≤ q < p)%nat → listed q) →
  status_code (server p) ≠ 200 ∨ json (server p) = [] →
  ((fuel < p)%nat → get_existing_issue_titles fuel = None) ∧
  ((p ≤ fuel)%nat →
   ∃ T, get_existing_issue_titles fuel = Some T ∧
        ∀ t, t ∈ T ↔ ∃ q, (1 ≤ q < p)%nat ∧ t ∈ page_keys q).
Proof.
  intros Hp Hgood Hend. split; intros Hfuel.
  - apply listing_loop_running. intros q Hq. apply Hgood. lia.
  - destruct (listing_loop_stop (p - 1) 1%nat ∅ fuel) as (T & HT & Hin).
    + intros q Hq. apply Hgood. lia.
    + by replace (1 + (p - 1))%nat with p by lia.
    + lia.
    + exists T. split; [done|]. intros t. rewrite Hin. split.
      * intros [H|(q & Hq & H)]; [by apply elem_of_empty in H|].
        exists q. split; [lia|done].
      * intros (q & Hq & H). right. exists q. split; [lia|done].
Qed.

(** What one call does when nothing is sent. *)
Lemma create_issue_dry c item ex s :
  (create_issue c item ex true s).1 = s ∧
  ∀ u p st, (create_issue c item ex true s).2 ≠ Creator.Posted u p st.
Proof.
  unfold Creator.create_issue.
  destruct (format (Creator.title_format c) item) as [t|]; [|done].
  case_bool_decide; [done|].
  by destruct (format (Creator.body_template c) item).
Qed.

(** What one call does when both templates fit. *)
Lemma create_issue_formatted c item ex s t b :
  format (Creator.title_format c) item = Some t →
  format (Creator.body_template c) item = Some b →
  let p := {| Creator.p_title := t; Creator.p_body := b;
              Creator.p_assignees := Creator.assignees c;
              Creator.p_labels := Creator.labels c;
              Creator.p_milestone :=
                Creator.milestone_given (Creator.milestone c) |} in
  create_issue c item ex false s =
  if bool_decide (lower t ∈ ex) then (s, Creator.Skipped t)
  else ((post s (Creator.issues_url c) p).1,
        Creator.Posted (Creator.issues_url c) p
                       (post s (Creator.issues_url c) p).2).
Proof.
  intros Ht Hb p. unfold Creator.create_issue. rewrite Ht.
  case_bool_decide; [done|]. rewrite Hb.
  fold p. by destruct (post s (Creator.issues_url c) p).
Qed.

Lemma create_all_cons c ex dry s line lines :
  create_all c ex dry s (line :: lines) =
  if String.eqb (strip line) "" then create_all c ex dry s lines
  else
    let r := create_issue c (strip line) ex dry s in
    match r.2 with
    | Creator.TemplateError => (r.1, [Creator.TemplateError])
    | event => ((create_all c ex dry r.1 lines).1,
                event :: (create_all c ex dry r.1 lines).2)
    end.
Proof.
  cbn [Creator.create_all]. destruct (String.eqb (strip line) ""); [done|].
  destruct (create_issue c (strip line) ex dry s) as [s' e]. cbn.
  destruct e; try done; by destruct (create_all c ex dry s' lines).
Qed.

Lemma items_cons line lines :
  items (line :: lines) =
  if String.eqb (strip line) "" then items lines else strip line :: items lines.
Proof.
  unfold Creator.items. cbn. by destruct (String.eqb (strip line) "").
Qed.

(** X17 ([create_issue], [main] lines 183-187).  With [dry_run] set, no
    line of the input file makes the tool send a creation request: the
    endpoint is left in the state it was in and no event of the run is a
    POST, whatever the templates and the existing titles. *)
Theorem dry_run_sends_nothing c ex s lines :
  (create_all c ex true s lines).1 = s ∧
  Creator.posted (create_all c ex true s lines).2 = [].
Proof.
  induction lines as [|line lines [IHs IHe]]; [done|].
  rewrite create_all_cons. destruct (String.eqb (strip line) ""); [done|].
  destruct (create_issue_dry c (strip line) ex s) as [Hs Hp].
  cbn zeta. rewrite Hs.
  destruct (create_issue c (strip line) ex true s).2 as [|t|u p|u p st] eqn:He;
    cbn; try done.
  by destruct (Hp u p st).
Qed.

(** The titles that a run without [dry_run] sends. *)
Lemma create_all_titles c ex lines : ∀ s,
  (∀ item, item ∈ items lines →
     is_Some (format (Creator.title_format c) item) ∧
     is_Some (format (Creator.body_template c) item)) →
  Creator.p_title <$> Creator.posted (create_all c ex false s lines).2 =
    filter (λ t, lower t ∉ ex)
           (omap (format (Creator.title_format c)) (items lines)).
Proof.
  induction lines as [|line lines IH]; intros s Hfmt; [done|].
  rewrite create_all_cons. rewrite items_cons in Hfmt |- *.
  destruct (String.eqb (strip line) ""); [by apply IH|].
  destruct (Hfmt (strip line)) as [[t Ht] [b Hb]]; [by left|].
  rewrite (create_issue_formatted _ _ _ _ _ _ Ht Hb).
  cbn [omap list_omap]. rewrite Ht.
  case_bool_decide as Hex; cbn -[filter].
  - rewrite filter_cons_False by (intros H; by apply H).
    apply IH. intros item Hi. apply Hfmt. by right.
  - rewrite filter_cons_True by done. f_equal.
    apply IH. intros item Hi. apply Hfmt. by right.
Qed.

(** A payload that is sent has a title that is not an existing one. *)
Lemma create_issue_posted c item ex dry s u p st :
  (create_issue c item ex dry s).2 = Creator.Posted u p st →
  lower (Creator.p_title p) ∉ ex.
Proof.
  unfold Creator.create_issue.
  destruct (format (Creator.title_format c) item) as [t|]; [|done].
  case_bool_decide as Hex; [done|].
  destruct (format (Creator.body_template c) item) as [b|]; [|done].
  destruct dry; [done|].
  destruct (post s _ _) as [s' st']. cbn. intros [= <- <- <-]. done.
Qed.

Lemma posted_not_existing c ex dry lines : ∀ s pl,
  pl ∈ Creator.posted (create_all c ex dry s lines).2 →
  lower (Creator.p_title pl) ∉ ex.
Proof.
  induction lines as [|line lines IH]; intros s pl.
  - cbn. by intros ?%elem_of_nil.
  - rewrite create_all_cons.
    destruct (String.eqb (strip line) ""); [apply IH|]. cbn zeta.
    destruct (create_issue c (strip line) ex dry s).2 as [|t|u p|u p st] eqn:He;
      cbn; try apply IH.
    + by intros ?%elem_of_nil.
    + intros [->|H]%elem_of_cons; [|by eapply IH].
      by eapply create_issue_posted.
Qed.

(** X18 ([create_issue], [main] lines 183-187).  Without [dry_run], and
    when the templates fit every item, the titles sent are, in order, the
    formatted titles of the non-blank stripped lines whose lower-cased
    title is not among the existing titles; the endpoint receives exactly
    these payloads one after the other, each with the assignees and
    labels of the configuration.  The set of existing titles is not
    extended during the run, so a line that occurs twice is sent twice. *)
Theorem posted_titles c ex s lines :
  (∀ item, item ∈ items lines →
     is_Some (format (Creator.title_format c) item) ∧
     is_Some (format (Creator.body_template c) item)) →
  let r := create_all c ex false s lines in
  Creator.p_title <$> Creator.posted r.2 =
    filter (λ t, lower t ∉ ex)
           (omap (format (Creator.title_format c)) (items lines)) ∧
  r.1 = foldl (λ s p, (post s (Creator.issues_url c) p).1) s
              (Creator.posted r.2) ∧
  Forall (λ p, Creator.p_assignees p = Creator.assignees c ∧
               Creator.p_labels p = Creator.labels c)
         (Creator.posted r.2).
Proof.
  intros Hfmt r. split; [by apply create_all_titles|]. subst r.
  revert s. induction lines as [|line lines IH]; intros s; [done|].
  rewrite create_all_cons. rewrite items_cons in Hfmt.
  destruct (String.eqb (strip line) ""); [by apply IH|].
  destruct (Hfmt (strip line)) as [[t Ht] [b Hb]]; [by left|].
  rewrite (create_issue_formatted _ _ _ _ _ _ Ht Hb).
  assert (Hrest : ∀ item, item ∈ items lines →
     is_Some (format (Creator.title_format c) item) ∧
     is_Some (format (Creator.body_template c) item)).
  { intros item Hi. apply Hfmt. by right. }
  case_bool_decide as Hex; cbn; [by apply IH|].
  destruct (IH Hrest (post s (Creator.issues_url c)
                {| Creator.p_title := t; Creator.p_body := b;
                   Creator.p_assignees := Creator.assignees c;
                   Creator.p_labels := Creator.labels c;
                   Creator.p_milestone :=
                     Creator.milestone_given (Creator.milestone c) |}).1)
    as (H2 & H3).
  split; [done|by constructor].
Qed.

(** X19 ([main] lines 183-187).  An exception of a template ends the
    run: it is the last event, the lines after it are not processed. *)
Theorem template_error_ends_run c ex dry s lines i :
  (create_all c ex dry s lines).2 !! i = Some Creator.TemplateError →
  S i = length (create_all c ex dry s lines).2.
Proof.
  revert s i. induction lines as [|line lines IH]; intros s i; [done|].
  rewrite create_all_cons. destruct (String.eqb (strip line) ""); [apply IH|].
  cbn zeta.
  destruct (create_issue c (strip line) ex dry s).2 as [|t|u p|u p st] eqn:He;
    cbn [snd].
  - destruct i; [done|]. by rewrite lookup_cons, lookup_nil.
  - destruct i; [done|]. cbn. intros H. f_equal. by apply IH.
  - destruct i; [done|]. cbn. intros H. f_equal. by apply IH.
  - destruct i; [done|]. cbn. intros H. f_equal. by apply IH.
Qed.


(** X20 ([get_existing_issue_titles], [create_issue], [main] lines
    176-187).  With a token, and a listing whose first failing or empty
    page is p, the run ends, and no title it sends is, lower-cased, the
    stripped and lower-cased title of an issue on pages 1 to p-1. *)
Theorem run_never_duplicates c dry s lines (p fuel : nat) :
  is_Some (truthy GITHUB_TOKEN) →
  (1 ≤ p)%nat →
  (∀ q, (1 ≤ q < p)%nat → listed q) →
  status_code (server p) ≠ 200 ∨ json (server p) = [] →
  (p ≤ fuel)%nat →
  ∃ s' events,
    run fuel c dry s lines = Creator.Done s' events ∧
    ∀ pl q, pl ∈ Creator.posted events → (1 ≤ q < p)%nat →
            lower (Creator.p_title pl) ∉ page_keys q.
Proof.
  intros [tok Htok] Hp Hgood Hend Hfuel.
  destruct (listing_loop_stop (p - 1) 1%nat ∅ fuel) as (T & HT & Hin).
  { intros q Hq. apply Hgood. lia. }
  { by replace (1 + (p - 1))%nat with p by lia. }
  { lia. }
  unfold Creator.run, Creator.get_existing_issue_titles. rewrite Htok, HT.
  destruct (create_all c T dry s lines) as [s' events] eqn:Hall.
  exists s', events. split; [done|]. intros pl q Hpl Hq Hkey.
  assert (Hpl' : pl ∈ Creator.posted (create_all c T dry s lines).2)
    by by rewrite Hall.
  apply posted_not_existing in Hpl'. apply Hpl', Hin.
  right. exists q. split; [lia|done].
Qed.

(** X21 ([get_existing_issue_titles], [main] lines 176-187).  When the
    first page of the listing is answered with a status other than 200,
    the set of existing titles is empty and the run goes on: without
    [dry_run] every item of the input file is sent, whether or not an
    issue of that title exists. *)
Theorem failed_listing_sends_all c s lines (fuel : nat) :
  is_Some (truthy GITHUB_TOKEN) →
  status_code (server 1%nat) ≠ 200 →
  (1 ≤ fuel)%nat →
  (∀ item, item ∈ items lines →
     is_Some (format (Creator.title_format c) item) ∧
     is_Some (format (Creator.body_template c) item)) →
  ∃ s' events,
    run fuel c false s lines = Creator.Done s' events ∧
    Creator.p_title <$> Creator.posted events =
      omap (format (Creator.title_format c)) (items lines).
Proof.
  intros [tok Htok] Hst Hfuel Hfmt.
  destruct fuel as [|fuel]; [lia|].
  unfold Creator.run, Creator.get_existing_issue_titles.
  rewrite Htok, listing_loop_end by by left.
  destruct (create_all c ∅ false s lines) as [s' events] eqn:Hall.
  exists s', events. split; [done|].
  pose proof (create_all_titles c ∅ lines s Hfmt) as H.
  rewrite Hall in H. cbn [snd] in H. rewrite H. clear.
  generalize (omap (format (Creator.title_format c)) (items lines)).
  intros l. induction l as [|t l IH]; [done|].
  rewrite filter_cons_True by apply not_elem_of_empty. by f_equal.
Qed.

End CreatorFacts.

(** X22 ([prompt_for_param]).  When the prompt returns, it has read the
    input up to the line that decided: every line before it was refused
    by the validator (and was not an empty line answered by the
    default); the result is the default, unvalidated, when that line is
    empty and a default is given, and otherwise the line itself, which
    the validator, if there is one, accepts. *)
Theorem prompt_for_param_result validator default inputs r rest :
  Creator.prompt_for_param validator default inputs = Some (r, rest) →
  ∃ refused value,
    inputs = refused ++ value :: rest ∧
    Forall (λ x, (∃ ok, validator = Some ok ∧ ok x = false) ∧
                 (x = "" → default = None)) refused ∧
    ((value = "" ∧ default = Some r) ∨
     (r = value ∧ (value = "" → default = None) ∧
      ∀ ok, validator = Some ok → ok value = true)).
Proof.
  induction inputs as [|x inputs IH]; [done|]. cbn.
  assert (Hrec : Creator.prompt_for_param validator default inputs
                 = Some (r, rest) →
                 (∃ ok, validator = Some ok ∧ ok x = false) →
                 (x = "" → default = None) →
                 ∃ refused value,
                   x :: inputs = refused ++ value :: rest ∧
                   Forall (λ x, (∃ ok, validator = Some ok ∧ ok x = false) ∧
                                (x = "" → default = None)) refused ∧
                   ((value = "" ∧ default = Some r) ∨
                    (r = value ∧ (value = "" → default = None) ∧
                     ∀ ok, validator = Some ok → ok value = true))).
  { intros H Hv Hd. destruct (IH H) as (refused & value & -> & Hf & Hr).
    exists (x :: refused), value. split; [done|]. split; [|done].
    by constructor. }
  destruct default as [d|].
  - destruct (String.eqb_spec x "") as [->|Hx].
    + intros [= <- <-]. exists [], "". split; [done|]. split; [done|].
      by left.
    + destruct validator as [ok|].
      * destruct (ok x) eqn:Hok.
        -- intros [= <- <-]. exists [], x. split; [done|]. split; [done|].
           right. split; [done|]. split; [done|]. by intros ? [= <-].
        -- intros H. apply Hrec; [done|by exists ok|done].
      * intros [= <- <-]. exists [], x. split; [done|]. split; [done|].
        right. split; [done|]. split; done.
  - destruct validator as [ok|].
    + destruct (ok x) eqn:Hok.
      * intros [= <- <-]. exists [], x. split; [done|]. split; [done|].
        right. split; [done|]. split; [done|]. by intros ? [= <-].
      * intros H. apply Hrec; [done|by exists ok|done].
    + intros [= <- <-]. exists [], x. split; [done|]. split; [done|].
      right. split; [done|]. split; done.
Qed.

Lemma existing_titles_up_to_first_stop_witness :
  ∃ T, Creator.get_existing_issue_titles Sample.strip Sample.lower
         Sample.open_issues 5 = Some T ∧
       ∀ t, t ∈ T ↔
            ∃ q, (1 ≤ q < 2)%nat ∧
                 t ∈ Creator.page_keys Sample.strip Sample.lower
                       Sample.open_issues q.
Proof.
  destruct (existing_titles_up_to_first_stop Sample.strip Sample.lower
              Sample.open_issues 2 5) as [_ H].
  - lia.
  - intros q Hq. assert (q = 1%nat) as -> by lia. split; [reflexivity|done].
  - right. reflexivity.
  - apply H. lia.
Defined.

Lemma posted_titles_witness :
  Creator.p_title <$>
    Creator.posted
      (Creator.create_all Sample.strip Sample.lower Sample.format
         (list Creator.payload) Sample.post Sample.config {["reopened"]}
         false [] Sample.lines).2 =
  filter (λ t, Sample.lower t ∉ ({["reopened"]} : gset string))
         (omap (Sample.format (Creator.title_format Sample.config))
               (Creator.items Sample.strip Sample.lines)).
Proof.
  destruct (posted_titles Sample.strip Sample.lower Sample.format
              (list Creator.payload) Sample.post Sample.config
              {["reopened"]} [] Sample.lines) as [H _]; [|exact H].
  apply Forall_forall. vm_compute.
  repeat (constructor; [split; by eexists|]). constructor.
Defined.

Lemma template_error_ends_run_witness :
  1%nat =
  length (Creator.create_all Sample.strip Sample.lower Sample.format
            (list Creator.payload) Sample.post
            {| Creator.repository_owner := "o";
               Creator.repository_name := "r";
               Creator.title_format := "{name}";
               Creator.body_template := "";
               Creator.assignees := [];
               Creator.labels := [];
               Creator.milestone := None |}
            ∅ false [] ["first"; "second"]).2.
Proof.
  apply (template_error_ends_run Sample.strip Sample.lower Sample.format
           (list Creator.payload) Sample.post _ ∅ false [] _ 0%nat).
  vm_compute. reflexivity.
Defined.

Lemma run_never_duplicates_witness :
  ∃ s' events,
    Creator.run Sample.strip Sample.lower Sample.format Sample.open_issues
      (list Creator.payload) Sample.post (Some "secret") 5 Sample.config
      false [] Sample.lines = Creator.Done s' events ∧
    ∀ pl q, pl ∈ Creator.posted events → (1 ≤ q < 2)%nat →
            Sample.lower (Creator.p_title pl) ∉
            Creator.page_keys Sample.strip Sample.lower Sample.open_issues q.
Proof.
  apply (run_never_duplicates Sample.strip Sample.lower Sample.format
           Sample.open_issues (list Creator.payload) Sample.post
           (Some "secret") Sample.config false [] Sample.lines 2 5).
  - by eexists.
  - lia.
  - intros q Hq. assert (q = 1%nat) as -> by lia. split; [reflexivity|done].
  - right. reflexivity.
  - lia.
Defined.

Lemma failed_listing_sends_all_witness :
  ∃ s' events,
    Creator.run Sample.strip Sample.lower Sample.format Sample.no_listing
      (list Creator.payload) Sample.post (Some "secret") 5 Sample.config
      false [] Sample.lines = Creator.Done s' events ∧
    Creator.p_title <$> Creator.posted events =
      omap (Sample.format (Creator.title_format Sample.config))
           (Creator.items Sample.strip Sample.lines).
Proof.
  apply (failed_listing_sends_all Sample.strip Sample.lower Sample.format
           Sample.no_listing (list Creator.payload) Sample.post
           (Some "secret") Sample.config [] Sample.lines 5).
  - by eexists.
  - done.
  - lia.
  - apply Forall_forall. vm_compute.
    repeat (constructor; [split; by eexists|]). constructor.
Defined.

Lemma prompt_for_param_result_witness :
  ∃ refused value,
    ["maybe"; "y"; "new thing"] = refused ++ value :: ["new thing"] ∧
    Forall (λ x, (∃ ok, Some (λ v, String.eqb v "y" || String.eqb v "n")
                        = Some ok ∧ ok x = false) ∧
                 (x = "" → @None string = None)) refused ∧
    ((value = "" ∧ None = Some "y") ∨
     ("y" = value ∧ (value = "" → @None string = None) ∧
      ∀ ok, Some (λ v, String.eqb v "y" || String.eqb v "n") = Some ok →
            ok value = true)).
Proof.
  apply (prompt_for_param_result
           (Some (λ v, String.eqb v "y" || String.eqb v "n")) None
           ["maybe"; "y"; "new thing"] "y" ["new thing"]).
  reflexivity.
Defined.
